(** * Vulnerability-scan report scripts: a shallow embedding and its properties

    Two scripts are modelled:
    - [SummaryVAfromCSV.py]  (module [Summary]): load CSV exports, drop
      duplicates, filter by risk, count per host and in total, join, sort;
    - [VAcompareNewIssue.py] (module [Compare]): build the prior-period
      fingerprint set, deduplicate each current-period sheet in place, insert
      the Status column, classify every row and build the summary tables.

    Text is modelled by [string] over 8-bit characters; [strip] and [upper]
    are exact for code points below 128 (Python treats some code points
    above 127 as white space or cased letters, which is outside the model).
    Cell values are [None], NaN, text or integers; floating-point, boolean and
    date cells are outside the model. *)

From Stdlib Require Import String Ascii List ZArith Lia Sorted Permutation.
From stdpp Require Import gmap strings list sorting pretty.

Local Open Scope string_scope.
Local Open Scope nat_scope.
Local Open Scope list_scope.

(** ** Text: [str.strip] and [str.upper] *)

Module Text.

(** [str.isspace] on one character: TAB..CR, FS..US and the blank. *)
Definition is_space (c : ascii) : bool :=
  let n := nat_of_ascii c in
  ((9 <=? n) && (n <=? 13)) || ((28 <=? n) && (n <=? 32)).

Definition is_lower (c : ascii) : bool :=
  let n := nat_of_ascii c in (97 <=? n) && (n <=? 122).

Definition upper_char (c : ascii) : ascii :=
  if is_lower c then ascii_of_nat (nat_of_ascii c - 32) else c.

(** [s.upper()] *)
Fixpoint upper (s : string) : string :=
  match s with
  | EmptyString => EmptyString
  | String c s' => String (upper_char c) (upper s')
  end.

(** [s.lstrip()] *)
Fixpoint lstrip (s : string) : string :=
  match s with
  | EmptyString => EmptyString
  | String c s' => if is_space c then lstrip s' else s
  end.

(** [s.rstrip()] *)
Fixpoint rstrip (s : string) : string :=
  match s with
  | EmptyString => EmptyString
  | String c s' =>
      match rstrip s' with
      | EmptyString => if is_space c then EmptyString else String c EmptyString
      | r => String c r
      end
  end.

(** [s.strip()] *)
Definition strip (s : string) : string := rstrip (lstrip s).


(** Two characters that are the same letter in different case (their codes
    are 32 apart and the larger one is a lower-case letter), or equal. *)
Definition case_variant (a b : ascii) : Prop :=
  a = b
  ∨ (is_lower a = true ∧ nat_of_ascii a = nat_of_ascii b + 32)
  ∨ (is_lower b = true ∧ nat_of_ascii b = nat_of_ascii a + 32).



End Text.

(** ** Cell values *)

Inductive value : Type :=
| VNone                (* Python [None]: an empty spreadsheet cell *)
| VNaN                 (* pandas missing value *)
| VStr (s : string)
| VInt (z : Z).

Global Instance value_eq_dec : EqDecision value.
Proof. solve_decision. Defined.

Global Instance value_inhabited : Inhabited value := populate VNone.

Definition value_encode (v : value) : (unit + unit) + (string + Z) :=
  match v with
  | VNone => inl (inl tt)
  | VNaN => inl (inr tt)
  | VStr s => inr (inl s)
  | VInt z => inr (inr z)
  end.

Definition value_decode (x : (unit + unit) + (string + Z)) : value :=
  match x with
  | inl (inl _) => VNone
  | inl (inr _) => VNaN
  | inr (inl s) => VStr s
  | inr (inr z) => VInt z
  end.

Global Instance value_countable : Countable value.
Proof.
  apply (inj_countable' value_encode value_decode).
  intros []; reflexivity.
Defined.

(** [str(val)] *)
Definition py_str (v : value) : string :=
  match v with
  | VNone => "None"
  | VNaN => "nan"
  | VStr s => s
  | VInt z => pretty z
  end.

(** Truth value of a cell, as in [if cell.value]. *)
Definition truthy (v : value) : bool :=
  match v with
  | VNone => false
  | VNaN => true
  | VStr s => negb (String.eqb s "")
  | VInt z => negb (z =? 0)%Z
  end.

(** [val is None or pd.isna(val)] *)
Definition is_na (v : value) : bool :=
  match v with
  | VNone | VNaN => true
  | _ => false
  end.


(** ** Keeping the first occurrence of every key

    Both scripts deduplicate by scanning the records in order with a set of
    the keys already seen. *)

Section KeepFirst.
Context {A K : Type} `{Countable K}.
Variable key : A → K.

Fixpoint keep_first (seen : gset K) (l : list A) : list A :=
  match l with
  | [] => []
  | x :: l' =>
      if decide (key x ∈ seen) then keep_first seen l'
      else x :: keep_first ({[key x]} ∪ seen) l'
  end.

End KeepFirst.

(** ** VAcompareNewIssue.py

    The two workbooks are given as found: the prior-period workbook as the
    rows pandas parses from its sheets (text, integers and missing values;
    integers are below 10^16 in magnitude, so that the float of an integer
    prints as the integer followed by ".0"), the current-period workbook as
    the sheets openpyxl loads. Fills, fonts and column widths are not
    modelled. *)

Module Compare.

(** [standardize(val)] *)
Definition standardize (val : value) : string :=
  if is_na val then "" else Text.upper (Text.strip (py_str val)).

Definition match_cols : list string := ["Plugin ID"; "Host"; "Protocol"; "Port"].

(** A fingerprint is the tuple of the four standardized match columns. *)
Abbreviation fingerprint := (string * string * string * string)%type.

(** *** The prior-period lookup set *)

(** A row of a prior-period frame: column name to value, with a key for
    every column of its frame; [row.get(c)] is [None] for a column the frame
    does not have. *)
Abbreviation series := (gmap string value).

Definition get (row : series) (c : string) : value := default VNone (row !! c).

Definition q3_fingerprint (row : series) : fingerprint :=
  (standardize (get row "Plugin ID"), standardize (get row "Host"),
   standardize (get row "Protocol"), standardize (get row "Port")).

(** pandas gives every column of a frame one type. A column that holds a
    text is of type object and keeps its values; a column that holds an
    integer in every row is of type int64; any other column (integers beside
    missing cells, or no cell at all in a frame that lacks the column) is of
    type float64, where the integers are floats. *)
Definition column (c : string) (df : list series) : list (option value) :=
  (λ row, row !! c) <$> df.

Definition is_text (o : option value) : bool :=
  match o with Some (VStr _) => true | _ => false end.

Definition is_int (o : option value) : bool :=
  match o with Some (VInt _) => true | _ => false end.

Definition object_column (c : string) (df : list series) : bool :=
  existsb is_text (column c df).

Definition float_column (c : string) (df : list series) : bool :=
  negb (object_column c df) && negb (forallb is_int (column c df)).

Definition columns (df : list series) : list string :=
  elements (⋃ (dom <$> df) : gset string).

(** [df.iterrows()] yields every row as a Series, which has one type: in a
    frame without an object column, one float64 column makes the numbers of
    every row floats. *)
Definition float_rows (df : list series) : bool :=
  negb (existsb (λ c, object_column c df) (columns df))
  && existsb (λ c, float_column c df) (columns df).

(** An integer that has become a float, kept as the text [str] returns for
    the float: that text is all the script reads of a prior-period value. *)
Definition as_float (v : value) : value :=
  match v with
  | VInt z => VStr (pretty z +:+ ".0")
  | _ => v
  end.

Definition astype (to_float : string → bool) (row : series) : series :=
  map_imap (λ c v, Some (if to_float c then as_float v else v)) row.

(** The rows [df_q3_all.iterrows()] yields, where
    [df_q3_all = pd.concat(q3_dict.values(), ignore_index=True)] and
    [q3_dict] holds the frames [pd.read_excel] returns: an integer is a float
    when its column is of type float64 in the frame of its sheet or in the
    concatenated frame, or when the rows of the concatenated frame are
    floats. *)
Definition df_q3_all (q3_dict : list (string * list series)) : list series :=
  let frames := snd <$> q3_dict in
  let df := concat frames in
  concat ((λ frame,
             astype (λ c, float_column c frame || float_column c df
                          || float_rows df) <$> frame) <$> frames).

Definition q3_add (acc : gset fingerprint) (row : series) : gset fingerprint :=
  let fp := q3_fingerprint row in
  if bool_decide (fp.1.1.1 = "") then acc else {[fp]} ∪ acc.

Definition q3_existing_issues (q3_dict : list (string * list series))
  : gset fingerprint :=
  foldl q3_add ∅ (df_q3_all q3_dict).

(** *** Worksheets *)

Abbreviation row := (list value).
Abbreviation worksheet := (list (list value)).

(** Rows and columns are numbered from 1; a cell that was never written
    reads [None]. *)
Definition row_cell (r : row) (column : nat) : value :=
  match column with
  | 0 => VNone
  | S c => default VNone (r !! c)
  end.

Definition ws_row (ws : worksheet) (row_idx : nat) : row :=
  match row_idx with
  | 0 => []
  | S i => default [] (ws !! i)
  end.

Definition cell (ws : worksheet) (row_idx column : nat) : value :=
  row_cell (ws_row ws row_idx) column.

Definition max_row (ws : worksheet) : nat := length ws.

(** [range(2, ws.max_row + 1)] *)
Definition data_rows (ws : worksheet) : list nat := seq 2 (max_row ws - 1).

Definition set_row_cell (r : row) (column : nat) (v : value) : row :=
  match column with
  | 0 => r
  | S c => <[c := v]> (r ++ replicate (S c - length r) VNone)
  end.

(** [ws.cell(row, column).value = v] *)
Definition write_cell (ws : worksheet) (row_idx column : nat) (v : value)
  : worksheet :=
  match row_idx with
  | 0 => ws
  | S i => alter (λ r, set_row_cell r column v) i ws
  end.

(** [ws.delete_rows(idx)] *)
Definition delete_rows (idx : nat) (ws : worksheet) : worksheet :=
  match idx with
  | 0 => ws
  | S i => delete i ws
  end.

Definition insert_row_cell (idx : nat) (r : row) : row :=
  match idx with
  | 0 => r
  | S i => take i r ++ VNone :: drop i r
  end.

(** [ws.insert_cols(idx)] *)
Definition insert_cols (idx : nat) (ws : worksheet) : worksheet :=
  insert_row_cell idx <$> ws.

(** *** Header row and column map *)

Definition header_name (i : nat) (v : value) : string :=
  if truthy v then Text.strip (py_str v) else "BlankCol_" +:+ pretty i.

(** [[str(cell.value).strip() if cell.value else f"BlankCol_{i}" ...]] *)
Definition headers (ws : worksheet) : list string :=
  imap header_name (ws_row ws 1).

(** [headers.index(col)]: position of the first occurrence. *)
Definition index (hs : list string) (col : string) : option nat :=
  fst <$> list_find (λ h, h = col) hs.

Record col_map : Type := ColMap {
  cPluginID : nat; cHost : nat; cProtocol : nat; cPort : nat;
  cName : nat; cRisk : nat
}.

(** [{col: headers.index(col) + 1 for col in match_cols + ['Name', 'Risk']}];
    [None] stands for the [ValueError] that makes the sheet be skipped. *)
Definition make_col_map (hs : list string) : option col_map :=
  p ← index hs "Plugin ID";
  h ← index hs "Host";
  pr ← index hs "Protocol";
  po ← index hs "Port";
  n ← index hs "Name";
  r ← index hs "Risk";
  Some (ColMap (p + 1) (h + 1) (pr + 1) (po + 1) (n + 1) (r + 1)).

(** [tuple(standardize(ws.cell(row_idx, col_map[c]).value) for c in match_cols)] *)
Definition row_fingerprint (cm : col_map) (r : row) : fingerprint :=
  (standardize (row_cell r (cPluginID cm)), standardize (row_cell r (cHost cm)),
   standardize (row_cell r (cProtocol cm)), standardize (row_cell r (cPort cm))).

Definition fingerprint_at (cm : col_map) (ws : worksheet) (row_idx : nat)
  : fingerprint :=
  row_fingerprint cm (ws_row ws row_idx).

(** *** Deduplication of a current-period sheet *)

(** One iteration of the scan: the state is [(seen_in_q4, rows_to_delete)]. *)
Definition dedup_step (cm : col_map) (ws : worksheet)
    (st : gset fingerprint * list nat) (row_idx : nat)
  : gset fingerprint * list nat :=
  let f_q4 := fingerprint_at cm ws row_idx in
  if bool_decide (f_q4 ∈ st.1)
     || bool_decide (cell ws row_idx (cPluginID cm) = VNone)
  then (st.1, st.2 ++ [row_idx])
  else ({[f_q4]} ∪ st.1, st.2).

Definition rows_to_delete (cm : col_map) (ws : worksheet) : list nat :=
  (foldl (dedup_step cm ws) (∅, []) (data_rows ws)).2.

(** [for row_idx in reversed(rows_to_delete): ws.delete_rows(row_idx)] *)
Definition dedup_sheet (cm : col_map) (ws : worksheet) : worksheet :=
  foldl (λ w row_idx, delete_rows row_idx w) ws (reverse (rows_to_delete cm ws)).

(** *** Classification *)

Record counts : Type := Counts {
  TOTAL : nat; CRITICAL : nat; HIGH : nat; MEDIUM : nat; LOW : nat
}.

Definition counts0 : counts := Counts 0 0 0 0 0.

(** [if risk_val in counts[category]: counts[category][risk_val] += 1];
    the keys of the dictionary are the five field names. *)
Definition bump (risk_val : string) (c : counts) : counts :=
  if String.eqb risk_val "TOTAL" then
    Counts (TOTAL c + 1) (CRITICAL c) (HIGH c) (MEDIUM c) (LOW c)
  else if String.eqb risk_val "CRITICAL" then
    Counts (TOTAL c) (CRITICAL c + 1) (HIGH c) (MEDIUM c) (LOW c)
  else if String.eqb risk_val "HIGH" then
    Counts (TOTAL c) (CRITICAL c) (HIGH c + 1) (MEDIUM c) (LOW c)
  else if String.eqb risk_val "MEDIUM" then
    Counts (TOTAL c) (CRITICAL c) (HIGH c) (MEDIUM c + 1) (LOW c)
  else if String.eqb risk_val "LOW" then
    Counts (TOTAL c) (CRITICAL c) (HIGH c) (MEDIUM c) (LOW c + 1)
  else c.

(** [counts[category]['TOTAL'] += 1] followed by the risk bucket. *)
Definition tally (risk_val : string) (c : counts) : counts :=
  bump risk_val (Counts (TOTAL c + 1) (CRITICAL c) (HIGH c) (MEDIUM c) (LOW c)).

Inductive category : Type := new | existing.

Global Instance category_eq_dec : EqDecision category.
Proof. solve_decision. Defined.

(** The dictionary [counts = {'new': {...}, 'existing': {...}}]. *)
Record sheet_counts : Type := SheetCounts {
  of_new : counts; of_existing : counts
}.

Definition status_text (c : category) : string :=
  match c with new => "New Issue" | existing => "Existing" end.

Definition categorize (q3 : gset fingerprint) (check_key : fingerprint)
  : category :=
  if bool_decide (check_key ∉ q3) then new else existing.

Definition count_in (c : category) (risk_val : string) (sc : sheet_counts)
  : sheet_counts :=
  match c with
  | new => SheetCounts (tally risk_val (of_new sc)) (of_existing sc)
  | existing => SheetCounts (of_new sc) (tally risk_val (of_existing sc))
  end.

(** One iteration of the status loop; the key and the risk are read before
    the status cell of the row is written. *)
Definition classify_step (cm : col_map) (q3 : gset fingerprint)
    (status_col_idx : nat) (st : worksheet * sheet_counts) (row_idx : nat)
  : worksheet * sheet_counts :=
  let ws := st.1 in
  let check_key := fingerprint_at cm ws row_idx in
  let risk_val := standardize (cell ws row_idx (cRisk cm)) in
  let c := categorize q3 check_key in
  (write_cell ws row_idx status_col_idx (VStr (status_text c)),
   count_in c risk_val st.2).

(** The body of the loop over the sheets, for a sheet whose header row has
    all six columns. *)
Definition process_sheet (cm : col_map) (q3 : gset fingerprint) (ws : worksheet)
  : worksheet * sheet_counts :=
  let ws1 := dedup_sheet cm ws in
  let status_col_idx := cName cm + 1 in
  let ws2 := insert_cols status_col_idx ws1 in
  let ws3 := write_cell ws2 1 status_col_idx (VStr "Status") in
  foldl (classify_step cm q3 status_col_idx) (ws3, SheetCounts counts0 counts0)
        (data_rows ws3).

(** *** The loop over the sheets of the current-period workbook *)

(** A workbook is the ordered list of its named sheets (names are unique).
    [summary_data] is a dictionary in insertion order. *)
Abbreviation workbook := (list (string * worksheet)).
Abbreviation summary_dict := (list (string * sheet_counts)).

(** [summary_data[sheet_name] = counts] *)
Fixpoint dict_set (d : summary_dict) (k : string) (v : sheet_counts)
  : summary_dict :=
  match d with
  | [] => [(k, v)]
  | (k', v') :: d' =>
      if String.eqb k' k then (k', v) :: d' else (k', v') :: dict_set d' k v
  end.

(** One iteration of [for sheet_name in wb.sheetnames]: a sheet without the
    six columns is left as it is and gets no entry. *)
Definition sheet_step (q3 : gset fingerprint)
    (st : workbook * summary_dict) (entry : string * worksheet)
  : workbook * summary_dict :=
  match make_col_map (headers entry.2) with
  | None => (st.1 ++ [entry], st.2)
  | Some cm =>
      let res := process_sheet cm q3 entry.2 in
      (st.1 ++ [(entry.1, res.1)], dict_set st.2 entry.1 res.2)
  end.

Definition process_sheets (q3 : gset fingerprint) (wb : workbook)
  : workbook * summary_dict :=
  foldl (sheet_step q3) ([], []) wb.

(** *** The RecurrenceSummary sheet *)

(** A cell of the summary sheet holds a number or a text; [val or "-"]
    writes the text "-" for zero. *)
Inductive scell : Type := SNum (n : nat) | SText (s : string).

Definition or_dash (n : nat) : scell := if n =? 0 then SText "-" else SNum n.

(** The number a summary cell stands for ("-" and blank stand for zero). *)
Definition num (c : option scell) : nat :=
  match c with Some (SNum n) => n | _ => 0 end.

(** The summary sheet is new, so it has no merged ranges and [safe_write]
    stores the value at (row, col); the header style is not modelled. *)
Abbreviation summary_sheet := (gmap (nat * nat) scell).

Definition safe_write (ws : summary_sheet) (row col : nat) (v : scell)
  : summary_sheet := <[(row, col) := v]> ws.

Definition risks : list string := ["CRITICAL"; "HIGH"; "MEDIUM"; "LOW"].

(** [data[...][r]] for a key [r] of the counts dictionary. *)
Definition counts_get (c : counts) (r : string) : nat :=
  if String.eqb r "TOTAL" then TOTAL c
  else if String.eqb r "CRITICAL" then CRITICAL c
  else if String.eqb r "HIGH" then HIGH c
  else if String.eqb r "MEDIUM" then MEDIUM c
  else if String.eqb r "LOW" then LOW c
  else 0.

Record g_total : Type := GTotal {
  g_new : nat; g_ext : nat; g_new_r : list nat; g_ext_r : list nat
}.

Definition enumerate {A} (l : list A) : list (nat * A) := imap pair l.

(** [l[i] += n] *)
Definition add_at (l : list nat) (i n : nat) : list nat :=
  <[i := default 0 (l !! i) + n]> l.

(** The accumulation done in the first table's loop. *)
Definition g_add (g : g_total) (data : sheet_counts) : g_total :=
  let g1 := GTotal (g_new g + TOTAL (of_new data))
                   (g_ext g + TOTAL (of_existing data))
                   (g_new_r g) (g_ext_r g) in
  foldl (λ g ir,
           GTotal (g_new g) (g_ext g)
                  (add_at (g_new_r g) ir.1 (counts_get (of_new data) ir.2))
                  (add_at (g_ext_r g) ir.1 (counts_get (of_existing data) ir.2)))
        g1 (enumerate risks).

(** State of the three table loops: sheet, [row_ptr], [g_total]. *)
Definition table1_step (st : summary_sheet * nat * g_total)
    (item : string * sheet_counts) : summary_sheet * nat * g_total :=
  let '(ws, row_ptr, g) := st in
  let '(domain, data) := item in
  let ws := safe_write ws row_ptr 2 (SText domain) in
  let ws := safe_write ws row_ptr 3 (or_dash (TOTAL (of_new data))) in
  let ws := safe_write ws row_ptr 4 (or_dash (TOTAL (of_existing data))) in
  let ws := safe_write ws row_ptr 5
              (or_dash (TOTAL (of_new data) + TOTAL (of_existing data))) in
  (ws, row_ptr + 1, g_add g data).

(** A row of the second or third table: the four risk cells and the total
    of [sel data]. *)
Definition risk_row_step (sel : sheet_counts → counts)
    (st : summary_sheet * nat) (item : string * sheet_counts)
  : summary_sheet * nat :=
  let '(ws, row_ptr) := st in
  let '(domain, data) := item in
  let ws := safe_write ws row_ptr 2 (SText domain) in
  let ws := foldl (λ w ir, safe_write w row_ptr (3 + ir.1)
                             (or_dash (counts_get (sel data) ir.2)))
                  ws (enumerate risks) in
  let ws := safe_write ws row_ptr 7 (or_dash (TOTAL (sel data))) in
  (ws, row_ptr + 1).

Definition write_risk_header (title : string) (ws : summary_sheet) (row_ptr : nat)
  : summary_sheet :=
  let ws := safe_write ws row_ptr 2 (SText title) in
  let ws := safe_write ws (row_ptr + 1) 2 (SText "Domain") in
  foldl (λ w ir, safe_write w (row_ptr + 1) (3 + ir.1) (SText ir.2))
        ws (enumerate (risks ++ ["Total"])).

Definition write_risk_total (totals : list nat) (total : nat)
    (ws : summary_sheet) (row_ptr : nat) : summary_sheet :=
  let ws := safe_write ws row_ptr 2 (SText "Total") in
  let ws := foldl (λ w i, safe_write w row_ptr (3 + i)
                            (or_dash (default 0 (totals !! i))))
                  ws (seq 0 4) in
  safe_write ws row_ptr 7 (or_dash total).

(** Step 3 of [process_new_issues_with_risk]: the content of the
    RecurrenceSummary sheet. *)
Definition recurrence_summary (summary_data : summary_dict) : summary_sheet :=
  let g0 := GTotal 0 0 (replicate 4 0) (replicate 4 0) in
  (* table 1 *)
  let row_ptr := 2 in
  let ws := safe_write ∅ row_ptr 2 (SText "New Vulnerability Issue Summary") in
  let row_ptr := row_ptr + 1 in
  let ws := safe_write ws row_ptr 2 (SText "Domain") in
  let ws := safe_write ws row_ptr 3 (SText "New Issue") in
  let ws := safe_write ws row_ptr 4 (SText "Existing Issue") in
  let ws := safe_write ws row_ptr 5 (SText "Total Issue") in
  let row_ptr := row_ptr + 1 in
  let '(ws, row_ptr, g) := foldl table1_step (ws, row_ptr, g0) summary_data in
  let ws := safe_write ws row_ptr 2 (SText "Total") in
  let ws := foldl (λ w cv, safe_write w row_ptr cv.1 (or_dash cv.2)) ws
                  [(3, g_new g); (4, g_ext g); (5, g_new g + g_ext g)] in
  (* table 2 *)
  let row_ptr := row_ptr + 4 in
  let ws := write_risk_header "[temp] new issues risk summary" ws row_ptr in
  let row_ptr := row_ptr + 1 in
  let row_ptr := row_ptr + 1 in
  let '(ws, row_ptr) := foldl (risk_row_step of_new) (ws, row_ptr) summary_data in
  let ws := write_risk_total (g_new_r g) (g_new g) ws row_ptr in
  (* table 3 *)
  let row_ptr := row_ptr + 4 in
  let ws := write_risk_header "[temp] existing issues risk summary" ws row_ptr in
  let row_ptr := row_ptr + 1 in
  let row_ptr := row_ptr + 1 in
  let '(ws, row_ptr) :=
    foldl (risk_row_step of_existing) (ws, row_ptr) summary_data in
  write_risk_total (g_ext_r g) (g_ext g) ws row_ptr.

(** The whole run on the two workbooks that were found: the processed
    sheets and the content of the new leading sheet. *)
Definition process_new_issues_with_risk
    (q3_dict : list (string * list series)) (wb : workbook)
  : workbook * summary_sheet :=
  let res := process_sheets (q3_existing_issues q3_dict) wb in
  let sheets := filter (λ e, e.1 ≠ "RecurrenceSummary") res.1 in
  (sheets, recurrence_summary res.2).

End Compare.

(** ** Stable sorting

    pandas sorts data frames and group keys with a stable sort; insertion
    sort is the stable sort used for it here. *)

Section InsertionSort.
Context {A : Type}.
Variable leb : A → A → bool.

Fixpoint sort_insert (x : A) (l : list A) : list A :=
  match l with
  | [] => [x]
  | y :: l' => if leb x y then x :: l else y :: sort_insert x l'
  end.

Definition stable_sort (l : list A) : list A := foldr sort_insert [] l.

End InsertionSort.

(** Lexicographic combination of two comparisons. *)
Definition lex (c1 c2 : comparison) : comparison :=
  match c1 with Eq => c2 | _ => c1 end.

Definition not_gt (c : comparison) : bool :=
  match c with Gt => false | _ => true end.

(** ** SummaryVAfromCSV.py

    The input files are given with what reading them yields. Every frame has
    the columns Name, Risk, Host and Port, the text columns Name, Risk and
    Host hold strings or missing values, and the output file can be written.
    Outside these conditions the script raises after the loop over the files
    ([KeyError] for a column that no frame has, [OSError] for an output file
    that cannot be written) and ends in the handler of [except Exception];
    such runs are not modelled, and the statements about [main] hold for the
    inputs that meet the conditions. Of the printed text, only the messages
    about files, errors and the result are recorded. *)

Module Summary.

(** A row of the combined frame. The text columns hold a string or are
    missing (NaN, [None] here); [Port] is any cell value. *)
Record finding : Type := Finding {
  Name : option string;
  Risk : option string;
  Host : option string;
  Port : value;
  SourceFile : string
}.

Global Instance finding_eq_dec : EqDecision finding.
Proof. solve_decision. Defined.

Inductive file_state : Type :=
| NotFound                          (* [os.path.exists] is false *)
| Unreadable                        (* [pd.read_csv] raises *)
| Csv (df_part : list finding).     (* [pd.read_csv] returns a frame *)

Global Instance file_state_eq_dec : EqDecision file_state.
Proof. solve_decision. Defined.

Inductive message : Type :=
| WarningNotFound (file_name : string)
| ErrorNoInput
| NoDataRemaining
| UnexpectedError
| Saved.

(** [df_part['SourceFile'] = file_name] *)
Definition tag (file_name : string) (r : finding) : finding :=
  Finding (Name r) (Risk r) (Host r) (Port r) file_name.

(** The loop over [INPUT_FILES]; [None] is an exception leaving the loop. *)
Fixpoint read_loop (files : list (string * file_state))
    (all_dfs : list (list finding)) (log : list message)
  : option (list (list finding)) * list message :=
  match files with
  | [] => (Some all_dfs, log)
  | (file_name, st) :: rest =>
      match st with
      | NotFound => read_loop rest all_dfs (log ++ [WarningNotFound file_name])
      | Unreadable => (None, log)
      | Csv df_part => read_loop rest (all_dfs ++ [tag file_name <$> df_part]) log
      end
  end.

(** [df.drop_duplicates(subset=['Name', 'Host', 'Port'], keep='first')]:
    the raw values are compared. *)
Definition dedup_key (r : finding) : option string * option string * value :=
  (Name r, Host r, Port r).

Definition drop_duplicates (df : list finding) : list finding :=
  keep_first dedup_key ∅ df.

Definition target_risks : list string := ["Critical"; "High"; "Medium"].

(** [df['Risk'].isin(target_risks)] *)
Definition isin (l : list string) (v : option string) : bool :=
  match v with
  | Some s => bool_decide (s ∈ l)
  | None => false
  end.

(** *** Grouping *)

Abbreviation key2 := (string * string)%type.
Abbreviation key3 := (string * string * string)%type.

Definition key2_compare (a b : key2) : comparison :=
  lex (String.compare a.1 b.1) (String.compare a.2 b.2).

Definition key3_compare (a b : key3) : comparison :=
  lex (key2_compare a.1 b.1) (String.compare a.2 b.2).

(** Group keys; a row with a missing key value belongs to no group. *)
Definition name_risk (r : finding) : option key2 :=
  n ← Name r; k ← Risk r; Some (n, k).

Definition name_risk_host (r : finding) : option key3 :=
  nk ← name_risk r; h ← Host r; Some (nk, h).

(** [df.groupby(by).size()]: one row per distinct key, in ascending key
    order, with the number of rows that have the key. *)
Definition groupby_size {K} `{EqDecision K} (cmp : K → K → comparison)
    (by_ : finding → option K) (df : list finding) : list (K * nat) :=
  let keys := omap by_ df in
  (λ k, (k, length (filter (λ k', k' = k) keys)))
    <$> stable_sort (λ a b, not_gt (cmp a b)) (remove_dups keys).

(** *** Join and sort *)

Record report_row : Type := ReportRow {
  r_Name : string;
  r_Risk : string;
  r_Total_Count : option nat;       (* [None]: null after the left join *)
  r_Host : string;
  r_Per_Host_Count : nat
}.

Global Instance report_row_eq_dec : EqDecision report_row.
Proof. solve_decision. Defined.

(** [pd.merge(detail_df, summary_df, on=['Name', 'Risk'], how='left')] *)
Definition merge_left (detail_df : list (key3 * nat)) (summary_df : list (key2 * nat))
  : list report_row :=
  d ← detail_df;
  match filter (λ s, s.1 = d.1.1) summary_df with
  | [] => [ReportRow d.1.1.1 d.1.1.2 None d.1.2 d.2]
  | ms => (λ s, ReportRow d.1.1.1 d.1.1.2 (Some s.2) d.1.2 d.2) <$> ms
  end.

Definition risk_order : list string := ["Critical"; "High"; "Medium"].

(** The code of a value in the ordered categorical type; [None] for a
    value that is not a category. *)
Definition risk_code (r : string) : option nat :=
  fst <$> list_find (λ c, c = r) risk_order.

(** Missing values sort last. *)
Definition compare_na_last {A} (cmp : A → A → comparison) (a b : option A)
  : comparison :=
  match a, b with
  | Some x, Some y => cmp x y
  | Some _, None => Lt
  | None, Some _ => Gt
  | None, None => Eq
  end.

(** [by=['Risk', 'Total_Count', 'Name'], ascending=[True, False, True]] *)
Definition report_compare (a b : report_row) : comparison :=
  lex (compare_na_last Nat.compare (risk_code (r_Risk a)) (risk_code (r_Risk b)))
      (lex (compare_na_last (λ x y, Nat.compare y x)
                            (r_Total_Count a) (r_Total_Count b))
           (String.compare (r_Name a) (r_Name b))).

Definition report_leb (a b : report_row) : bool := not_gt (report_compare a b).

Definition sort_values (df : list report_row) : list report_row :=
  stable_sort report_leb df.

(** *** The script *)

Record table : Type := Table { columns : list string; rows : list report_row }.

Definition output_columns : list string :=
  ["Name"; "Risk"; "Total_Count"; "Host"; "Per_Host_Count"].

(** Steps 3a to 3c and the sort, on the filtered frame. *)
Definition report (filtered_df : list finding) : list report_row :=
  let detail_df := groupby_size key3_compare name_risk_host filtered_df in
  let summary_df := groupby_size key2_compare name_risk filtered_df in
  sort_values (merge_left detail_df summary_df).

(** How a run ends: [sys.exit(code)], the handler of [except Exception], or
    the end of the script; with the file written to [OUTPUT_FILE], if any. *)
Inductive ending : Type :=
| SysExit (code : nat)
| Handled
| Finished.

Record outcome : Type := Outcome {
  ended : ending;
  output_file : option table;
  printed : list message
}.

Definition main (files : list (string * file_state)) : outcome :=
  match read_loop files [] [] with
  | (None, log) => Outcome Handled None (log ++ [UnexpectedError])
  | (Some [], log) => Outcome (SysExit 1) None (log ++ [ErrorNoInput])
  | (Some all_dfs, log) =>
      let df := drop_duplicates (concat all_dfs) in
      let filtered_df := filter (λ r, isin target_risks (Risk r)) df in
      match filtered_df with
      | [] => Outcome (SysExit 0) (Some (Table output_columns []))
                      (log ++ [NoDataRemaining])
      | _ => Outcome Finished (Some (Table output_columns (report filtered_df)))
                     (log ++ [Saved])
      end
  end.

End Summary.

(** ** Reference definitions

    Definitions the statements below compare the scripts with. *)

Section CompareReference.
Import Compare.

(** The Plugin ID cell of a row holds a value. *)
Definition plugin_present (cm : col_map) (r : row) : Prop :=
  row_cell r (cPluginID cm) ≠ VNone.

(** The rows the scan of a sheet keeps when it starts with the set [seen]. *)
Definition survivors (cm : col_map) (seen : gset fingerprint) (data : list row)
  : list row :=
  keep_first (row_fingerprint cm) seen (filter (plugin_present cm) data).

(** The row numbers the scan marks when it starts at row [idx] with [seen]. *)
Fixpoint scan (cm : col_map) (seen : gset fingerprint) (idx : nat)
    (rows : list row) : list nat :=
  match rows with
  | [] => []
  | r :: rest =>
      if bool_decide (row_fingerprint cm r ∈ seen)
         || bool_decide (row_cell r (cPluginID cm) = VNone)
      then idx :: scan cm seen (S idx) rest
      else scan cm ({[row_fingerprint cm r]} ∪ seen) (S idx) rest
  end.

(** Row [i] of [data] has a Plugin ID and no earlier row that has one carries
    the same fingerprint. *)
Definition is_first_present (cm : col_map) (data : list row) (i : nat) (r : row)
  : bool :=
  bool_decide (plugin_present cm r)
  && forallb (λ r', negb (bool_decide (plugin_present cm r')
                          && bool_decide (row_fingerprint cm r' = row_fingerprint cm r)))
             (take i data).

Definition first_present_rows (cm : col_map) (data : list row) : list row :=
  (filter (λ ir, is_first_present cm data ir.1 ir.2) (imap pair data)).*2.

(** The reading of the deduplication rule in which a row survives when it is
    the first row of the sheet with its fingerprint and its Plugin ID is not
    [missing]. *)
Definition is_first_overall (missing : value → bool) (cm : col_map)
    (data : list row) (i : nat) (r : row) : bool :=
  negb (missing (row_cell r (cPluginID cm)))
  && forallb (λ r', negb (bool_decide (row_fingerprint cm r' = row_fingerprint cm r)))
             (take i data).

Definition first_overall_rows (missing : value → bool) (cm : col_map)
    (data : list row) : list row :=
  (filter (λ ir, is_first_overall missing cm data ir.1 ir.2) (imap pair data)).*2.

(** Two readings of "empty/missing": the cell is [None], or its standardized
    text is empty. *)
Definition missing_cell (v : value) : bool := bool_decide (v = VNone).
Definition blank_cell (v : value) : bool := bool_decide (standardize v = "").

(** What the status loop does with a row of the sheet after the insertion:
    the label it writes and the counts it updates. All reads use the column
    numbers of [cm]. *)
Definition mark_row (cm : col_map) (q3 : gset fingerprint) (k : nat) (r : row)
  : row :=
  set_row_cell r k (VStr (status_text (categorize q3 (row_fingerprint cm r)))).

Definition count_row (cm : col_map) (q3 : gset fingerprint)
    (sc : sheet_counts) (r : row) : sheet_counts :=
  count_in (categorize q3 (row_fingerprint cm r))
           (standardize (row_cell r (cRisk cm))) sc.

(** The intended result for a row [r] of the deduplicated sheet: the Status
    cell goes after Name, and the label and the risk come from the columns of
    [r] that [cm] names. *)
Definition label_row (cm : col_map) (q3 : gset fingerprint) (r : row) : row :=
  set_row_cell (insert_row_cell (cName cm + 1) r) (cName cm + 1)
               (VStr (status_text (categorize q3 (row_fingerprint cm r)))).

Definition intended_counts (cm : col_map) (q3 : gset fingerprint)
    (rows : list row) : sheet_counts :=
  foldl (count_row cm q3) (SheetCounts counts0 counts0) rows.

(** The columns the status loop reads, with their numbers in [cm]. *)
Definition read_cols (cm : col_map) : list (string * nat) :=
  [("Plugin ID", cPluginID cm); ("Host", cHost cm); ("Protocol", cProtocol cm);
   ("Port", cPort cm); ("Risk", cRisk cm)].



(** *** Example workbooks *)

(** A prior-period workbook with one record. *)
Definition q3_example : list (string * list series) :=
  [("Servers",
    [ {[ "Plugin ID" := VInt 10; "Host" := VStr "server1";
         "Protocol" := VStr "TCP"; "Port" := VInt 80 ]} ])].

(** A current-period sheet in the column order of a scanner export: every
    column that is read stands left of Name. *)
Definition sheet_export_order : worksheet :=
  [ [VStr "Plugin ID"; VStr "Risk"; VStr "Host"; VStr "Protocol"; VStr "Port";
     VStr "Name"];
    [VInt 10; VStr "High"; VStr " Server1 "; VStr "tcp"; VInt 80; VStr "x"];
    [VStr "10"; VStr "High"; VStr "SERVER1"; VStr "TCP"; VStr "80 "; VStr "x"];
    [VInt 11; VStr "Critical"; VStr "server1"; VStr "tcp"; VInt 443; VStr "y"] ].

(** A current-period sheet with the same columns, Name first. *)
Definition sheet_name_first : worksheet :=
  [ [VStr "Name"; VStr "Plugin ID"; VStr "Host"; VStr "Protocol"; VStr "Port";
     VStr "Risk"];
    [VStr "x"; VInt 10; VStr "Server1"; VStr "tcp"; VInt 80; VStr "High"] ].

(** A sheet with a row without Plugin ID followed by a row whose Plugin ID
    cell holds a blank. *)
Definition sheet_blank_plugin : worksheet :=
  [ [VStr "Plugin ID"; VStr "Risk"; VStr "Host"; VStr "Protocol"; VStr "Port";
     VStr "Name"];
    [VNone; VStr "High"; VStr "h1"; VStr "tcp"; VInt 80; VStr "x"];
    [VStr " "; VStr "High"; VStr "h1"; VStr "tcp"; VInt 80; VStr "x"] ].

(** *** The summary sheet *)

(** Writing the cells [(col, value)] of one row, and a loop that writes one
    row per item and advances [row_ptr]. *)
Definition write_cells (ws : summary_sheet) (row_ptr : nat)
    (cells : list (nat * scell)) : summary_sheet :=
  foldl (λ w cv, safe_write w row_ptr cv.1 cv.2) ws cells.

Definition write_rows {A} (cells : A → list (nat * scell))
    (ws : summary_sheet) (row_ptr : nat) (l : list A) : summary_sheet * nat :=
  foldl (λ st x, (write_cells st.1 st.2 (cells x), st.2 + 1)) (ws, row_ptr) l.

(** The value the writes [cells] leave in column [c], if any. *)
Definition cell_of (cells : list (nat * scell)) (c : nat) : option scell :=
  foldl (λ acc cv, if decide (cv.1 = c) then Some cv.2 else acc) None cells.

(** The cells of a row of the first table, and of the second or third. *)
Definition table1_cells (item : string * sheet_counts) : list (nat * scell) :=
  [(2, SText item.1);
   (3, or_dash (TOTAL (of_new item.2)));
   (4, or_dash (TOTAL (of_existing item.2)));
   (5, or_dash (TOTAL (of_new item.2) + TOTAL (of_existing item.2)))].

Definition risk_cells (sel : sheet_counts → counts)
    (item : string * sheet_counts) : list (nat * scell) :=
  [(2, SText item.1);
   (3, or_dash (CRITICAL (sel item.2)));
   (4, or_dash (HIGH (sel item.2)));
   (5, or_dash (MEDIUM (sel item.2)));
   (6, or_dash (LOW (sel item.2)));
   (7, or_dash (TOTAL (sel item.2)))].

(** Sum of the numbers in column [c] of the [n] rows from row [top]. *)
Definition column_sum (ws : summary_sheet) (top c n : nat) : nat :=
  sum_list_with (λ i, num (ws !! (top + i, c))) (seq 0 n).

End CompareReference.

Section SummaryReference.
Import Summary.

(** The frames of the files that are read, tagged with their file names, and
    the warnings for the files that are not found, both in file order. *)
Definition frames (files : list (string * file_state)) : list (list finding) :=
  omap (λ e, match e.2 with
             | Csv df_part => Some (tag e.1 <$> df_part)
             | _ => None
             end) files.

Definition warnings (files : list (string * file_state)) : list message :=
  (λ e, WarningNotFound e.1) <$> filter (λ e, e.2 = NotFound) files.

(** The rows that pass the risk filter after deduplication. *)
Definition filtered (all_dfs : list (list finding)) : list finding :=
  filter (λ r, isin target_risks (Risk r)) (drop_duplicates (concat all_dfs)).

(** Place of a risk in the precedence Critical, High, Medium. *)
Definition risk_rank (r : string) : nat :=
  if String.eqb r "Critical" then 0
  else if String.eqb r "High" then 1
  else if String.eqb r "Medium" then 2
  else 3.

Definition total_of (r : report_row) : nat := default 0 (r_Total_Count r).

(** The order of the report: risk by precedence, then the larger total
    first, then the name in ascending order. *)
Definition report_before (a b : report_row) : Prop :=
  risk_rank (r_Risk a) < risk_rank (r_Risk b)
  ∨ (risk_rank (r_Risk a) = risk_rank (r_Risk b)
     ∧ (total_of b < total_of a
        ∨ (total_of a = total_of b
           ∧ String.leb (r_Name a) (r_Name b) = true))).

(** Sum of [Per_Host_Count] over the rows of a report with a given name and
    risk. *)
Definition per_host_sum (name risk : string) (rs : list report_row) : nat :=
  sum_list_with r_Per_Host_Count
                (filter (λ r, r_Name r = name ∧ r_Risk r = risk) rs).

End SummaryReference.

(** ** [safe_write] on a sheet with merged ranges

    The summary sheet of a run is new and has no merged ranges. For a sheet
    that has some, openpyxl keeps a [MergedCell], whose value cannot be
    assigned, at every cell of a merged range except the top-left cell of
    the range. Rows and columns are numbered from 1, and [ws.cell] raises
    for a number below 1. The style is not modelled. *)

Module Merged.

(** A merged range, as openpyxl's [CellRange]. *)
Record cell_range : Type := CellRange {
  min_row : nat; min_col : nat; max_row : nat; max_col : nat
}.

Global Instance cell_range_eq_dec : EqDecision cell_range.
Proof. solve_decision. Defined.

(** [cell.coordinate in merged_range] *)
Definition contains (rg : cell_range) (row col : nat) : bool :=
  (min_row rg <=? row) && (row <=? max_row rg)
  && (min_col rg <=? col) && (col <=? max_col rg).

(** A sheet: the values of its cells and [ws.merged_cells.ranges]. *)
Record sheet : Type := Sheet {
  cells : gmap (nat * nat) Compare.scell;
  merged_cells : list cell_range
}.

(** A [MergedCell] stands at every cell of a merged range except its
    top-left cell. *)
Definition is_merged_cell (ws : sheet) (row col : nat) : bool :=
  existsb (λ rg, contains rg row col
                 && negb ((row =? min_row rg) && (col =? min_col rg)))
          (merged_cells ws).

(** [ws.cell(row=row, column=col)] with [isinstance(cell, MergedCell)]:
    [None] stands for the [ValueError] openpyxl raises for a row or column
    below 1. *)
Definition ws_cell (ws : sheet) (row col : nat) : option bool :=
  if (row <? 1) || (col <? 1) then None else Some (is_merged_cell ws row col).

(** [cell.coordinate] names the column by letters, which openpyxl has for
    the columns 1 to 18278 only. *)
Definition max_column : nat := 18 * 1000 + 278.

(** The cell whose value [safe_write] assigns: the cell itself, or for a
    [MergedCell] the top-left cell of the first range that contains it.
    [None] stands for an exception: the [ValueError] of [ws.cell] or of
    [cell.coordinate], or the [AttributeError] of assigning to a
    [MergedCell]. *)
Definition target (ws : sheet) (row col : nat) : option (nat * nat) :=
  merged ← ws_cell ws row col;
  if merged : bool then
    if max_column <? col then None
    else
      match find (λ rg, contains rg row col) (merged_cells ws) with
      | Some merged_range =>
          merged' ← ws_cell ws (min_row merged_range) (min_col merged_range);
          if merged' : bool then None
          else Some (min_row merged_range, min_col merged_range)
      | None => None
      end
  else Some (row, col).

(** [safe_write(ws, row, col, value)] *)
Definition safe_write (ws : sheet) (row col : nat) (value : Compare.scell)
  : option sheet :=
  rc ← target ws row col;
  Some (Sheet (<[rc := value]> (cells ws)) (merged_cells ws)).

End Merged.

(** ** Further reference definitions *)

Section MoreReference.
Import Compare.

(** A string that is empty or starts with a character that is not white
    space. *)
Definition starts_clean (s : string) : Prop :=
  match s with
  | EmptyString => True
  | String c _ => Text.is_space c = false
  end.



(** [match_cols + ['Name', 'Risk']] *)
Definition required_cols : list string := match_cols ++ ["Name"; "Risk"].

(** The header cell [v] carries the column name [name]. *)
Definition names_column (name : string) (v : value) : Prop :=
  truthy v = true ∧ Text.strip (py_str v) = name.

(** The six column numbers of a column map with their names. *)
Definition named_cols (cm : col_map) : list (string * nat) :=
  ("Name", cName cm) :: read_cols cm.

(** What the loop over the sheets leaves of one sheet, and the entry it adds
    to [summary_data] for it, if any. *)
Definition processed_sheet (q3 : gset fingerprint) (e : string * worksheet)
  : string * worksheet :=
  match make_col_map (headers e.2) with
  | None => e
  | Some cm => (e.1, (process_sheet cm q3 e.2).1)
  end.

Definition sheet_entry (q3 : gset fingerprint) (e : string * worksheet)
  : option (string * sheet_counts) :=
  cm ← make_col_map (headers e.2); Some (e.1, (process_sheet cm q3 e.2).2).

(** A workbook with two sheets, the second without a Risk column. *)
Definition workbook_example : workbook :=
  [("Servers", sheet_export_order);
   ("Notes", [[VStr "Plugin ID"; VStr "Host"]; [VInt 1; VStr "h"]])].

(** The counts of one category. *)
Definition select (c : category) (sc : sheet_counts) : counts :=
  match c with new => of_new sc | existing => of_existing sc end.

(** The category and the risk the status loop reads for a row. *)
Definition read_category (cm : col_map) (q3 : gset fingerprint) (r : row)
  : category :=
  categorize q3 (row_fingerprint cm r).

Definition read_risk (cm : col_map) (r : row) : string :=
  standardize (row_cell r (cRisk cm)).

(** The rows the status loop reads: the data rows of the deduplicated sheet
    after the insertion of the Status column. *)
Definition rows_read (cm : col_map) (ws : worksheet) : list row :=
  drop 1 (insert_cols (cName cm + 1) (dedup_sheet cm ws)).

(** Number of rows read with category [c], and of those read with risk [rv]
    as well. *)
Definition in_category (cm : col_map) (q3 : gset fingerprint) (c : category)
    (rows : list row) : nat :=
  length (filter (λ r, read_category cm q3 r = c) rows).

Definition with_risk (cm : col_map) (q3 : gset fingerprint) (c : category)
    (rv : string) (rows : list row) : nat :=
  length (filter (λ r, read_category cm q3 r = c ∧ read_risk cm r = rv) rows).

(** Number of data rows of a sheet whose cell in column [k] holds the text
    [s]. *)
Definition labelled (s : string) (k : nat) (ws : worksheet) : nat :=
  length (filter (λ r, row_cell r k = VStr s) (drop 1 ws)).

(** Every cell of the summary sheet that holds a value lies where [P]
    allows. *)
Definition cells_within (P : nat → nat → Prop) (ws : summary_sheet) : Prop :=
  ∀ r c, is_Some (ws !! (r, c)) → P r c.

(** The cells of the three tables of a summary of [n] domains: rows 2 to
    n + 4 in columns 2 to 5, rows n + 8 to 2n + 10 and rows 2n + 14 to
    3n + 16 in columns 2 to 7. *)
Definition in_tables (n r c : nat) : Prop :=
  (2 ≤ r ≤ n + 4 ∧ 2 ≤ c ≤ 5)
  ∨ ((n + 8 ≤ r ≤ 2 * n + 10 ∨ 2 * n + 14 ≤ r ≤ 3 * n + 16) ∧ 2 ≤ c ≤ 7).

(** The counts of a category add up: the four risk counts together do not
    exceed the total. *)
Definition risks_within_total (c : counts) : Prop :=
  CRITICAL c + HIGH c + MEDIUM c + LOW c ≤ TOTAL c.

End MoreReference.

Section MoreSummaryReference.
Import Summary.

(** The group a row of the report stands for. *)
Definition row_key (row : report_row) : key3 :=
  (r_Name row, r_Risk row, r_Host row).

(** The findings of a frame that belong to a group. *)
Definition group_of (k : key3) (df : list finding) : list finding :=
  filter (λ r, name_risk_host r = Some k) df.

(** The input list with every file name replaced by [f] of it. *)
Definition rename_files (f : string → string) (files : list (string * file_state))
  : list (string * file_state) :=
  (λ e, (f e.1, e.2)) <$> files.

(** A finding without its SourceFile tag. *)
Definition untag (r : finding) : finding := tag "" r.

(** Of two rows with the same name and risk, the first has the smaller
    host. *)
Definition hosts_ascend (a b : report_row) : Prop :=
  r_Name a = r_Name b → r_Risk a = r_Risk b →
  String.compare (r_Host a) (r_Host b) = Lt.

End MoreSummaryReference.

Section MoreMergedReference.
Import Merged.




End MoreMergedReference.

(** * Properties *)

(** ** Lemmas on text *)

Section TextFacts.
Import Text.







Lemma case_variant_space a b : case_variant a b → is_space a = is_space b.
Proof.
  unfold case_variant, is_space, is_lower.
  intros [->|[[H1 H2]|[H1 H2]]]; [done| |];
    apply andb_true_iff in H1 as [H1 H3];
    apply Nat.leb_le in H1, H3;
    repeat match goal with
           | |- context [?x <=? ?y] => destruct (Nat.leb_spec x y)
           end; simpl; try done; lia.
Qed.







End TextFacts.

(** ** Keeping first occurrences *)

Section KeepFirstFacts.
Context {A K : Type} `{Countable K}.
Variable key : A → K.

Lemma keep_first_idem seen l :
  keep_first key seen (keep_first key seen l) = keep_first key seen l.
Proof.
  revert seen. induction l as [|x l IH]; intros seen; simpl; [done|].
  destruct (decide (key x ∈ seen)) as [Hin|Hnin]; [by apply IH|].
  simpl. rewrite decide_False by done. by rewrite IH.
Qed.

Lemma keep_first_Forall (P : A → Prop) seen l :
  Forall P l → Forall P (keep_first key seen l).
Proof.
  intros Hl. revert seen. induction Hl as [|x l Hx Hl IH]; intros seen; simpl.
  - constructor.
  - destruct (decide (key x ∈ seen)); [apply IH|]. constructor; [done|apply IH].
Qed.

Lemma keep_first_sublist seen l : sublist (keep_first key seen l) l.
Proof.
  revert seen. induction l as [|x l IH]; intros seen; simpl; [constructor|].
  destruct (decide (key x ∈ seen)).
  - apply sublist_cons, IH.
  - apply sublist_skip, IH.
Qed.

Lemma keep_first_not_seen seen l x :
  x ∈ keep_first key seen l → key x ∉ seen.
Proof.
  revert seen. induction l as [|y l IH]; intros seen Hx; cbn in Hx.
  - by apply elem_of_nil in Hx.
  - destruct (decide (key y ∈ seen)) as [Hin|Hnin]; [by apply IH|].
    apply elem_of_cons in Hx as [->|Hx]; [done|].
    apply IH in Hx. intros Hs. apply Hx. by apply elem_of_union_r.
Qed.

Lemma keep_first_NoDup seen l : NoDup (key <$> keep_first key seen l).
Proof.
  revert seen. induction l as [|y l IH]; intros seen; cbn; [constructor|].
  destruct (decide (key y ∈ seen)) as [Hin|Hnin]; [apply IH|].
  cbn. constructor; [|apply IH].
  intros (x & Hk & Hx)%list_elem_of_fmap. apply keep_first_not_seen in Hx.
  apply Hx. rewrite <- Hk. by apply elem_of_union_l, elem_of_singleton.
Qed.

Lemma keep_first_covers seen l x :
  x ∈ l → key x ∈ seen ∨ ∃ y, y ∈ keep_first key seen l ∧ key y = key x.
Proof.
  revert seen. induction l as [|y l IH]; intros seen Hx.
  - by apply elem_of_nil in Hx.
  - cbn. apply elem_of_cons in Hx as [->|Hx].
    + destruct (decide (key y ∈ seen)); [by left|].
      right. exists y. split; [by left|done].
    + destruct (decide (key y ∈ seen)); [by apply IH|].
      destruct (IH ({[key y]} ∪ seen) Hx) as [Hs|(z & Hz & Hk)].
      * apply elem_of_union in Hs as [Hs%elem_of_singleton|Hs]; [|by left].
        right. exists y. split; [by left|done].
      * right. exists z. split; [by right|done].
Qed.

End KeepFirstFacts.

Lemma filter_Forall_id {A} (P : A → Prop) `{∀ x, Decision (P x)} (l : list A) :
  Forall P l → filter P l = l.
Proof.
  induction 1 as [|x l Hx Hl IH]; [done|].
  rewrite filter_cons, decide_True by done. by rewrite IH.
Qed.

(** ** The deduplication loop of a sheet *)

Section DedupFacts.
Import Compare.
Variable cm : col_map.

Lemma ws_row_app (pre : list row) r rest :
  ws_row (pre ++ r :: rest) (S (length pre)) = r.
Proof. simpl. by rewrite list_lookup_middle by done. Qed.

Lemma dedup_loop rows : ∀ pre seen del,
  (foldl (dedup_step cm (pre ++ rows)) (seen, del)
         (seq (S (length pre)) (length rows))).2
  = del ++ scan cm seen (S (length pre)) rows.
Proof.
  induction rows as [|r rest IH]; intros pre seen del; simpl.
  - by rewrite app_nil_r.
  - unfold dedup_step at 2. unfold fingerprint_at, cell.
    rewrite ws_row_app. simpl.
    replace (pre ++ r :: rest) with ((pre ++ [r]) ++ rest)
      by (by rewrite <- app_assoc).
    replace (S (S (length pre))) with (S (length (pre ++ [r])))
      by (rewrite length_app; simpl; lia).
    destruct (bool_decide (row_fingerprint cm r ∈ seen)
              || bool_decide (row_cell r (cPluginID cm) = VNone)).
    + rewrite IH. by rewrite <- app_assoc.
    + by rewrite IH.
Qed.

Lemma rows_to_delete_scan hdr data :
  rows_to_delete cm (hdr :: data) = scan cm ∅ 2 data.
Proof.
  unfold rows_to_delete, data_rows, max_row. simpl. rewrite Nat.sub_0_r.
  by rewrite (dedup_loop data [hdr] ∅ []).
Qed.

Lemma delete_loop rows : ∀ pre seen,
  foldl (λ w row_idx, delete_rows row_idx w) (pre ++ rows)
        (reverse (scan cm seen (S (length pre)) rows))
  = pre ++ survivors cm seen rows.
Proof.
  unfold survivors, plugin_present.
  induction rows as [|r rest IH]; intros pre seen; simpl; [done|].
  specialize (IH (pre ++ [r])).
  rewrite length_app, <- app_assoc in IH. simpl in IH.
  replace (length pre + 1) with (S (length pre)) in IH by lia.
  rewrite filter_cons.
  destruct (bool_decide_reflect (row_fingerprint cm r ∈ seen)) as [Hs|Hs];
    destruct (bool_decide_reflect (row_cell r (cPluginID cm) = VNone)) as [Hn|Hn];
    simpl.
  - rewrite reverse_cons, foldl_app, IH. simpl.
    rewrite decide_False by (by intros ?).
    rewrite <- app_assoc. simpl. apply delete_middle.
  - rewrite reverse_cons, foldl_app, IH. simpl.
    rewrite decide_True by done. simpl.
    rewrite decide_True by done.
    rewrite <- app_assoc. simpl. apply delete_middle.
  - rewrite reverse_cons, foldl_app, IH. simpl.
    rewrite decide_False by (by intros ?).
    rewrite <- app_assoc. simpl. apply delete_middle.
  - rewrite IH. rewrite decide_True by done. simpl.
    rewrite decide_False by done. by rewrite <- app_assoc.
Qed.

(** The sheet after the deletions: the header and the surviving rows. *)
Lemma dedup_sheet_survivors hdr data :
  dedup_sheet cm (hdr :: data) = hdr :: survivors cm ∅ data.
Proof.
  unfold dedup_sheet. rewrite rows_to_delete_scan.
  apply (delete_loop data [hdr] ∅).
Qed.

Lemma survivors_present seen data :
  Forall (plugin_present cm) (survivors cm seen data).
Proof.
  unfold survivors. apply keep_first_Forall.
  apply list.Forall_forall. intros r Hr.
  by apply list_elem_of_filter in Hr as [? _].
Qed.

Lemma survivors_idem seen data :
  survivors cm seen (survivors cm seen data) = survivors cm seen data.
Proof.
  unfold survivors at 1.
  rewrite filter_Forall_id by apply survivors_present.
  unfold survivors. apply keep_first_idem.
Qed.



Lemma no_earlier_seen (seen : gset fingerprint) (pre : list row) r :
  (∀ f, f ∈ seen ↔ ∃ r', r' ∈ pre ∧ plugin_present cm r' ∧ row_fingerprint cm r' = f) →
  forallb (λ r', negb (bool_decide (plugin_present cm r')
                       && bool_decide (row_fingerprint cm r' = row_fingerprint cm r))) pre
  = bool_decide (row_fingerprint cm r ∉ seen).
Proof.
  intros Hseen. apply eq_true_iff_eq.
  rewrite forallb_forall, bool_decide_eq_true, Hseen. split.
  - intros Hall (r' & Hin & Hp & Hfp).
    apply list_elem_of_In in Hin. specialize (Hall r' Hin).
    rewrite bool_decide_true, bool_decide_true in Hall by done. done.
  - intros Hno r' Hin. apply negb_true_iff, andb_false_iff.
    destruct (bool_decide_reflect (plugin_present cm r')) as [Hp|]; [|by left].
    right. apply bool_decide_eq_false. intros Hfp. apply Hno.
    exists r'. by rewrite list_elem_of_In.
Qed.

Lemma survivors_first_present_gen rows : ∀ pre seen,
  (∀ f, f ∈ seen ↔ ∃ r', r' ∈ pre ∧ plugin_present cm r' ∧ row_fingerprint cm r' = f) →
  survivors cm seen rows
  = (filter (λ ir, is_first_present cm (pre ++ rows) ir.1 ir.2)
            (imap (λ j r, (length pre + j, r)) rows)).*2.
Proof.
  induction rows as [|r rest IH]; intros pre seen Hseen; [done|].
  unfold survivors. rewrite filter_cons. simpl imap.
  rewrite filter_cons. simpl fst. simpl snd.
  assert (Hfirst : is_first_present cm (pre ++ r :: rest) (length pre + 0) r
                   = bool_decide (plugin_present cm r)
                     && bool_decide (row_fingerprint cm r ∉ seen)).
  { unfold is_first_present.
    rewrite Nat.add_0_r, (take_app_length pre (r :: rest)).
    by rewrite (no_earlier_seen seen pre r Hseen). }
  assert (Hrest : ∀ seen',
    (∀ f, f ∈ seen' ↔ ∃ r', r' ∈ pre ++ [r] ∧ plugin_present cm r' ∧ row_fingerprint cm r' = f) →
    survivors cm seen' rest =
    (filter (λ ir, is_first_present cm (pre ++ r :: rest) ir.1 ir.2)
            (imap ((λ j r0, (length pre + j, r0)) ∘ S) rest)).*2).
  { intros seen' Hs'. rewrite (IH (pre ++ [r]) seen' Hs').
    rewrite <- app_assoc. simpl. f_equal. f_equal.
    apply imap_ext. intros i x _. simpl. rewrite length_app. simpl. f_equal. lia. }
  destruct (decide (plugin_present cm r)) as [Hp|Hp].
  - simpl. destruct (decide (row_fingerprint cm r ∈ seen)) as [Hin|Hin].
    + rewrite (decide_False (P := Is_true _)).
      2:{ rewrite Hfirst, bool_decide_true by done.
          rewrite bool_decide_false by (by intros ?). simpl. tauto. }
      apply Hrest. intros f. rewrite Hseen. setoid_rewrite elem_of_app.
      setoid_rewrite list_elem_of_singleton. split.
      * intros (r' & ? & ? & ?). exists r'. auto.
      * intros (r' & [?| ->] & ? & ?); [by exists r'|].
        apply Hseen. by subst.
    + rewrite (decide_True (P := Is_true _)).
      2:{ rewrite Hfirst, !bool_decide_true by done. done. }
      simpl. f_equal.
      apply Hrest. intros f. rewrite elem_of_union, elem_of_singleton, Hseen.
      setoid_rewrite elem_of_app. setoid_rewrite list_elem_of_singleton. split.
      * intros [->|(r' & ? & ? & ?)]; [exists r; auto|exists r'; auto].
      * intros (r' & [?| ->] & ? & ?); [right; by exists r'|by left].
  - rewrite (decide_False (P := Is_true _)).
    2:{ rewrite Hfirst, bool_decide_false by done. simpl. tauto. }
    apply Hrest. intros f. rewrite Hseen. setoid_rewrite elem_of_app.
    setoid_rewrite list_elem_of_singleton. split.
    + intros (r' & ? & ? & ?). exists r'. auto.
    + intros (r' & [?| ->] & ? & ?); [by exists r'|done].
Qed.

Lemma survivors_first_present data :
  survivors cm ∅ data = first_present_rows cm data.
Proof.
  rewrite (survivors_first_present_gen data [] ∅); [done|].
  intros f. split; [set_solver|]. intros (r' & Hin & _). by apply elem_of_nil in Hin.
Qed.
End DedupFacts.

(** ** The status loop of a sheet *)

Section ClassifyFacts.
Import Compare.
Variable cm : col_map.
Variable q3 : gset fingerprint.

Lemma write_cell_app (pre : list row) r rest k v :
  write_cell (pre ++ r :: rest) (S (length pre)) k v
  = pre ++ set_row_cell r k v :: rest.
Proof.
  unfold write_cell. rewrite alter_app_r_alt by lia.
  by rewrite Nat.sub_diag.
Qed.

Lemma classify_loop k rows : ∀ pre sc,
  foldl (classify_step cm q3 k) (pre ++ rows, sc)
        (seq (S (length pre)) (length rows))
  = (pre ++ (mark_row cm q3 k <$> rows), foldl (count_row cm q3) sc rows).
Proof.
  induction rows as [|r rest IH]; intros pre sc; [done|].
  cbn [length seq foldl].
  unfold classify_step at 2. cbn [fst snd].
  unfold fingerprint_at, cell. rewrite ws_row_app, write_cell_app.
  specialize (IH (pre ++ [set_row_cell r k
        (VStr (status_text (categorize q3 (row_fingerprint cm r))))])).
  rewrite length_app, <- app_assoc in IH. cbn [length app] in IH.
  replace (length pre + 1) with (S (length pre)) in IH by lia.
  rewrite IH. rewrite <- app_assoc. done.
Qed.

Lemma row_cell_insert k r c :
  row_cell (insert_row_cell (S k) r) c
  = if decide (c < S k) then row_cell r c
    else if decide (c = S k) then VNone else row_cell r (c - 1).
Proof.
  destruct c as [|c]; [done|]. cbn [row_cell insert_row_cell].
  rewrite lookup_app, lookup_take, length_take, lookup_cons.
  destruct (decide (S c < S k)) as [Hck|Hck].
  - rewrite decide_True by lia.
    destruct (r !! c) eqn:E; [reflexivity|].
    apply lookup_ge_None in E.
    destruct (c - k `min` length r) eqn:E2; [reflexivity|].
    rewrite lookup_drop. rewrite (proj2 (lookup_ge_None _ _)) by lia. done.
  - rewrite decide_False by lia.
    destruct (decide (S c = S k)) as [Heq|Hne].
    + injection Heq as ->.
      destruct (k - k `min` length r) eqn:E2; [reflexivity|].
      rewrite lookup_drop. rewrite (proj2 (lookup_ge_None _ _)) by lia. done.
    + cbn [Nat.sub]. rewrite Nat.sub_0_r.
      destruct (c - k `min` length r) eqn:E2.
      * destruct c; [lia|]. cbn [row_cell].
        rewrite (proj2 (lookup_ge_None r c)) by lia. done.
      * rewrite lookup_drop. destruct c; [lia|]. cbn [row_cell].
        destruct (decide (k ≤ length r)).
        -- f_equal. f_equal. lia.
        -- rewrite !(proj2 (lookup_ge_None r _)) by lia. done.
Qed.

Lemma process_sheet_rows hdr data :
  process_sheet cm q3 (hdr :: data)
  = let k := cName cm + 1 in
    let rows := insert_row_cell k <$> survivors cm ∅ data in
    (set_row_cell (insert_row_cell k hdr) k (VStr "Status")
       :: (mark_row cm q3 k <$> rows),
     foldl (count_row cm q3) (SheetCounts counts0 counts0) rows).
Proof.
  unfold process_sheet. rewrite dedup_sheet_survivors.
  cbn [insert_cols fmap list_fmap write_cell alter list_alter].
  unfold data_rows, max_row. cbn [length]. rewrite Nat.sub_succ, Nat.sub_0_r.
  rewrite length_fmap.
  set (k := cName cm + 1). set (h := set_row_cell _ _ _).
  set (rows := insert_row_cell k <$> _).
  replace (length (survivors cm ∅ data)) with (length rows)
    by (unfold rows; by rewrite length_fmap).
  apply (classify_loop k rows [h]).
Qed.
End ClassifyFacts.

(** ** Header row and column numbers *)

Section HeaderFacts.
Import Compare.

Lemma index_Some (hs : list string) name i :
  index hs name = Some i ↔
  hs !! i = Some name ∧ ∀ j, j < i → hs !! j ≠ Some name.
Proof.
  unfold index. split.
  - intros Hf. destruct (list_find _ hs) as [[i' x]|] eqn:E; [|done].
    injection Hf as ->. apply list_find_Some in E as (Hi & -> & Hlt).
    split; [done|]. intros j Hj Hjn. by apply (Hlt j name).
  - intros [Hi Hlt].
    assert (list_find (λ h, h = name) hs = Some (i, name)) as ->; [|done].
    apply list_find_Some. split; [done|]. split; [done|].
    intros j y Hj Hji ->. by apply (Hlt j).
Qed.

Lemma make_col_map_inv hs cm :
  make_col_map hs = Some cm →
  Forall (λ nc, 0 < nc.2 ∧ index hs nc.1 = Some (nc.2 - 1))
         (("Name", cName cm) :: read_cols cm).
Proof.
  unfold make_col_map. intros Hm.
  destruct (index hs "Plugin ID") as [p|] eqn:Ep; [|done].
  destruct (index hs "Host") as [h|] eqn:Eh; [|done].
  destruct (index hs "Protocol") as [pr|] eqn:Epr; [|done].
  destruct (index hs "Port") as [po|] eqn:Epo; [|done].
  destruct (index hs "Name") as [n|] eqn:En; [|done].
  destruct (index hs "Risk") as [r|] eqn:Er; [|done].
  cbn in Hm. injection Hm as <-. unfold read_cols. cbn [cName cPluginID cHost cProtocol cPort cRisk].
  repeat constructor; cbn [fst snd]; try lia;
    rewrite Nat.add_sub; done.
Qed.



End HeaderFacts.

(** ** Reads after the insertion of the Status column *)

Section ShiftFacts.
Import Compare.

Lemma fingerprint_insert_left cm r :
  cPluginID cm < cName cm → cHost cm < cName cm →
  cProtocol cm < cName cm → cPort cm < cName cm →
  row_fingerprint cm (insert_row_cell (cName cm + 1) r) = row_fingerprint cm r.
Proof.
  intros. unfold row_fingerprint. replace (cName cm + 1) with (S (cName cm)) by lia.
  rewrite !row_cell_insert. rewrite !decide_True by lia. done.
Qed.

Lemma count_rows_insert_left cm q3 l : ∀ sc,
  cPluginID cm < cName cm → cHost cm < cName cm →
  cProtocol cm < cName cm → cPort cm < cName cm → cRisk cm < cName cm →
  foldl (count_row cm q3) sc (insert_row_cell (cName cm + 1) <$> l)
  = foldl (count_row cm q3) sc l.
Proof.
  induction l as [|r l IH]; intros sc ? ? ? ? ?; [done|].
  cbn. rewrite IH by done. f_equal. unfold count_row.
  rewrite fingerprint_insert_left by done.
  replace (cName cm + 1) with (S (cName cm)) by lia.
  rewrite row_cell_insert, decide_True by lia. done.
Qed.

(** With the columns that are read left of Name, the sheet gets the intended
    labels and counts. *)
Lemma process_sheet_left_of_name cm q3 hdr data :
  Forall (λ nc, nc.2 < cName cm) (read_cols cm) →
  process_sheet cm q3 (hdr :: data)
  = (set_row_cell (insert_row_cell (cName cm + 1) hdr) (cName cm + 1) (VStr "Status")
       :: (label_row cm q3 <$> survivors cm ∅ data),
     intended_counts cm q3 (survivors cm ∅ data)).
Proof.
  intros Hleft. rewrite process_sheet_rows. cbv zeta.
  unfold read_cols in Hleft.
  repeat match goal with
         | H : Forall _ (_ :: _) |- _ => apply Forall_cons in H as [? H]
         end.
  cbn [fst snd] in *.
  unfold intended_counts. f_equal.
  - f_equal. rewrite <- list_fmap_compose. apply list_fmap_ext.
    intros i r _. cbn. unfold mark_row, label_row.
    by rewrite fingerprint_insert_left.
  - by apply count_rows_insert_left.
Qed.

Lemma status_text_new q3 f :
  status_text (categorize q3 f) = "New Issue" ↔ f ∉ q3.
Proof.
  unfold categorize. destruct (bool_decide_reflect (f ∉ q3)) as [Hf|Hf]; cbn.
  - done.
  - split; [done|]. intros Hn. by destruct Hf.
Qed.

End ShiftFacts.

(** ** Normalized fingerprints and the prior-period set *)

Section VariantFacts.
Import Compare.





Lemma elem_of_q3_fold l : ∀ acc f,
  f ∈ foldl q3_add acc l ↔
  f ∈ acc ∨ ∃ s, s ∈ l ∧ q3_fingerprint s = f ∧ f.1.1.1 ≠ "".
Proof.
  induction l as [|s l IH]; intros acc f; cbn [foldl].
  - split; [by left|]. intros [?|(s & Hs & _)]; [done|]. by apply elem_of_nil in Hs.
  - rewrite IH. unfold q3_add at 1. setoid_rewrite elem_of_cons.
    destruct (bool_decide_reflect ((q3_fingerprint s).1.1.1 = "")) as [He|He].
    + split.
      * intros [?|(s' & ? & ? & ?)]; [by left|right]. exists s'. auto.
      * intros [?|(s' & [->|?] & <- & ?)]; [by left|congruence|right].
        by exists s'.
    + rewrite elem_of_union, elem_of_singleton. split.
      * intros [[->|?]|(s' & ? & ? & ?)]; [right|by left|right].
        -- exists s. auto.
        -- exists s'. auto.
      * intros [?|(s' & [->|?] & <- & ?)];
          [left; by right|left; by left|right].
        by exists s'.
Qed.

Lemma elem_of_q3_existing_issues q3_dict f :
  f ∈ q3_existing_issues q3_dict ↔
  ∃ s, s ∈ df_q3_all q3_dict ∧ q3_fingerprint s = f ∧ f.1.1.1 ≠ "".
Proof.
  unfold q3_existing_issues. rewrite elem_of_q3_fold. split; [|by right].
  intros [H|H]; [set_solver|done].
Qed.

End VariantFacts.

(** ** The loader of the summary script *)

Section LoaderFacts.
Import Summary.

Lemma read_loop_unreadable files : ∀ all_dfs log,
  Exists (λ e, e.2 = Unreadable) files →
  (read_loop files all_dfs log).1 = None.
Proof.
  induction files as [|[f st] files IH]; intros all_dfs log Hex.
  - by apply Exists_nil in Hex.
  - apply Exists_cons in Hex as [Hex|Hex]; cbn in *.
    + by subst.
    + destruct st; [by apply IH|done|by apply IH].
Qed.

Lemma read_loop_readable files : ∀ all_dfs log,
  Forall (λ e, e.2 ≠ Unreadable) files →
  read_loop files all_dfs log
  = (Some (all_dfs ++ frames files), log ++ warnings files).
Proof.
  unfold frames, warnings.
  induction files as [|[f st] files IH]; intros all_dfs log Hall.
  - cbn. by rewrite !app_nil_r.
  - apply Forall_cons in Hall as [Hst Hall]. cbn in Hst.
    cbn [read_loop omap list_omap snd fst]. rewrite filter_cons. cbn [snd].
    destruct st; [|done|].
    + rewrite decide_True by done. rewrite IH by done.
      cbn. by rewrite <- app_assoc.
    + rewrite decide_False by done. rewrite IH by done.
      by rewrite <- app_assoc.
Qed.

Lemma frames_skip_missing files :
  frames (filter (λ e, e.2 ≠ NotFound) files) = frames files.
Proof.
  unfold frames. induction files as [|[f st] files IH]; [done|].
  rewrite filter_cons. cbn [snd].
  destruct st; cbn.
  - rewrite decide_False by (by intros ?). done.
  - rewrite decide_True by done. cbn. done.
  - rewrite decide_True by done. cbn. by rewrite IH.
Qed.

Lemma warnings_skip_missing files :
  warnings (filter (λ e, e.2 ≠ NotFound) files) = [].
Proof.
  unfold warnings. induction files as [|[f st] files IH]; [done|].
  rewrite filter_cons. cbn [snd].
  destruct st.
  - rewrite decide_False by (by intros ?). done.
  - rewrite decide_True by done. rewrite filter_cons, decide_False by done. done.
  - rewrite decide_True by done. rewrite filter_cons, decide_False by done. done.
Qed.

Lemma frames_nonempty files :
  Exists (λ e, ∃ df_part, e.2 = Csv df_part) files → frames files ≠ [].
Proof.
  unfold frames. induction files as [|[f st] files IH]; intros Hex.
  - by apply Exists_nil in Hex.
  - apply Exists_cons in Hex as [[df Hdf]|Hex]; cbn in *.
    + by subst.
    + destruct st; [by apply IH| by apply IH|done].
Qed.

(** What [main] does once the loop has read the frames [all_dfs]. *)
Lemma main_readable files :
  Forall (λ e, e.2 ≠ Unreadable) files →
  main files
  = match frames files with
    | [] => Outcome (SysExit 1) None (warnings files ++ [ErrorNoInput])
    | all_dfs =>
        match filtered all_dfs with
        | [] => Outcome (SysExit 0) (Some (Table output_columns []))
                        (warnings files ++ [NoDataRemaining])
        | filtered_df =>
            Outcome Finished (Some (Table output_columns (report filtered_df)))
                    (warnings files ++ [Saved])
        end
    end.
Proof.
  intros Hall. unfold main. rewrite read_loop_readable by done.
  cbn [app]. destruct (frames files) as [|d ds]; [done|].
  unfold filtered. by destruct (filter _ _).
Qed.

End LoaderFacts.

Lemma filter_nil_Forall {A} (P : A → Prop) `{∀ x, Decision (P x)} (l : list A) :
  Forall (λ x, ¬ P x) l → filter P l = [].
Proof.
  induction 1 as [|x l Hx Hl IH]; [done|].
  by rewrite filter_cons, decide_False.
Qed.

(** ** Order of strings *)

Section OrderFacts.

Lemma string_leb_trans s1 : ∀ s2 s3,
  String.leb s1 s2 = true → String.leb s2 s3 = true → String.leb s1 s3 = true.
Proof.
  unfold String.leb.
  induction s1 as [|c1 s1 IH]; intros [|c2 s2] [|c3 s3]; cbn; try done.
  unfold Ascii.compare.
  destruct (N.compare_spec (N_of_ascii c1) (N_of_ascii c2)) as [E12|E12|E12];
    destruct (N.compare_spec (N_of_ascii c2) (N_of_ascii c3)) as [E23|E23|E23];
    try done;
    destruct (N.compare_spec (N_of_ascii c1) (N_of_ascii c3)) as [E13|E13|E13];
    try done; try lia.
  apply IH.
Qed.

Lemma string_leb_refl s : String.leb s s = true.
Proof.
  destruct (String.leb_total s s); done.
Qed.

Lemma string_compare_refl s : String.compare s s = Eq.
Proof.
  induction s as [|c s IH]; cbn; [done|].
  unfold Ascii.compare. by rewrite N.compare_refl.
Qed.

Lemma string_compare_not_gt s t :
  not_gt (String.compare s t) = String.leb s t.
Proof. unfold String.leb, not_gt. by destruct (String.compare s t). Qed.

Lemma string_compare_Eq s t : String.compare s t = Eq ↔ s = t.
Proof.
  split; [apply String.compare_eq_iff|]. intros ->. apply string_compare_refl.
Qed.

Lemma string_compare_Gt s t : String.compare s t = Gt → String.leb t s = true.
Proof.
  intros H. unfold String.leb. rewrite String.compare_antisym, H. done.
Qed.

End OrderFacts.

(** ** The stable sort *)

Section SortFacts.
Context {A : Type} (leb : A → A → bool).
Hypothesis leb_total : ∀ a b, leb a b = true ∨ leb b a = true.

Let R (a b : A) : Prop := leb a b = true.

Lemma sort_insert_perm x l : Permutation (sort_insert leb x l) (x :: l).
Proof.
  induction l as [|y l IH]; cbn; [done|].
  destruct (leb x y); [done|]. rewrite IH. apply perm_swap.
Qed.

Lemma stable_sort_perm l : Permutation (stable_sort leb l) l.
Proof.
  induction l as [|x l IH]; cbn; [done|].
  fold (stable_sort leb l). rewrite sort_insert_perm. by constructor.
Qed.

Lemma sort_insert_sorted x l : Sorted R l → Sorted R (sort_insert leb x l).
Proof.
  induction 1 as [|y l Hl IH Hhd]; cbn; [by repeat constructor|].
  destruct (leb x y) eqn:E.
  - constructor; [by constructor|]. by constructor.
  - constructor; [done|].
    assert (R y x) as Hyx by (destruct (leb_total x y); [congruence|done]).
    destruct Hhd as [|z l Hyz]; cbn; [by constructor|].
    destruct (leb x z); by constructor.
Qed.

Lemma stable_sort_sorted l : Sorted R (stable_sort leb l).
Proof.
  induction l as [|x l IH]; cbn; [constructor|].
  by apply sort_insert_sorted.
Qed.

End SortFacts.

Lemma Sorted_impl_Forall {A} (P : A → Prop) (R R' : A → A → Prop) l :
  (∀ a b, P a → P b → R a b → R' a b) →
  Forall P l → Sorted R l → Sorted R' l.
Proof.
  intros Himp HP HS. induction HS as [|x l Hl IH Hhd]; [constructor|].
  apply Forall_cons in HP as [Hx HP]. constructor; [by apply IH|].
  destruct Hhd as [|y l Hxy]; constructor.
  apply Forall_cons in HP as [Hy _]. by apply Himp.
Qed.

(** ** Grouping and joining *)

Section GroupFacts.
Import Summary.

Lemma elem_of_groupby_size {K} `{EqDecision K} (cmp : K → K → comparison)
    (by_ : finding → option K) df k n :
  (k, n) ∈ groupby_size cmp by_ df ↔
  k ∈ omap by_ df ∧ n = length (filter (λ k', k' = k) (omap by_ df)).
Proof.
  unfold groupby_size. rewrite list_elem_of_fmap. split.
  - intros (k' & Heq & Hk). cbn beta in Heq. injection Heq as -> ->.
    split; [|done].
    rewrite stable_sort_perm in Hk. by rewrite elem_of_remove_dups in Hk.
  - intros [Hk ->]. exists k. split; [done|].
    rewrite stable_sort_perm. by rewrite elem_of_remove_dups.
Qed.

Lemma elem_of_merge_left row detail_df summary_df :
  row ∈ merge_left detail_df summary_df →
  ∃ d, d ∈ detail_df
       ∧ row = ReportRow d.1.1.1 d.1.1.2 (r_Total_Count row) d.1.2 d.2
       ∧ ((r_Total_Count row = None ∧ ∀ s, s ∈ summary_df → s.1 ≠ d.1.1)
          ∨ ∃ s, s ∈ summary_df ∧ s.1 = d.1.1 ∧ r_Total_Count row = Some s.2).
Proof.
  unfold merge_left. intros (d & Hrow & Hd)%list_elem_of_bind.
  exists d. split; [done|].
  destruct (filter _ summary_df) as [|m ms] eqn:Ef.
  - apply list_elem_of_singleton in Hrow as ->. split; [done|]. left.
    split; [done|]. intros s Hs Hkey.
    assert (s ∈ filter (λ s, s.1 = d.1.1) summary_df) as Hin
      by (by apply list_elem_of_filter).
    rewrite Ef in Hin. by apply elem_of_nil in Hin.
  - apply list_elem_of_fmap in Hrow as (s & -> & Hs). split; [done|]. right.
    rewrite <- Ef in Hs. apply list_elem_of_filter in Hs as [Hkey Hs].
    by exists s.
Qed.

Lemma name_risk_of_host r k h :
  name_risk_host r = Some (k, h) → name_risk r = Some k ∧ Host r = Some h.
Proof.
  unfold name_risk_host. destruct (name_risk r) as [k'|]; [|done]. cbn.
  destruct (Host r) as [h'|]; [|done]. cbn. by intros [= -> ->].
Qed.

Lemma name_risk_Some r n k :
  name_risk r = Some (n, k) → Name r = Some n ∧ Risk r = Some k.
Proof.
  unfold name_risk. destruct (Name r) as [n'|]; [|done]. cbn.
  destruct (Risk r) as [k'|]; [|done]. cbn. by intros [= -> ->].
Qed.

(** Every row of the report comes from a finding with that name, risk and
    host, and carries the number of findings with its name and risk. *)
Lemma elem_of_report row df :
  row ∈ report df →
  (∃ r, r ∈ df ∧ Name r = Some (r_Name row) ∧ Risk r = Some (r_Risk row)
        ∧ Host r = Some (r_Host row))
  ∧ r_Total_Count row
    = Some (length (filter (λ k, k = (r_Name row, r_Risk row)) (omap name_risk df)))
  ∧ r_Per_Host_Count row
    = length (filter (λ k, k = (r_Name row, r_Risk row, r_Host row))
                     (omap name_risk_host df)).
Proof.
  unfold report, sort_values. rewrite stable_sort_perm.
  intros (d & Hd & Hrow & Htot)%elem_of_merge_left.
  destruct d as [[[n k] h] c]. cbn [fst snd] in *.
  apply elem_of_groupby_size in Hd as [Hd ->].
  apply list_elem_of_omap in Hd as (r & Hr & Hkey).
  apply name_risk_of_host in Hkey as [Hnk Hh].
  pose proof (name_risk_Some _ _ _ Hnk) as [Hn Hk].
  assert (r_Name row = n ∧ r_Risk row = k ∧ r_Host row = h) as (En & Ek & Eh)
    by (by rewrite Hrow).
  rewrite En, Ek, Eh. split; [by exists r|]. split; [|by rewrite Hrow].
  destruct Htot as [[_ Hno]|(s & Hs & Hskey & ->)].
  - exfalso. apply (Hno ((n, k), length (filter (λ k', k' = (n, k)) (omap name_risk df)))); [|done].
    apply elem_of_groupby_size. split; [|done].
    apply list_elem_of_omap. by exists r.
  - destruct s as [k2 c2]. cbn [fst snd] in *. subst k2.
    by apply elem_of_groupby_size in Hs as [_ ->].
Qed.

End GroupFacts.

(** ** Order of the report *)

Section ReportOrderFacts.
Import Summary.

Lemma lex_opp c1 c2 : lex (CompOpp c1) (CompOpp c2) = CompOpp (lex c1 c2).
Proof. by destruct c1. Qed.

Lemma compare_na_last_opp {A} (cmp : A → A → comparison) a b :
  (∀ x y, cmp y x = CompOpp (cmp x y)) →
  compare_na_last cmp b a = CompOpp (compare_na_last cmp a b).
Proof. intros Hc. destruct a, b; cbn; auto. Qed.

Lemma report_compare_opp a b :
  report_compare b a = CompOpp (report_compare a b).
Proof.
  unfold report_compare. rewrite <- !lex_opp. f_equal; [|f_equal].
  - apply compare_na_last_opp. intros x y. apply Nat.compare_antisym.
  - apply compare_na_last_opp. intros x y. apply Nat.compare_antisym.
  - apply String.compare_antisym.
Qed.

Lemma report_leb_total a b : report_leb a b = true ∨ report_leb b a = true.
Proof.
  unfold report_leb. rewrite (report_compare_opp a b).
  destruct (report_compare a b); cbn; auto.
Qed.

Lemma risk_code_rank r :
  r ∈ risk_order → risk_code r = Some (risk_rank r).
Proof.
  unfold risk_order. intros H.
  repeat (apply elem_of_cons in H as [->|H]; [by vm_compute|]).
  by apply elem_of_nil in H.
Qed.

(** On rows with a total and a risk of the categorical type, the comparison
    used by the sort is the order of the report. *)
Lemma report_leb_before a b :
  is_Some (r_Total_Count a) → r_Risk a ∈ risk_order →
  is_Some (r_Total_Count b) → r_Risk b ∈ risk_order →
  report_leb a b = true ↔ report_before a b.
Proof.
  intros [ta Ha] Hra [tb Hb] Hrb.
  unfold report_leb, report_before, report_compare, total_of.
  rewrite (risk_code_rank _ Hra), (risk_code_rank _ Hrb), Ha, Hb. cbn.
  rewrite <- string_compare_not_gt.
  destruct (Nat.compare_spec (risk_rank (r_Risk a)) (risk_rank (r_Risk b)));
    cbn; [|split; [lia|done]|split; [done|lia]].
  destruct (Nat.compare_spec tb ta); cbn.
  - subst. split; [intros; right; auto|]. intros [?|[_ [?|[_ ?]]]]; [lia|lia|done].
  - split; [intros; right; split; [done|left; lia]|done].
  - split; [done|]. intros [?|[_ [?|[? _]]]]; lia.
Qed.

Lemma report_before_trans a b c :
  report_before a b → report_before b c → report_before a c.
Proof.
  unfold report_before.
  intros [?|[? [?|[? Hab]]]] [?|[? [?|[? Hbc]]]];
    try (left; lia); try (right; split; [lia|left; lia]).
  right. split; [lia|]. right. split; [lia|].
  by apply (string_leb_trans _ (r_Name b)).
Qed.

Lemma report_before_total a b : report_before a b ∨ report_before b a.
Proof.
  unfold report_before.
  destruct (Nat.lt_total (risk_rank (r_Risk a)) (risk_rank (r_Risk b)))
    as [?|[?|?]]; [left; by left| |right; by left].
  destruct (Nat.lt_total (total_of a) (total_of b)) as [?|[?|?]].
  - right. right. split; [done|]. by left.
  - destruct (String.leb_total (r_Name a) (r_Name b)).
    + left. right. split; [done|]. right. done.
    + right. right. split; [done|]. right. done.
  - left. right. split; [done|]. by left.
Qed.

Lemma report_rows_wf df :
  Forall (λ r, isin target_risks (Risk r)) df →
  Forall (λ row, is_Some (r_Total_Count row) ∧ r_Risk row ∈ risk_order) (report df).
Proof.
  intros Hdf. apply list.Forall_forall. intros row Hrow.
  apply elem_of_report in Hrow as ((r & Hr & _ & Hk & _) & Ht & _).
  split; [by rewrite Ht|].
  apply (proj1 (list.Forall_forall _ _) Hdf) in Hr.
  rewrite Hk in Hr. cbn in Hr. by apply bool_decide_unpack in Hr.
Qed.

Lemma report_sorted df :
  Forall (λ r, isin target_risks (Risk r)) df →
  StronglySorted report_before (report df).
Proof.
  intros Hdf. apply Sorted_StronglySorted.
  { intros a b c. apply report_before_trans. }
  apply (Sorted_impl_Forall
           (λ row, is_Some (r_Total_Count row) ∧ r_Risk row ∈ risk_order)
           (λ a b, report_leb a b = true)).
  - intros a b [? ?] [? ?] Hab. by apply report_leb_before.
  - by apply report_rows_wf.
  - unfold report, sort_values. apply stable_sort_sorted, report_leb_total.
Qed.

End ReportOrderFacts.

(** ** Counting occurrences *)

Section CountFacts.
Context {K : Type} `{EqDecision K}.
Context (P : K → Prop) `{∀ k, Decision (P k)}.

Lemma occurrences_cons (k x : K) l :
  length (filter (λ k' : K, k' = k) (x :: l))
  = (if decide (x = k) then 1 else 0) + length (filter (λ k' : K, k' = k) l).
Proof. rewrite filter_cons. by destruct (decide (x = k)). Qed.

Lemma sum_occurrences_cons x l ks :
  sum_list_with (λ k : K, length (filter (λ k' : K, k' = k) (x :: l))) ks
  = sum_list_with (λ k : K, if decide (x = k) then 1 else 0) ks
    + sum_list_with (λ k : K, length (filter (λ k' : K, k' = k) l)) ks.
Proof.
  induction ks as [|k ks IH]; [done|].
  cbn [sum_list_with]. rewrite IH, occurrences_cons. lia.
Qed.

Lemma sum_indicator_absent (x : K) ks :
  x ∉ ks → sum_list_with (λ k : K, if decide (x = k) then 1 else 0) (filter P ks) = 0.
Proof.
  induction ks as [|k ks IH]; intros Hx; [done|].
  apply not_elem_of_cons in Hx as [Hxk Hx].
  rewrite filter_cons. destruct (decide (P k)); cbn; [|by apply IH].
  rewrite decide_False by done. by apply IH.
Qed.

Lemma sum_indicator (x : K) ks :
  NoDup ks → x ∈ ks →
  sum_list_with (λ k : K, if decide (x = k) then 1 else 0) (filter P ks)
  = if decide (P x) then 1 else 0.
Proof.
  induction 1 as [|k ks Hk Hnd IH]; intros Hx; [by apply elem_of_nil in Hx|].
  rewrite filter_cons.
  destruct (decide (x = k)) as [->|Hne].
  - destruct (decide (P k)); cbn; [|by apply sum_indicator_absent].
    rewrite decide_True by done. by rewrite sum_indicator_absent.
  - apply elem_of_cons in Hx as [?|Hx]; [done|].
    destruct (decide (P k)); cbn; [|by apply IH].
    rewrite decide_False by done. by apply IH.
Qed.

(** Summing the occurrences in [l] over the distinct keys that satisfy [P]
    counts the elements of [l] that satisfy [P]. *)
Lemma sum_occurrences ks l :
  NoDup ks → (∀ x, x ∈ l → x ∈ ks) →
  sum_list_with (λ k : K, length (filter (λ k' : K, k' = k) l)) (filter P ks)
  = length (filter P l).
Proof.
  intros Hnd. induction l as [|x l IH]; intros Hin.
  - cbn. induction (filter P ks) as [|? ? IH']; [done|]. cbn. by rewrite IH'.
  - rewrite sum_occurrences_cons.
    rewrite IH by (intros y Hy; apply Hin; by right).
    rewrite sum_indicator by (done || apply Hin; by left).
    rewrite filter_cons. by destruct (decide (P x)).
Qed.

End CountFacts.

(** ** The join of the per-host counts with the totals *)

Section JoinFacts.
Import Summary.

Lemma filter_key_NoDup {K} `{EqDecision K} (g : K → nat) (key : K) ks :
  NoDup ks → key ∈ ks →
  filter (λ s : K * nat, s.1 = key) ((λ k, (k, g k)) <$> ks) = [(key, g key)].
Proof.
  induction 1 as [|k ks Hk Hnd IH]; intros Hin; [by apply elem_of_nil in Hin|].
  cbn [fmap list_fmap]. rewrite filter_cons. cbn [fst].
  destruct (decide (k = key)) as [->|Hne].
  - f_equal. clear IH Hin. induction ks as [|k' ks IH]; [done|].
    apply not_elem_of_cons in Hk as [Hkk Hk].
    apply NoDup_cons in Hnd as [_ Hnd].
    cbn [fmap list_fmap]. rewrite filter_cons. cbn [fst].
    rewrite decide_False by done. by apply IH.
  - apply elem_of_cons in Hin as [?|Hin]; [done|]. by apply IH.
Qed.

Lemma NoDup_stable_sort {A} `{EqDecision A} (leb : A → A → bool) (l : list A) :
  NoDup (stable_sort leb (remove_dups l)).
Proof. rewrite stable_sort_perm. apply NoDup_remove_dups. Qed.

Lemma name_risk_host_key2 r k3 :
  name_risk_host r = Some k3 → name_risk r = Some k3.1.
Proof.
  destruct k3 as [k h]. intros Hk. by apply name_risk_of_host in Hk as [? _].
Qed.

(** With a total for every key, the join is a map over the detail rows. *)
Lemma merge_left_report df :
  merge_left (groupby_size key3_compare name_risk_host df)
             (groupby_size key2_compare name_risk df)
  = (λ k3, ReportRow k3.1.1 k3.1.2
             (Some (length (filter (λ k, k = k3.1) (omap name_risk df))))
             k3.2
             (length (filter (λ k, k = k3) (omap name_risk_host df))))
      <$> stable_sort (λ a b, not_gt (key3_compare a b))
                      (remove_dups (omap name_risk_host df)).
Proof.
  unfold merge_left, groupby_size.
  set (ks3 := stable_sort _ (remove_dups (omap name_risk_host df))).
  assert (∀ k3, k3 ∈ ks3 → k3.1 ∈ omap name_risk df) as Hsub.
  { intros k3 Hk3. unfold ks3 in Hk3.
    rewrite stable_sort_perm, elem_of_remove_dups in Hk3.
    apply list_elem_of_omap in Hk3 as (r & Hr & Hkey).
    apply list_elem_of_omap. exists r. split; [done|].
    by apply name_risk_host_key2. }
  clearbody ks3. induction ks3 as [|k3 ks3 IH]; [done|].
  cbn [fmap list_fmap mbind list_bind]. cbn [fst snd].
  rewrite filter_key_NoDup.
  - cbn [fmap list_fmap app fst snd]. f_equal. apply IH.
    intros k Hk. apply Hsub. by right.
  - apply NoDup_stable_sort.
  - rewrite stable_sort_perm, elem_of_remove_dups. apply Hsub. by left.
Qed.

Lemma count_key2_of_key3 df n k :
  Forall (λ r, is_Some (name_risk r) → is_Some (Host r)) df →
  length (filter (λ k3 : key3, k3.1 = (n, k)) (omap name_risk_host df))
  = length (filter (λ k2 : key2, k2 = (n, k)) (omap name_risk df)).
Proof.
  induction 1 as [|r df Hr Hdf IH]; [done|].
  assert ((∃ nk h, name_risk r = Some nk ∧ name_risk_host r = Some (nk, h))
          ∨ (name_risk r = None ∧ name_risk_host r = None)) as Hcase.
  { unfold name_risk_host. destruct (name_risk r) as [nk|] eqn:Enk; [|by right].
    destruct Hr as [h Hh]; [done|]. left. exists nk, h. by rewrite Hh. }
  cbn [omap list_omap].
  destruct Hcase as [(nk & h & -> & ->)|[-> ->]]; [|done].
  rewrite !filter_cons. cbn [fst].
  destruct (decide (nk = (n, k))); cbn [length]; by rewrite IH.
Qed.

End JoinFacts.

(** ** Totals and per-host counts *)

Section TotalFacts.
Import Summary.

Lemma per_host_sum_detail df n k (ks3 : list key3) :
  per_host_sum n k
    ((λ k3 : key3, ReportRow k3.1.1 k3.1.2
        (Some (length (filter (λ k2, k2 = k3.1) (omap name_risk df))))
        k3.2
        (length (filter (λ k', k' = k3) (omap name_risk_host df)))) <$> ks3)
  = sum_list_with (λ k3 : key3, length (filter (λ k' : key3, k' = k3)
                                              (omap name_risk_host df)))
                  (filter (λ k3 : key3, k3.1 = (n, k)) ks3).
Proof.
  unfold per_host_sum. induction ks3 as [|[[n' k'] h] ks3 IH]; [done|].
  cbn [fmap list_fmap]. rewrite !filter_cons. cbn [fst snd r_Name r_Risk].
  destruct (decide (n' = n ∧ k' = k)) as [[-> ->]|Hne].
  - rewrite decide_True by done. cbn [sum_list_with r_Per_Host_Count].
    f_equal. apply IH.
  - rewrite decide_False by (intros [= -> ->]; by apply Hne). apply IH.
Qed.

(** When every finding that has a name and a risk also has a host, the total
    of a row is the sum of the per-host counts of the rows with its name and
    risk. *)
Lemma totals_match_when_hosts_present df row :
  Forall (λ r, is_Some (name_risk r) → is_Some (Host r)) df →
  row ∈ report df →
  r_Total_Count row
  = Some (per_host_sum (r_Name row) (r_Risk row) (report df)).
Proof.
  intros Hhost Hrow.
  pose proof (elem_of_report _ _ Hrow) as (_ & -> & _). f_equal.
  unfold per_host_sum, report, sort_values at 1.
  rewrite stable_sort_perm. fold (per_host_sum (r_Name row) (r_Risk row)
    (merge_left (groupby_size key3_compare name_risk_host df)
                (groupby_size key2_compare name_risk df))).
  rewrite merge_left_report, per_host_sum_detail.
  rewrite sum_occurrences.
  - symmetry. by apply count_key2_of_key3.
  - apply NoDup_stable_sort.
  - intros x Hx. by rewrite stable_sort_perm, elem_of_remove_dups.
Qed.

End TotalFacts.

(** ** Cells of the summary sheet *)

Section SheetFacts.
Import Compare.

Lemma lookup_safe_write ws row col v r c :
  safe_write ws row col v !! (r, c)
  = if decide (row = r ∧ col = c) then Some v else ws !! (r, c).
Proof.
  unfold safe_write. destruct (decide (row = r ∧ col = c)) as [[-> ->]|Hne].
  - by rewrite lookup_insert_eq.
  - rewrite lookup_insert_ne; [done|]. intros [= -> ->]. by apply Hne.
Qed.

Lemma lookup_write_cells_ne cells : ∀ ws row r c,
  r ≠ row → write_cells ws row cells !! (r, c) = ws !! (r, c).
Proof.
  unfold write_cells.
  induction cells as [|[col v] cells IH]; intros ws row r c Hne; [done|].
  cbn [foldl]. rewrite IH by done. rewrite lookup_safe_write.
  rewrite decide_False; [done|]. intros [? _]. by apply Hne.
Qed.

Lemma lookup_write_cells cells : ∀ ws row c,
  write_cells ws row cells !! (row, c)
  = match foldl (λ acc cv, if decide (cv.1 = c) then Some cv.2 else acc)
                (ws !! (row, c)) cells with
    | Some v => Some v
    | None => None
    end.
Proof.
  unfold write_cells.
  induction cells as [|[col v] cells IH]; intros ws row c; cbn [foldl].
  - by destruct (ws !! (row, c)).
  - rewrite IH. rewrite lookup_safe_write. cbn [fst snd].
    destruct (decide (col = c)) as [->|Hne].
    + rewrite decide_True by done. done.
    + rewrite decide_False; [done|]. by intros [_ ?].
Qed.

Lemma write_rows_ptr {A} (cells : A → list (nat * scell)) l : ∀ ws p,
  (write_rows cells ws p l).2 = p + length l.
Proof.
  unfold write_rows. induction l as [|x l IH]; intros ws p; cbn [foldl length].
  - cbn. lia.
  - rewrite IH. cbn [snd]. lia.
Qed.

Lemma lookup_write_rows_outside {A} (cells : A → list (nat * scell)) l :
  ∀ ws p r c, r < p ∨ p + length l ≤ r →
  (write_rows cells ws p l).1 !! (r, c) = ws !! (r, c).
Proof.
  unfold write_rows. induction l as [|x l IH]; intros ws p r c Hr; [done|].
  cbn [foldl length fst snd] in *. rewrite IH by lia.
  apply lookup_write_cells_ne. lia.
Qed.

Lemma cell_of_from (cells : list (nat * scell)) c v : ∀ o1 o2,
  (∀ w, o1 = Some w → o2 = Some w) →
  foldl (λ acc cv, if decide (cv.1 = c) then Some cv.2 else acc) o1 cells = Some v →
  foldl (λ acc (cv : nat * scell), if decide (cv.1 = c) then Some cv.2 else acc)
        o2 cells = Some v.
Proof.
  induction cells as [|[col w] cs IH]; intros o1 o2 Ho; cbn [foldl fst snd].
  - apply Ho.
  - apply IH. destruct (decide (col = c)); [done|apply Ho].
Qed.

Lemma lookup_write_rows {A} (cells : A → list (nat * scell)) l :
  ∀ ws p i x c v,
  l !! i = Some x → cell_of (cells x) c = Some v →
  (write_rows cells ws p l).1 !! (p + i, c) = Some v.
Proof.
  unfold write_rows.
  induction l as [|y l IH]; intros ws p i x c v Hi Hc; [done|].
  cbn [foldl fst snd]. destruct i as [|i]; cbn in Hi.
  - injection Hi as ->.
    pose proof (lookup_write_rows_outside cells l
                  (write_cells ws p (cells x)) (p + 1) (p + 0) c) as Hout.
    unfold write_rows in Hout. rewrite Hout by lia.
    rewrite Nat.add_0_r, lookup_write_cells.
    rewrite (cell_of_from (cells x) c v None (ws !! (p, c))); [done|done|].
    exact Hc.
  - replace (p + S i) with (p + 1 + i) by lia. by eapply IH.
Qed.

End SheetFacts.

Section SummaryFacts.
Import Compare.

Lemma g_add_lists a b n1 n2 n3 n4 e1 e2 e3 e4 data :
  g_add (GTotal a b [n1; n2; n3; n4] [e1; e2; e3; e4]) data
  = GTotal (a + TOTAL (of_new data)) (b + TOTAL (of_existing data))
           [n1 + CRITICAL (of_new data); n2 + HIGH (of_new data);
            n3 + MEDIUM (of_new data); n4 + LOW (of_new data)]
           [e1 + CRITICAL (of_existing data); e2 + HIGH (of_existing data);
            e3 + MEDIUM (of_existing data); e4 + LOW (of_existing data)].
Proof. reflexivity. Qed.

Lemma g_fold datas : ∀ a b n1 n2 n3 n4 e1 e2 e3 e4,
  foldl g_add (GTotal a b [n1; n2; n3; n4] [e1; e2; e3; e4]) datas
  = GTotal (a + sum_list_with (λ d, TOTAL (of_new d)) datas)
           (b + sum_list_with (λ d, TOTAL (of_existing d)) datas)
           [n1 + sum_list_with (λ d, CRITICAL (of_new d)) datas;
            n2 + sum_list_with (λ d, HIGH (of_new d)) datas;
            n3 + sum_list_with (λ d, MEDIUM (of_new d)) datas;
            n4 + sum_list_with (λ d, LOW (of_new d)) datas]
           [e1 + sum_list_with (λ d, CRITICAL (of_existing d)) datas;
            e2 + sum_list_with (λ d, HIGH (of_existing d)) datas;
            e3 + sum_list_with (λ d, MEDIUM (of_existing d)) datas;
            e4 + sum_list_with (λ d, LOW (of_existing d)) datas].
Proof.
  induction datas as [|d datas IH]; intros; cbn [foldl sum_list_with].
  - by rewrite !Nat.add_0_r.
  - rewrite g_add_lists, IH. by rewrite !Nat.add_assoc.
Qed.

Lemma table1_fold sd : ∀ ws p g,
  foldl table1_step (ws, p, g) sd
  = (write_rows table1_cells ws p sd, foldl g_add g sd.*2).
Proof.
  unfold write_rows.
  induction sd as [|[domain data] sd IH]; intros ws p g; [done|].
  cbn [foldl fmap list_fmap snd]. rewrite <- IH. done.
Qed.

Lemma risk_fold sel sd : ∀ ws p,
  foldl (risk_row_step sel) (ws, p) sd = write_rows (risk_cells sel) ws p sd.
Proof.
  unfold write_rows.
  induction sd as [|[domain data] sd IH]; intros ws p; [done|].
  cbn [foldl]. rewrite <- IH. done.
Qed.

Lemma lookup_risk_header title ws p r c :
  r ≠ p → r ≠ p + 1 → write_risk_header title ws p !! (r, c) = ws !! (r, c).
Proof.
  intros H1 H2. unfold write_risk_header, enumerate. cbn [risks app imap foldl].
  repeat (rewrite lookup_safe_write, decide_False by (intros [? _]; lia)).
  done.
Qed.

Lemma lookup_risk_total_ne totals total ws p r c :
  r ≠ p → write_risk_total totals total ws p !! (r, c) = ws !! (r, c).
Proof.
  intros H1. unfold write_risk_total. cbn [seq foldl].
  repeat (rewrite lookup_safe_write, decide_False by (intros [? _]; lia)).
  done.
Qed.

Lemma lookup_risk_total t1 t2 t3 t4 total ws p :
  let W := write_risk_total [t1; t2; t3; t4] total ws p in
  W !! (p, 3) = Some (or_dash t1) ∧ W !! (p, 4) = Some (or_dash t2)
  ∧ W !! (p, 5) = Some (or_dash t3) ∧ W !! (p, 6) = Some (or_dash t4)
  ∧ W !! (p, 7) = Some (or_dash total).
Proof.
  cbv zeta. unfold write_risk_total. cbn [seq foldl].
  repeat split;
    repeat (rewrite lookup_safe_write;
            first [rewrite decide_True by (split; lia); reflexivity
                  |rewrite decide_False by (intros [_ ?]; lia)]).
Qed.

End SummaryFacts.

Ltac peel_layer :=
  first
    [ rewrite lookup_risk_total_ne by lia
    | rewrite lookup_risk_header by lia
    | rewrite lookup_write_rows_outside by lia
    | rewrite lookup_safe_write, decide_False by (intros [? ?]; lia) ].

Ltac dig H1 H2 H3 :=
  repeat first
    [ peel_layer
    | rewrite H3
    | rewrite H2
    | rewrite H1
    | progress cbn [foldl fst snd] ].

Ltac risk_total_cell :=
  match goal with
  | |- Compare.write_risk_total [?a; ?b; ?c; ?d] ?t ?ws ?p !! _ = _ =>
      destruct (lookup_risk_total a b c d t ws p) as (? & ? & ? & ? & ?);
      assumption
  end.

Section SummaryCells.
Import Compare.
Variable sd : summary_dict.

Lemma recurrence_summary_cells :
  let n := length sd in
  let W := recurrence_summary sd in
  let total f := or_dash (sum_list_with f sd.*2) in
  (∀ i item c v, sd !! i = Some item → cell_of (table1_cells item) c = Some v →
                 W !! (4 + i, c) = Some v)
  ∧ (∀ i item c v, sd !! i = Some item →
                   cell_of (risk_cells of_new item) c = Some v →
                   W !! (n + 10 + i, c) = Some v)
  ∧ (∀ i item c v, sd !! i = Some item →
                   cell_of (risk_cells of_existing item) c = Some v →
                   W !! (2 * n + 16 + i, c) = Some v)
  ∧ (W !! (4 + n, 3) = Some (total (λ d, TOTAL (of_new d)))
     ∧ W !! (4 + n, 4) = Some (total (λ d, TOTAL (of_existing d)))
     ∧ W !! (4 + n, 5)
       = Some (or_dash (sum_list_with (λ d, TOTAL (of_new d)) sd.*2
                        + sum_list_with (λ d, TOTAL (of_existing d)) sd.*2)))
  ∧ (W !! (2 * n + 10, 3) = Some (total (λ d, CRITICAL (of_new d)))
     ∧ W !! (2 * n + 10, 4) = Some (total (λ d, HIGH (of_new d)))
     ∧ W !! (2 * n + 10, 5) = Some (total (λ d, MEDIUM (of_new d)))
     ∧ W !! (2 * n + 10, 6) = Some (total (λ d, LOW (of_new d)))
     ∧ W !! (2 * n + 10, 7) = Some (total (λ d, TOTAL (of_new d))))
  ∧ (W !! (3 * n + 16, 3) = Some (total (λ d, CRITICAL (of_existing d)))
     ∧ W !! (3 * n + 16, 4) = Some (total (λ d, HIGH (of_existing d)))
     ∧ W !! (3 * n + 16, 5) = Some (total (λ d, MEDIUM (of_existing d)))
     ∧ W !! (3 * n + 16, 6) = Some (total (λ d, LOW (of_existing d)))
     ∧ W !! (3 * n + 16, 7) = Some (total (λ d, TOTAL (of_existing d)))).
Proof.
  intros n W total. unfold W, recurrence_summary.
  rewrite table1_fold. cbn [replicate]. rewrite g_fold. cbn [Nat.add].
  destruct (write_rows table1_cells _ _ sd) as [w1 p1] eqn:E1.
  assert (p1 = 4 + n) as ->.
  { change p1 with (w1, p1).2. rewrite <- E1. apply write_rows_ptr. }
  assert (w1 = (w1, 4 + n).1) as Hw1 by done. rewrite <- E1 in Hw1.
  cbv beta iota zeta. cbn [g_new g_ext g_new_r g_ext_r].
  rewrite risk_fold.
  destruct (write_rows (risk_cells of_new) _ _ sd) as [w2 p2] eqn:E2.
  assert (p2 = 2 * n + 10) as ->.
  { change p2 with (w2, p2).2. rewrite <- E2, write_rows_ptr. lia. }
  assert (w2 = (w2, 2 * n + 10).1) as Hw2 by done. rewrite <- E2 in Hw2.
  rewrite risk_fold.
  destruct (write_rows (risk_cells of_existing) _ _ sd) as [w3 p3] eqn:E3.
  assert (p3 = 3 * n + 16) as ->.
  { change p3 with (w3, p3).2. rewrite <- E3, write_rows_ptr. lia. }
  assert (w3 = (w3, 3 * n + 16).1) as Hw3 by done. rewrite <- E3 in Hw3.
  clear E1 E2 E3. subst total. cbv beta.
  assert (Hlt : ∀ i item, sd !! i = Some item → i < n).
  { intros i item Hi. by apply lookup_lt_Some in Hi. }
  clearbody n.
  repeat split.
  - intros i item c v Hi Hc. pose proof (Hlt _ _ Hi). dig Hw1 Hw2 Hw3.
    change (S (S (S (S i)))) with (4 + i).
    by eapply lookup_write_rows.
  - intros i item c v Hi Hc. pose proof (Hlt _ _ Hi). dig Hw1 Hw2 Hw3.
    replace (n + 10 + i) with (4 + n + 4 + 1 + 1 + i) by lia.
    by eapply lookup_write_rows.
  - intros i item c v Hi Hc. pose proof (Hlt _ _ Hi). dig Hw1 Hw2 Hw3.
    replace (2 * n + 16 + i) with (2 * n + 10 + 4 + 1 + 1 + i) by lia.
    by eapply lookup_write_rows.
  - dig Hw1 Hw2 Hw3. by rewrite lookup_safe_write, decide_True by (split; lia).
  - dig Hw1 Hw2 Hw3. by rewrite lookup_safe_write, decide_True by (split; lia).
  - dig Hw1 Hw2 Hw3. by rewrite lookup_safe_write, decide_True by (split; lia).
  - dig Hw1 Hw2 Hw3. risk_total_cell.
  - dig Hw1 Hw2 Hw3. risk_total_cell.
  - dig Hw1 Hw2 Hw3. risk_total_cell.
  - dig Hw1 Hw2 Hw3. risk_total_cell.
  - dig Hw1 Hw2 Hw3. risk_total_cell.
  - risk_total_cell.
  - risk_total_cell.
  - risk_total_cell.
  - risk_total_cell.
  - risk_total_cell.
Qed.

End SummaryCells.

Section ColumnFacts.
Import Compare.

Lemma num_or_dash n : num (Some (or_dash n)) = n.
Proof. unfold or_dash. destruct n; done. Qed.

Lemma column_sum_cells (W : summary_sheet) (f : sheet_counts → nat) c
    (sd : summary_dict) : ∀ top,
  (∀ i item, sd !! i = Some item → W !! (top + i, c) = Some (or_dash (f item.2))) →
  column_sum W top c (length sd) = sum_list_with f sd.*2.
Proof.
  unfold column_sum.
  assert (∀ off top, (∀ i item, sd !! i = Some item →
                        W !! (top + (off + i), c) = Some (or_dash (f item.2))) →
            sum_list_with (λ i, num (W !! (top + i, c))) (seq off (length sd))
            = sum_list_with f sd.*2) as Hgen.
  { induction sd as [|item sd' IH]; intros off top Hcells; [done|].
    cbn [length seq sum_list_with fmap list_fmap].
    rewrite (IH (S off) top).
    - specialize (Hcells 0 item eq_refl). rewrite Nat.add_0_r in Hcells.
      by rewrite Hcells, num_or_dash.
    - intros i it Hi. specialize (Hcells (S i) it Hi).
      by replace (off + S i) with (S off + i) in Hcells by lia. }
  intros top Hcells. apply (Hgen 0 top). intros i item Hi. by apply Hcells.
Qed.

End ColumnFacts.

Section LabelFacts.
Import Compare.

Lemma row_cell_set (r : row) k v c :
  row_cell (set_row_cell r (S k) v) c = if decide (c = S k) then v else row_cell r c.
Proof.
  destruct c as [|c]; [done|]. cbn [row_cell set_row_cell].
  destruct (decide (S c = S k)) as [[= ->]|Hne].
  - rewrite list_lookup_insert_eq; [done|]. rewrite length_app, length_replicate. lia.
  - rewrite list_lookup_insert_ne by congruence.
    destruct (decide (c < length r)) as [Hlt|Hge].
    + by rewrite lookup_app_l.
    + rewrite lookup_app_r by lia. rewrite (lookup_ge_None_2 r c) by lia.
      destruct (replicate _ _ !! _) as [w|] eqn:E; [|done].
      by apply lookup_replicate in E as [-> _].
Qed.

Lemma ws_row_data (hdr : row) (data : list row) i :
  ws_row (hdr :: data) (S (S i)) = default [] (data !! i).
Proof. done. Qed.

(** The label the status loop writes for the row that survives at place
    [i]: that of the key read from the row after the insertion. *)
Lemma status_label cm q3 hdr data i r :
  survivors cm ∅ data !! i = Some r →
  cell (process_sheet cm q3 (hdr :: data)).1 (2 + i) (cName cm + 1)
  = VStr (status_text
            (categorize q3 (row_fingerprint cm (insert_row_cell (cName cm + 1) r)))).
Proof.
  intros Hi. rewrite process_sheet_rows. cbn zeta. cbn [fst].
  unfold cell. change (2 + i) with (S (S i)).
  rewrite ws_row_data, !list_lookup_fmap, Hi.
  cbn [fmap option_fmap option_map default from_option id].
  unfold mark_row. replace (cName cm + 1) with (S (cName cm)) by lia.
  by rewrite row_cell_set, decide_True.
Qed.

End LabelFacts.

(** * The claims *)

Section ComparisonClaims.
Import Compare.





(** C2: the prior set holds the fingerprints of the prior records of all
    sheets whose standardized Plugin ID is not empty, and the label written
    is "New Issue" exactly when the key that was read is not in that set.
    When the columns that are read stand left of Name, every surviving row
    gets the label and the count of its own fingerprint and risk. At the
    failing input, a sheet whose header has Name before the fingerprint
    columns, the fingerprint of the only row is in the prior set, yet the row
    is labelled "New Issue" and counted as new without a risk. *)
Theorem classification_against_prior_set :
  (∀ q3_dict f,
     f ∈ q3_existing_issues q3_dict ↔
     ∃ s, s ∈ df_q3_all q3_dict ∧ q3_fingerprint s = f ∧ f.1.1.1 ≠ "")
  ∧ (∀ q3 f, status_text (categorize q3 f) = "New Issue" ↔ f ∉ q3)
  ∧ (∀ cm q3 hdr data,
       Forall (λ nc, nc.2 < cName cm) (read_cols cm) →
       process_sheet cm q3 (hdr :: data)
       = (set_row_cell (insert_row_cell (cName cm + 1) hdr) (cName cm + 1)
                       (VStr "Status")
            :: (label_row cm q3 <$> survivors cm ∅ data),
          intended_counts cm q3 (survivors cm ∅ data)))
  ∧ (let cm := ColMap 2 3 4 5 1 6 in
     let q3 := q3_existing_issues q3_example in
     let out := process_sheet cm q3 sheet_name_first in
     make_col_map (headers sheet_name_first) = Some cm
     ∧ fingerprint_at cm sheet_name_first 2 ∈ q3
     ∧ cell out.1 2 (cName cm + 1) = VStr "New Issue"
     ∧ out.2 = SheetCounts (Counts 1 0 0 0 0) counts0).
Proof.
  split; [apply elem_of_q3_existing_issues|].
  split; [apply status_text_new|].
  split; [apply process_sheet_left_of_name|].
  cbv zeta. split; [by vm_compute|]. split; [|split; by vm_compute].
  apply (bool_decide_unpack _). by vm_compute.
Qed.

(** C2, an instance: on the sheet in export order the counts are those of
    the intended columns. *)
Lemma classification_witness :
  (process_sheet (ColMap 1 3 4 5 6 2) (q3_existing_issues q3_example)
                 sheet_export_order).2
  = intended_counts (ColMap 1 3 4 5 6 2) (q3_existing_issues q3_example)
      (survivors (ColMap 1 3 4 5 6 2) ∅ (drop 1 sheet_export_order)).
Proof.
  refine (f_equal snd
            (proj1 (proj2 (proj2 classification_against_prior_set))
                   (ColMap 1 3 4 5 6 2) (q3_existing_issues q3_example)
                   _ _ _)).
  repeat constructor.
Defined.

(** C6: the sheet after deduplication is the header followed by the rows
    that have a Plugin ID cell (not [None]) and are the first such row with
    their fingerprint, in sheet order; the other rows are removed from the
    sheet ([max_row] shrinks accordingly). At the failing input, a row without
    Plugin ID is followed by a row whose Plugin ID cell holds a blank and
    whose other cells are the same: the second row survives, although its
    standardized Plugin ID is empty and it is not the first row with its
    fingerprint, under both readings of "empty/missing". *)
Theorem sheet_dedup_keeps_first_present :
  (∀ cm hdr data,
     dedup_sheet cm (hdr :: data) = hdr :: first_present_rows cm data
     ∧ max_row (dedup_sheet cm (hdr :: data))
       = 1 + length (first_present_rows cm data)
     ∧ Forall (plugin_present cm) (first_present_rows cm data)
     ∧ sublist (first_present_rows cm data) data)
  ∧ (let cm := ColMap 1 3 4 5 6 2 in
     let data := drop 1 sheet_blank_plugin in
     make_col_map (headers sheet_blank_plugin) = Some cm
     ∧ dedup_sheet cm sheet_blank_plugin
       = take 1 sheet_blank_plugin
         ++ [[VStr " "; VStr "High"; VStr "h1"; VStr "tcp"; VInt 80; VStr "x"]]
     ∧ standardize (VStr " ") = ""
     ∧ first_overall_rows missing_cell cm data = []
     ∧ first_overall_rows blank_cell cm data = []).
Proof.
  split.
  - intros cm hdr data.
    rewrite dedup_sheet_survivors, survivors_first_present.
    split; [done|]. split; [done|].
    rewrite <- survivors_first_present. split; [apply survivors_present|].
    unfold survivors. etrans; [apply keep_first_sublist|apply sublist_filter].
  - cbv zeta. repeat split; by vm_compute.
Qed.

(** C9: deduplicating twice gives the same records as deduplicating once, for
    [drop_duplicates] and for the in-place deduplication of a sheet. *)
Theorem deduplication_idempotent :
  (∀ df, Summary.drop_duplicates (Summary.drop_duplicates df)
         = Summary.drop_duplicates df)
  ∧ (∀ cm ws, dedup_sheet cm (dedup_sheet cm ws) = dedup_sheet cm ws).
Proof.
  split.
  - intros df. apply keep_first_idem.
  - intros cm [|hdr data]; [done|].
    rewrite !dedup_sheet_survivors. by rewrite survivors_idem.
Qed.



(** C5: in the RecurrenceSummary sheet of [n] domains, the first table has
    its rows from row 4 and its grand total in row 4 + n (columns 3 to 5: new,
    existing, total), the second its rows from row n + 10 and its grand total
    in row 2n + 10, the third its rows from row 2n + 16 and its grand total in
    row 3n + 16 (columns 3 to 6: the risks, 7: total). Every grand-total cell
    stands for the sum of the cells above it in its table, a dash standing
    for zero; the grand total of new issues of the first table is the sum of
    the total column of the second, and that of existing issues is the sum
    of the total column of the third. *)
Theorem grand_totals_are_column_sums sd :
  let n := length sd in
  let W := recurrence_summary sd in
  Forall (λ c, num (W !! (4 + n, c)) = column_sum W 4 c n) [3; 4; 5]
  ∧ Forall (λ c, num (W !! (2 * n + 10, c)) = column_sum W (n + 10) c n)
           [3; 4; 5; 6; 7]
  ∧ Forall (λ c, num (W !! (3 * n + 16, c)) = column_sum W (2 * n + 16) c n)
           [3; 4; 5; 6; 7]
  ∧ num (W !! (4 + n, 3)) = column_sum W (n + 10) 7 n
  ∧ num (W !! (4 + n, 4)) = column_sum W (2 * n + 16) 7 n
  ∧ (∀ i item, sd !! i = Some item →
       W !! (4 + i, 2) = Some (SText item.1)
       ∧ W !! (4 + i, 3) = Some (or_dash (TOTAL (of_new item.2)))
       ∧ W !! (4 + i, 4) = Some (or_dash (TOTAL (of_existing item.2)))
       ∧ W !! (n + 10 + i, 7) = Some (or_dash (TOTAL (of_new item.2)))
       ∧ W !! (2 * n + 16 + i, 7) = Some (or_dash (TOTAL (of_existing item.2)))).
Proof.
  intros n W.
  destruct (recurrence_summary_cells sd)
    as (HA & HB & HC & (HA3 & HA4 & HA5) & (HB3 & HB4 & HB5 & HB6 & HB7)
        & (HC3 & HC4 & HC5 & HC6 & HC7)).
  fold n W in HA, HB, HC, HA3, HA4, HA5, HB3, HB4, HB5, HB6, HB7,
    HC3, HC4, HC5, HC6, HC7.
  assert (HcolA : ∀ c f, (∀ item, cell_of (table1_cells item) c = Some (or_dash (f item.2))) →
            column_sum W 4 c n = sum_list_with f sd.*2).
  { intros c f Hf. apply column_sum_cells. intros i item Hi.
    by apply (HA i item). }
  assert (HcolB : ∀ c f, (∀ item, cell_of (risk_cells of_new item) c = Some (or_dash (f item.2))) →
            column_sum W (n + 10) c n = sum_list_with f sd.*2).
  { intros c f Hf. apply column_sum_cells. intros i item Hi.
    by apply (HB i item). }
  assert (HcolC : ∀ c f, (∀ item, cell_of (risk_cells of_existing item) c = Some (or_dash (f item.2))) →
            column_sum W (2 * n + 16) c n = sum_list_with f sd.*2).
  { intros c f Hf. apply column_sum_cells. intros i item Hi.
    by apply (HC i item). }
  split; [|split; [|split; [|split; [|split]]]].
  - repeat constructor.
    + rewrite HA3, num_or_dash. symmetry. by apply HcolA.
    + rewrite HA4, num_or_dash. symmetry. by apply HcolA.
    + rewrite HA5, num_or_dash. symmetry.
      rewrite (HcolA 5 (λ d, TOTAL (of_new d) + TOTAL (of_existing d))) by done.
      clear. induction (sd.*2) as [|d l IH]; [done|]. cbn. rewrite IH. lia.
  - repeat constructor.
    + rewrite HB3, num_or_dash. symmetry. by apply HcolB.
    + rewrite HB4, num_or_dash. symmetry. by apply HcolB.
    + rewrite HB5, num_or_dash. symmetry. by apply HcolB.
    + rewrite HB6, num_or_dash. symmetry. by apply HcolB.
    + rewrite HB7, num_or_dash. symmetry. by apply HcolB.
  - repeat constructor.
    + rewrite HC3, num_or_dash. symmetry. by apply HcolC.
    + rewrite HC4, num_or_dash. symmetry. by apply HcolC.
    + rewrite HC5, num_or_dash. symmetry. by apply HcolC.
    + rewrite HC6, num_or_dash. symmetry. by apply HcolC.
    + rewrite HC7, num_or_dash. symmetry. by apply HcolC.
  - rewrite HA3, num_or_dash. symmetry. by apply HcolB.
  - rewrite HA4, num_or_dash. symmetry. by apply HcolC.
  - intros i item Hi. repeat split.
    + by apply (HA i item).
    + by apply (HA i item).
    + by apply (HA i item).
    + by apply (HB i item).
    + by apply (HC i item).
Qed.

(** C5, an instance: with one domain that has three new issues, the cell of
    new issues in row 4 holds 3. *)
Lemma grand_totals_witness :
  recurrence_summary [("a", SheetCounts (Counts 3 1 0 1 0) counts0)] !! (4, 3)
  = Some (SNum 3).
Proof.
  exact (proj1 (proj2 (proj2 (proj2 (proj2 (proj2 (proj2
           (grand_totals_are_column_sums
              [("a", SheetCounts (Counts 3 1 0 1 0) counts0)])))))
           0 _ eq_refl))).
Defined.

End ComparisonClaims.

Section SummaryClaims.
Import Summary.

(** C4: the rows of every table the script writes are ordered by risk in the
    precedence Critical, High, Medium, then by larger total first, then by
    name in ascending order: each row stands in this order before every later
    row. The order compares any two rows, and it sorts the three rows of the
    example (A, High, 5), (B, Critical, 2), (C, Critical, 2) as B, C, A. *)
Theorem report_rows_are_ordered files t :
  output_file (main files) = Some t →
  StronglySorted report_before (rows t)
  ∧ (∀ a b, report_before a b ∨ report_before b a)
  ∧ sort_values [ReportRow "A" "High" (Some 5) "h1" 5;
                 ReportRow "B" "Critical" (Some 2) "h1" 2;
                 ReportRow "C" "Critical" (Some 2) "h1" 2]
    = [ReportRow "B" "Critical" (Some 2) "h1" 2;
       ReportRow "C" "Critical" (Some 2) "h1" 2;
       ReportRow "A" "High" (Some 5) "h1" 5].
Proof.
  intros Hout. split; [|split; [apply report_before_total|by vm_compute]].
  unfold main in Hout.
  destruct (read_loop files [] []) as [[[|d ds]|] log]; [done| |done].
  destruct (filter _ _) as [|f fs] eqn:Ef; cbn [output_file] in Hout;
    injection Hout as <-.
  { constructor. }
  cbn [rows]. apply report_sorted. rewrite <- Ef.
  apply list.Forall_forall. by intros r [? _]%list_elem_of_filter.
Qed.

(** C4, an instance: a table of three rows written by the script. *)
Lemma report_rows_ordered_witness :
  let files :=
    [("a.csv", Csv [Finding (Some "A") (Some "High") (Some "h1") (VInt 80) "";
                    Finding (Some "A") (Some "High") (Some "h2") (VInt 80) "";
                    Finding (Some "B") (Some "Critical") (Some "h1") (VInt 22) ""])] in
  let t := Table output_columns
             [ReportRow "B" "Critical" (Some 1) "h1" 1;
              ReportRow "A" "High" (Some 2) "h1" 1;
              ReportRow "A" "High" (Some 2) "h2" 1] in
  output_file (main files) = Some t ∧ StronglySorted report_before (rows t).
Proof.
  cbv zeta.
  assert (H : output_file (main
    [("a.csv", Csv [Finding (Some "A") (Some "High") (Some "h1") (VInt 80) "";
                    Finding (Some "A") (Some "High") (Some "h2") (VInt 80) "";
                    Finding (Some "B") (Some "Critical") (Some "h1") (VInt 22) ""])])
    = Some (Table output_columns
             [ReportRow "B" "Critical" (Some 1) "h1" 1;
              ReportRow "A" "High" (Some 2) "h1" 1;
              ReportRow "A" "High" (Some 2) "h2" 1]))
    by (vm_compute; reflexivity).
  split; [exact H|].
  exact (proj1 (report_rows_are_ordered _ _ H)).
Defined.

(** C7: when the loop has read at least one file and no record left after
    deduplication has a risk of the allow-list, the script writes the table
    with the five column names and no rows and leaves through [sys.exit(0)]. *)
Theorem empty_result_written files all_dfs log :
  read_loop files [] [] = (Some all_dfs, log) → all_dfs ≠ [] →
  Forall (λ r, ∀ s, Risk r = Some s → s ∉ target_risks)
         (drop_duplicates (concat all_dfs)) →
  main files
  = Outcome (SysExit 0)
            (Some (Table ["Name"; "Risk"; "Total_Count"; "Host"; "Per_Host_Count"] []))
            (log ++ [NoDataRemaining]).
Proof.
  intros Hread Hne Hrisk. unfold main. rewrite Hread.
  destruct all_dfs as [|d ds]; [done|].
  rewrite filter_nil_Forall; [done|].
  eapply Forall_impl; [exact Hrisk|]. intros r Hr Hin. cbn beta in *.
  destruct (Risk r) as [s|]; [|done]. cbn in Hin.
  apply bool_decide_unpack in Hin. by apply (Hr s).
Qed.

(** C7, an instance: one file whose only finding has risk Low. *)
Lemma empty_result_witness :
  main [("a.csv", Csv [Finding (Some "x") (Some "Low") (Some "h1") (VInt 80) ""])]
  = Outcome (SysExit 0)
            (Some (Table ["Name"; "Risk"; "Total_Count"; "Host"; "Per_Host_Count"] []))
            [NoDataRemaining].
Proof.
  refine (empty_result_written
            [("a.csv", Csv [Finding (Some "x") (Some "Low") (Some "h1") (VInt 80) ""])]
            [[Finding (Some "x") (Some "Low") (Some "h1") (VInt 80) "a.csv"]] []
            eq_refl _ _).
  - discriminate.
  - vm_compute. constructor; [|constructor].
    intros s [= <-]. vm_compute. intros H.
    repeat (apply elem_of_cons in H as [H|H]; [discriminate H|]).
    by apply elem_of_nil in H.
Defined.

(** C8, as stated, fails for a file that exists and cannot be read: although
    another file was read, the run ends in the handler of [except Exception]
    and writes nothing. *)
Lemma unreadable_file_ends_run :
  let files := [("a.csv", Csv [Finding (Some "x") (Some "High") (Some "h1") (VInt 80) ""]);
                ("b.csv", Unreadable)] in
  Exists (λ e, ∃ df_part, e.2 = Csv df_part) files
  ∧ main files = Outcome Handled None [UnexpectedError].
Proof.
  cbv zeta. split; [|done]. apply Exists_cons_hd. by eexists.
Qed.

(** C8, amended: when no file is unreadable, the files that are not found are
    skipped with a warning each and the run ends and writes as it does on
    the remaining files, so that a table is written when at least one file
    was read; when some file exists and cannot be read, the run ends in the
    handler of [except Exception] without writing. *)
Theorem missing_files_are_skipped files :
  (Forall (λ e, e.2 ≠ Unreadable) files →
   let o := main files in
   let o' := main (filter (λ e, e.2 ≠ NotFound) files) in
   ended o = ended o' ∧ output_file o = output_file o'
   ∧ printed o = warnings files ++ printed o'
   ∧ (Exists (λ e, ∃ df_part, e.2 = Csv df_part) files →
      is_Some (output_file o)))
  ∧ (Exists (λ e, e.2 = Unreadable) files →
     ended (main files) = Handled ∧ output_file (main files) = None).
Proof.
  split.
  - intros Hall o o'. unfold o, o'.
    assert (Forall (λ e : string * file_state, e.2 ≠ Unreadable)
                   (filter (λ e, e.2 ≠ NotFound) files)) as Hall'.
    { apply list.Forall_forall. intros e [_ He]%list_elem_of_filter.
      by apply (proj1 (list.Forall_forall _ _) Hall). }
    rewrite (main_readable _ Hall), (main_readable _ Hall').
    rewrite frames_skip_missing, warnings_skip_missing.
    destruct (frames files) as [|d ds] eqn:Ef.
    + cbn. repeat split; try done.
      intros Hex. by apply frames_nonempty in Hex.
    + destruct (filtered (d :: ds)); cbn; repeat split; eauto.
  - intros Hex. unfold main.
    pose proof (read_loop_unreadable files [] [] Hex) as Hr.
    destruct (read_loop files [] []) as [[dfs|] log]; [done|]. done.
Qed.

(** C8, an instance: a file that is not found next to a file that is read. *)
Lemma missing_files_witness :
  output_file (main [("a.csv", Csv [Finding (Some "x") (Some "High") (Some "h1") (VInt 80) ""]);
                     ("b.csv", NotFound)])
  = output_file (main [("a.csv", Csv [Finding (Some "x") (Some "High") (Some "h1") (VInt 80) ""])]).
Proof.
  refine (proj1 (proj2 (proj1 (missing_files_are_skipped
    [("a.csv", Csv [Finding (Some "x") (Some "High") (Some "h1") (VInt 80) ""]);
     ("b.csv", NotFound)]) _))).
  repeat constructor; discriminate.
Defined.

(** C3: every row of the report has a total (the left join leaves no null),
    and when every finding with a name and a risk also has a host, the total
    of a row is the sum of the per-host counts of the rows with its name and
    risk. At the failing input, of two findings with the same name and risk
    one has no host: grouping by name, risk and host leaves it out while
    grouping by name and risk counts it, so the only row of the table has
    total 2 and the per-host counts of its name and risk sum to 1. *)
Theorem totals_and_per_host_counts :
  (∀ df row, row ∈ report df → is_Some (r_Total_Count row))
  ∧ (∀ df row,
       Forall (λ r, is_Some (name_risk r) → is_Some (Host r)) df →
       row ∈ report df →
       r_Total_Count row
       = Some (per_host_sum (r_Name row) (r_Risk row) (report df)))
  ∧ (let files :=
       [("a.csv", Csv [Finding (Some "A") (Some "High") (Some "h1") (VInt 80) "";
                       Finding (Some "A") (Some "High") None (VInt 443) ""])] in
     let rows_out := [ReportRow "A" "High" (Some 2) "h1" 1] in
     main files = Outcome Finished (Some (Table output_columns rows_out)) [Saved]
     ∧ per_host_sum "A" "High" rows_out = 1).
Proof.
  split; [|split].
  - intros df row Hrow. apply elem_of_report in Hrow as (_ & -> & _). by eexists.
  - apply totals_match_when_hosts_present.
  - cbv zeta. split; by vm_compute.
Qed.

(** C3, an instance: two findings with the same name and risk on two hosts. *)
Lemma totals_witness :
  r_Total_Count (ReportRow "A" "High" (Some 2) "h1" 1)
  = Some (per_host_sum "A" "High"
            (report [Finding (Some "A") (Some "High") (Some "h1") (VInt 80) "a.csv";
                     Finding (Some "A") (Some "High") (Some "h2") (VInt 80) "a.csv"])).
Proof.
  refine (proj1 (proj2 totals_and_per_host_counts)
            [Finding (Some "A") (Some "High") (Some "h1") (VInt 80) "a.csv";
             Finding (Some "A") (Some "High") (Some "h2") (VInt 80) "a.csv"]
            (ReportRow "A" "High" (Some 2) "h1" 1) _ _).
  - repeat constructor; intros _; by eexists.
  - vm_compute. apply list_elem_of_here.
Defined.

End SummaryClaims.

(** * Further properties *)

(** ** Normal form of standardized text *)

Section NormalFormFacts.
Import Text.

Lemma upper_char_variant c : case_variant c (upper_char c).
Proof.
  unfold case_variant, upper_char. destruct (is_lower c) eqn:E; [|by left].
  right. left. split; [done|].
  unfold is_lower in E. apply andb_true_iff in E as [E1 E2].
  apply Nat.leb_le in E1, E2.
  rewrite nat_ascii_embedding by lia. lia.
Qed.

Lemma is_lower_upper_char c : is_lower (upper_char c) = false.
Proof.
  unfold upper_char. destruct (is_lower c) eqn:E; [|done].
  unfold is_lower in *. apply andb_true_iff in E as [E1 E2].
  apply Nat.leb_le in E1, E2. rewrite nat_ascii_embedding by lia.
  apply andb_false_iff. left. apply Nat.leb_gt. lia.
Qed.

Lemma upper_char_idem c : upper_char (upper_char c) = upper_char c.
Proof. unfold upper_char at 1. by rewrite is_lower_upper_char. Qed.

Lemma upper_idem s : upper (upper s) = upper s.
Proof. induction s as [|c s IH]; cbn; [done|]. by rewrite upper_char_idem, IH. Qed.

Lemma is_space_upper_char c : is_space (upper_char c) = is_space c.
Proof. symmetry. apply case_variant_space, upper_char_variant. Qed.

Lemma lstrip_upper s : lstrip (upper s) = upper (lstrip s).
Proof.
  induction s as [|c s IH]; cbn; [done|].
  rewrite is_space_upper_char. by destruct (is_space c).
Qed.

Lemma rstrip_upper s : rstrip (upper s) = upper (rstrip s).
Proof.
  induction s as [|c s IH]; cbn; [done|].
  rewrite IH, is_space_upper_char.
  destruct (rstrip s); cbn; [by destruct (is_space c)|done].
Qed.

Lemma strip_upper s : strip (upper s) = upper (strip s).
Proof. unfold strip. by rewrite lstrip_upper, rstrip_upper. Qed.

Lemma lstrip_starts_clean s : starts_clean (lstrip s).
Proof.
  induction s as [|c s IH]; cbn; [done|].
  destruct (is_space c) eqn:E; [done|]. by cbn.
Qed.

Lemma lstrip_clean s : starts_clean s → lstrip s = s.
Proof. destruct s as [|c s]; cbn; [done|]. by intros ->. Qed.

Lemma rstrip_starts_clean s : starts_clean s → starts_clean (rstrip s).
Proof.
  destruct s as [|c s]; cbn; [done|]. intros Hc.
  destruct (rstrip s); cbn; [by rewrite Hc|done].
Qed.

Lemma rstrip_idem s : rstrip (rstrip s) = rstrip s.
Proof.
  induction s as [|c s IH]; cbn; [done|].
  destruct (rstrip s) as [|d r] eqn:E.
  - destruct (is_space c) eqn:Ec; cbn; [done|]. by rewrite Ec.
  - cbn. cbn in IH. by rewrite IH.
Qed.

Lemma strip_idem s : strip (strip s) = strip s.
Proof.
  unfold strip. rewrite (lstrip_clean (rstrip (lstrip s))).
  - apply rstrip_idem.
  - apply rstrip_starts_clean, lstrip_starts_clean.
Qed.

End NormalFormFacts.

Section NormalFormProperties.
Import Compare.

(** X1: a standardized value is a fixed point of trimming, of upper-casing
    and of [standardize] itself, and a missing value standardizes to the
    empty string. *)
Theorem standardize_normal_form v :
  let s := standardize v in
  Text.strip s = s ∧ Text.upper s = s ∧ standardize (VStr s) = s
  ∧ (is_na v = true → s = "").
Proof.
  cbv zeta. unfold standardize. destruct (is_na v) eqn:E; [done|].
  assert (Text.strip (Text.upper (Text.strip (py_str v)))
          = Text.upper (Text.strip (py_str v))) as Hs
    by (by rewrite strip_upper, strip_idem).
  assert (Text.upper (Text.upper (Text.strip (py_str v)))
          = Text.upper (Text.strip (py_str v))) as Hu by apply upper_idem.
  repeat split; try done. cbn [is_na py_str]. by rewrite Hs, Hu.
Qed.

End NormalFormProperties.

(** ** The column map of a sheet *)

Section ColumnMapFacts.
Import Compare.

Lemma index_None (hs : list string) name : index hs name = None ↔ name ∉ hs.
Proof.
  unfold index. rewrite fmap_None, list_find_None, list.Forall_forall.
  split.
  - intros Hn Hin. by apply (Hn name).
  - intros Hn x Hx ->. done.
Qed.

Lemma make_col_map_None hs :
  make_col_map hs = None ↔ ∃ name, name ∈ required_cols ∧ name ∉ hs.
Proof.
  unfold make_col_map, required_cols, match_cols. split.
  - intros Hn.
    destruct (index hs "Plugin ID") eqn:E1;
      [|exists "Plugin ID"; split; [repeat constructor|by apply index_None]].
    destruct (index hs "Host") eqn:E2;
      [|exists "Host"; split; [repeat constructor|by apply index_None]].
    destruct (index hs "Protocol") eqn:E3;
      [|exists "Protocol"; split; [repeat constructor|by apply index_None]].
    destruct (index hs "Port") eqn:E4;
      [|exists "Port"; split; [repeat constructor|by apply index_None]].
    destruct (index hs "Name") eqn:E5;
      [|exists "Name"; split; [repeat constructor|by apply index_None]].
    destruct (index hs "Risk") eqn:E6;
      [|exists "Risk"; split; [repeat constructor|by apply index_None]].
    done.
  - intros (name & Hin & Hno). apply index_None in Hno.
    cbn [app] in Hin.
    repeat (apply elem_of_cons in Hin as [->|Hin];
            [rewrite Hno;
             repeat (match goal with
                     | |- context [index hs ?n] => destruct (index hs n); cbn
                     end); done|]).
    by apply elem_of_nil in Hin.
Qed.

Lemma header_name_required i v name :
  name ∈ required_cols → header_name i v = name ↔ names_column name v.
Proof.
  intros Hin. unfold header_name, names_column.
  destruct (truthy v); [split; [done|by intros [_ ?]]|].
  split; [|by intros [? _]]. intros Hb. exfalso.
  unfold required_cols, match_cols in Hin. cbn [app] in Hin.
  repeat (apply elem_of_cons in Hin as [->|Hin]; [by cbn in Hb|]).
  by apply elem_of_nil in Hin.
Qed.

Lemma elem_of_headers ws name :
  name ∈ required_cols →
  name ∈ headers ws ↔ ∃ v, v ∈ ws_row ws 1 ∧ names_column name v.
Proof.
  intros Hreq. unfold headers. split.
  - intros Hin. apply list_elem_of_lookup in Hin as [i Hi].
    rewrite list_lookup_imap in Hi.
    destruct (ws_row ws 1 !! i) as [v|] eqn:E; [|done].
    cbn in Hi. injection Hi as Hi. exists v. split.
    + by eapply list_elem_of_lookup_2.
    + by apply (header_name_required i).
  - intros (v & Hv & Hn). apply list_elem_of_lookup in Hv as [i Hi].
    apply list_elem_of_lookup. exists i. rewrite list_lookup_imap, Hi. cbn.
    f_equal. by apply header_name_required.
Qed.

Lemma row_cell_lookup (r : row) c v : r !! c = Some v → row_cell r (S c) = v.
Proof. intros H. cbn. by rewrite H. Qed.

Lemma named_cols_required cm : Forall (λ nc, nc.1 ∈ required_cols) (named_cols cm).
Proof. repeat constructor. Qed.

End ColumnMapFacts.

Section ColumnMapProperties.
Import Compare.

(** X2: a sheet is skipped exactly when, for one of the six column names, no
    cell of its header row is non-empty and reads as that name once its text
    is trimmed. *)
Theorem sheet_skipped_iff_header_missing ws :
  make_col_map (headers ws) = None ↔
  ∃ name, name ∈ required_cols
          ∧ ∀ v, v ∈ ws_row ws 1 → ¬ names_column name v.
Proof.
  rewrite make_col_map_None. split.
  - intros (name & Hreq & Hno). exists name. split; [done|].
    intros v Hv Hn. apply Hno. apply elem_of_headers; [done|]. by exists v.
  - intros (name & Hreq & Hno). exists name. split; [done|].
    intros (v & Hv & Hn)%elem_of_headers; [|done]. by apply (Hno v).
Qed.

(** X3: the column map of a sheet that is processed gives, for each of the
    six names, the number of the first header cell that carries the name;
    the six numbers lie within the header row and are pairwise distinct. *)
Theorem col_map_points_at_headers ws cm :
  make_col_map (headers ws) = Some cm →
  Forall (λ nc, 1 ≤ nc.2 ≤ length (ws_row ws 1)
                ∧ names_column nc.1 (cell ws 1 nc.2)
                ∧ ∀ c, 1 ≤ c < nc.2 → ¬ names_column nc.1 (cell ws 1 c))
         (named_cols cm)
  ∧ NoDup (named_cols cm).*2.
Proof.
  intros Hcm. pose proof (make_col_map_inv _ _ Hcm) as Hinv.
  fold (named_cols cm) in Hinv.
  assert (Forall (λ nc, 1 ≤ nc.2 ≤ length (ws_row ws 1)
                ∧ names_column nc.1 (cell ws 1 nc.2)
                ∧ ∀ c, 1 ≤ c < nc.2 → ¬ names_column nc.1 (cell ws 1 c))
         (named_cols cm)) as Hall.
  { pose proof (named_cols_required cm) as Hreq.
    apply list.Forall_forall. intros [name n] Hin.
    pose proof (proj1 (list.Forall_forall _ _) Hinv _ Hin) as [Hpos Hidx].
    pose proof (proj1 (list.Forall_forall _ _) Hreq _ Hin) as Hr.
    cbn [fst snd] in *.
    apply index_Some in Hidx as [Hat Hfirst]. unfold headers in Hat, Hfirst.
    rewrite list_lookup_imap in Hat.
    destruct (ws_row ws 1 !! (n - 1)) as [v|] eqn:E; [|done].
    cbn in Hat. injection Hat as Hat.
    pose proof (lookup_lt_Some _ _ _ E) as Hlt.
    split; [lia|]. unfold cell. split.
    - destruct n as [|n]; [lia|]. replace (S n - 1) with n in * by lia.
      rewrite (row_cell_lookup _ _ _ E).
      by apply (header_name_required n).
    - intros c [Hc1 Hc2] Hn. destruct c as [|c]; [lia|].
      apply (Hfirst c); [lia|]. rewrite list_lookup_imap.
      destruct (ws_row ws 1 !! c) as [w|] eqn:Ec.
      + rewrite (row_cell_lookup _ _ _ Ec) in Hn. cbn. f_equal.
        by apply header_name_required.
      + exfalso. apply lookup_ge_None in Ec. lia. }
  split; [done|].
  (* different names cannot stand in the same cell *)
  apply (NoDup_fmap_1 (λ c, Text.strip (py_str (cell ws 1 c)))).
  replace ((λ c, Text.strip (py_str (cell ws 1 c))) <$> (named_cols cm).*2)
    with (named_cols cm).*1.
  { apply (bool_decide_unpack _). by vm_compute. }
  clear Hinv Hcm. induction Hall as [|nc l (_ & [_ Hn] & _) _ IH]; [done|].
  cbn [fmap list_fmap]. by rewrite Hn, IH.
Qed.

(** X3, an instance: the sheet in export order. *)
Lemma col_map_witness :
  make_col_map (headers sheet_export_order) = Some (ColMap 1 3 4 5 6 2)
  ∧ NoDup (named_cols (ColMap 1 3 4 5 6 2)).*2.
Proof.
  assert (H : make_col_map (headers sheet_export_order) = Some (ColMap 1 3 4 5 6 2))
    by (vm_compute; reflexivity).
  split; [exact H|].
  exact (proj2 (col_map_points_at_headers sheet_export_order _ H)).
Defined.

End ColumnMapProperties.

(** ** The loop over the sheets *)

Section SheetLoopFacts.
Import Compare.
Variable q3 : gset fingerprint.

Lemma dict_set_fresh (d : summary_dict) k v :
  k ∉ d.*1 → dict_set d k v = d ++ [(k, v)].
Proof.
  induction d as [|[k' v'] d IH]; intros Hk; [done|].
  cbn [fmap list_fmap fst] in Hk. apply not_elem_of_cons in Hk as [Hne Hk].
  cbn [dict_set]. destruct (String.eqb_spec k' k) as [->|_]; [done|].
  by rewrite IH.
Qed.

Lemma sheet_entry_name e x : sheet_entry q3 e = Some x → x.1 = e.1.
Proof.
  unfold sheet_entry. destruct (make_col_map _); [|done]. by intros [= <-].
Qed.

Lemma omap_sheet_entry_names (wb : workbook) name :
  name ∈ (omap (sheet_entry q3) wb).*1 → name ∈ wb.*1.
Proof.
  intros Hin. apply list_elem_of_fmap in Hin as (x & -> & Hx).
  apply list_elem_of_omap in Hx as (e & He & Hx).
  apply sheet_entry_name in Hx. rewrite Hx.
  apply list_elem_of_fmap. by exists e.
Qed.

Lemma sheet_loop (wb : workbook) : ∀ (out : workbook) (sd : summary_dict),
  (foldl (sheet_step q3) (out, sd) wb).1 = out ++ (processed_sheet q3 <$> wb).
Proof.
  induction wb as [|e wb IH]; intros out sd; cbn [foldl fmap list_fmap].
  { by rewrite app_nil_r. }
  destruct (sheet_step q3 (out, sd) e) as [o s] eqn:E. rewrite IH.
  assert (o = out ++ [processed_sheet q3 e]) as ->.
  { unfold sheet_step, processed_sheet in *.
    destruct (make_col_map (headers e.2)); cbn [fst snd] in E;
      by injection E as <- _. }
  by rewrite <- app_assoc.
Qed.

Lemma omap_sheet_entry_snoc (pre : workbook) e :
  omap (sheet_entry q3) (pre ++ [e])
  = omap (sheet_entry q3) pre
    ++ match make_col_map (headers e.2) with
       | Some cm => [(e.1, (process_sheet cm q3 e.2).2)]
       | None => []
       end.
Proof.
  rewrite omap_app. f_equal. cbn [omap list_omap]. unfold sheet_entry.
  destruct (make_col_map (headers e.2)); reflexivity.
Qed.

Lemma summary_loop (wb : workbook) : ∀ (pre : workbook) (out : workbook),
  NoDup (pre ++ wb).*1 →
  (foldl (sheet_step q3) (out, omap (sheet_entry q3) pre) wb).2
  = omap (sheet_entry q3) (pre ++ wb).
Proof.
  induction wb as [|e wb IH]; intros pre out Hnd; cbn [foldl].
  { by rewrite app_nil_r. }
  assert (e.1 ∉ (omap (sheet_entry q3) pre).*1) as Hfresh.
  { intros Hin%omap_sheet_entry_names.
    rewrite fmap_app in Hnd. apply NoDup_app in Hnd as (_ & Hd & _).
    apply (Hd _ Hin). cbn. left. }
  replace (pre ++ e :: wb) with ((pre ++ [e]) ++ wb) in * by by rewrite <- app_assoc.
  assert (∃ out', sheet_step q3 (out, omap (sheet_entry q3) pre) e
                  = (out', omap (sheet_entry q3) (pre ++ [e]))) as [out' ->].
  { rewrite omap_sheet_entry_snoc. unfold sheet_step. cbn [fst snd].
    destruct (make_col_map (headers e.2)) as [cm|]; eexists.
    - by rewrite dict_set_fresh by done.
    - by rewrite app_nil_r. }
  by apply IH.
Qed.

End SheetLoopFacts.

Section SheetLoopProperties.
Import Compare.

(** X4: the sheets are processed one by one, each from its own content: the
    workbook after the loop has the same sheets under the same names in the
    same order, and a sheet whose header row lacks one of the six columns is
    left as it was. *)
Theorem sheets_processed_one_by_one q3 wb :
  (process_sheets q3 wb).1 = processed_sheet q3 <$> wb
  ∧ (process_sheets q3 wb).1.*1 = wb.*1
  ∧ (∀ i e, wb !! i = Some e → make_col_map (headers e.2) = None →
            (process_sheets q3 wb).1 !! i = Some e).
Proof.
  assert ((process_sheets q3 wb).1 = processed_sheet q3 <$> wb) as Heq.
  { unfold process_sheets. by rewrite (sheet_loop q3 wb [] []). }
  split; [done|]. rewrite Heq. split.
  - rewrite <- list_fmap_compose. apply list_fmap_ext. intros _ e _. cbn.
    unfold processed_sheet. by destruct (make_col_map _).
  - intros i e Hi Hno. rewrite list_lookup_fmap, Hi. cbn.
    unfold processed_sheet. by rewrite Hno.
Qed.

(** X5: [summary_data] has one entry for every sheet that has the six
    columns, under the name of the sheet and in workbook order, with the
    counts of that sheet; a sheet that is skipped has no entry. *)
Theorem summary_lists_processed_sheets q3 wb :
  NoDup wb.*1 →
  (process_sheets q3 wb).2 = omap (sheet_entry q3) wb
  ∧ (process_sheets q3 wb).2.*1
    = (filter (λ e, is_Some (make_col_map (headers e.2))) wb).*1.
Proof.
  intros Hnd.
  assert ((process_sheets q3 wb).2 = omap (sheet_entry q3) wb) as Heq.
  { unfold process_sheets. by apply (summary_loop q3 wb [] []). }
  split; [done|]. rewrite Heq. clear. induction wb as [|e wb IH]; [done|].
  cbn [omap list_omap]. rewrite filter_cons. unfold sheet_entry at 1.
  destruct (make_col_map (headers e.2)) as [cm|]; cbn.
  - rewrite decide_True by by eexists. cbn. by rewrite IH.
  - rewrite decide_False by by intros [? ?]. done.
Qed.

(** X5, an instance: a workbook of two sheets, the second without the
    columns. *)
Lemma summary_lists_witness :
  (process_sheets ∅ workbook_example).2.*1 = ["Servers"].
Proof.
  refine (eq_trans (proj2 (summary_lists_processed_sheets ∅ workbook_example _)) _).
  - apply (bool_decide_unpack _). by vm_compute.
  - by vm_compute.
Defined.

End SheetLoopProperties.

(** ** Deduplication, labels and counts of a sheet *)

Section StatusFacts.
Import Compare.
Variable cm : col_map.
Variable q3 : gset fingerprint.

Lemma length_filter_fmap {A B} (P : B → Prop) `{∀ x, Decision (P x)}
    (f : A → B) (l : list A) :
  length (filter P (f <$> l)) = length (filter (λ x, P (f x)) l).
Proof.
  induction l as [|x l IH]; [done|]. cbn [fmap list_fmap].
  rewrite !filter_cons. destruct (decide (P (f x))); cbn [length]; by rewrite IH.
Qed.

Lemma row_cell_nil c : row_cell [] c = VNone.
Proof. by destruct c. Qed.

Lemma row_cell_insert_nil k c : row_cell (insert_row_cell (S k) []) c = VNone.
Proof. rewrite row_cell_insert. repeat case_decide; by rewrite ?row_cell_nil. Qed.

Lemma rows_read_survivors hdr data :
  rows_read cm (hdr :: data) = insert_row_cell (cName cm + 1) <$> survivors cm ∅ data.
Proof. unfold rows_read. by rewrite dedup_sheet_survivors. Qed.

Lemma process_sheet_read hdr data :
  process_sheet cm q3 (hdr :: data)
  = (set_row_cell (insert_row_cell (cName cm + 1) hdr) (cName cm + 1) (VStr "Status")
       :: (mark_row cm q3 (cName cm + 1) <$> rows_read cm (hdr :: data)),
     foldl (count_row cm q3) (SheetCounts counts0 counts0) (rows_read cm (hdr :: data))).
Proof. rewrite rows_read_survivors. apply process_sheet_rows. Qed.

Lemma tally_fields rv x :
  TOTAL (tally rv x) = TOTAL x + 1 + (if decide (rv = "TOTAL") then 1 else 0)
  ∧ CRITICAL (tally rv x) = CRITICAL x + (if decide (rv = "CRITICAL") then 1 else 0)
  ∧ HIGH (tally rv x) = HIGH x + (if decide (rv = "HIGH") then 1 else 0)
  ∧ MEDIUM (tally rv x) = MEDIUM x + (if decide (rv = "MEDIUM") then 1 else 0)
  ∧ LOW (tally rv x) = LOW x + (if decide (rv = "LOW") then 1 else 0).
Proof.
  unfold tally, bump.
  destruct (String.eqb_spec rv "TOTAL") as [->|?];
    [cbn; repeat case_decide; try congruence; repeat split; lia|].
  destruct (String.eqb_spec rv "CRITICAL") as [->|?];
    [cbn; repeat case_decide; try congruence; repeat split; lia|].
  destruct (String.eqb_spec rv "HIGH") as [->|?];
    [cbn; repeat case_decide; try congruence; repeat split; lia|].
  destruct (String.eqb_spec rv "MEDIUM") as [->|?];
    [cbn; repeat case_decide; try congruence; repeat split; lia|].
  destruct (String.eqb_spec rv "LOW") as [->|?];
    [cbn; repeat case_decide; try congruence; repeat split; lia|].
  cbn [TOTAL CRITICAL HIGH MEDIUM LOW].
  repeat case_decide; try congruence. repeat split; lia.
Qed.

Lemma select_count_row c sc r :
  select c (count_row cm q3 sc r)
  = if decide (read_category cm q3 r = c)
    then tally (read_risk cm r) (select c sc) else select c sc.
Proof.
  unfold count_row, read_category, read_risk.
  destruct (categorize q3 (row_fingerprint cm r)), c; cbn; done.
Qed.

Lemma in_category_cons c r rows :
  in_category cm q3 c (r :: rows)
  = (if decide (read_category cm q3 r = c) then 1 else 0) + in_category cm q3 c rows.
Proof. unfold in_category. rewrite filter_cons. by destruct (decide _). Qed.

Lemma with_risk_cons c rv r rows :
  with_risk cm q3 c rv (r :: rows)
  = (if decide (read_category cm q3 r = c)
     then if decide (read_risk cm r = rv) then 1 else 0 else 0)
    + with_risk cm q3 c rv rows.
Proof.
  unfold with_risk. rewrite filter_cons.
  destruct (decide (read_category cm q3 r = c)), (decide (read_risk cm r = rv)).
  - by rewrite decide_True.
  - by rewrite decide_False by by intros [? ?].
  - by rewrite decide_False by by intros [? ?].
  - by rewrite decide_False by by intros [? ?].
Qed.

Lemma count_rows_select c rows : ∀ sc,
  let sc' := select c (foldl (count_row cm q3) sc rows) in
  TOTAL sc' = TOTAL (select c sc) + in_category cm q3 c rows
              + with_risk cm q3 c "TOTAL" rows
  ∧ CRITICAL sc' = CRITICAL (select c sc) + with_risk cm q3 c "CRITICAL" rows
  ∧ HIGH sc' = HIGH (select c sc) + with_risk cm q3 c "HIGH" rows
  ∧ MEDIUM sc' = MEDIUM (select c sc) + with_risk cm q3 c "MEDIUM" rows
  ∧ LOW sc' = LOW (select c sc) + with_risk cm q3 c "LOW" rows.
Proof.
  induction rows as [|r rows IH]; intros sc; cbn zeta.
  { cbn. unfold in_category, with_risk. cbn. lia. }
  cbn [foldl]. destruct (IH (count_row cm q3 sc r)) as (IT & IC & IH' & IM & IL).
  cbn zeta in *. rewrite IT, IC, IH', IM, IL.
  rewrite select_count_row, in_category_cons, !with_risk_cons.
  destruct (decide (read_category cm q3 r = c)); [|lia].
  destruct (tally_fields (read_risk cm r) (select c sc)) as (-> & -> & -> & -> & ->).
  lia.
Qed.

Lemma risks_within_category c rows :
  with_risk cm q3 c "CRITICAL" rows + with_risk cm q3 c "HIGH" rows
  + with_risk cm q3 c "MEDIUM" rows + with_risk cm q3 c "LOW" rows
  ≤ in_category cm q3 c rows.
Proof.
  induction rows as [|r rows IH]; [done|].
  rewrite in_category_cons, !with_risk_cons.
  destruct (decide (read_category cm q3 r = c)); [|lia].
  repeat case_decide; try congruence; lia.
Qed.

Lemma labelled_marked c rows hdr' :
  labelled (status_text c) (cName cm + 1)
           (hdr' :: (mark_row cm q3 (cName cm + 1) <$> rows))
  = in_category cm q3 c rows.
Proof.
  unfold labelled, in_category. cbn [drop]. rewrite drop_0, length_filter_fmap.
  f_equal. apply list_filter_iff. intros r. unfold mark_row, read_category.
  replace (cName cm + 1) with (S (cName cm)) by lia.
  rewrite row_cell_set, decide_True by done.
  split; [|by intros ->]. intros [= Hs].
  by destruct (categorize q3 (row_fingerprint cm r)), c.
Qed.

Lemma category_partition rows :
  in_category cm q3 new rows + in_category cm q3 existing rows = length rows.
Proof.
  induction rows as [|r rows IH]; [done|]. rewrite !in_category_cons. cbn [length].
  destruct (read_category cm q3 r); repeat case_decide; try congruence; lia.
Qed.

End StatusFacts.

Section StatusProperties.
Import Compare.

(** X6: after the deduplication of a sheet no two data rows have the same
    fingerprint, and every row of the sheet that had a Plugin ID has a
    surviving row with its fingerprint. *)
Theorem dedup_sheet_fingerprints_distinct cm ws :
  NoDup (row_fingerprint cm <$> drop 1 (dedup_sheet cm ws))
  ∧ ∀ r, r ∈ drop 1 ws → row_cell r (cPluginID cm) ≠ VNone →
         ∃ r', r' ∈ drop 1 (dedup_sheet cm ws)
               ∧ row_fingerprint cm r' = row_fingerprint cm r.
Proof.
  destruct ws as [|hdr data].
  { split; [apply NoDup_nil_2|]. by intros r Hr%elem_of_nil. }
  rewrite dedup_sheet_survivors. cbn [drop]. unfold survivors. split.
  - apply keep_first_NoDup.
  - intros r Hr Hp.
    assert (r ∈ filter (plugin_present cm) data) as Hin
      by by apply list_elem_of_filter.
    destruct (keep_first_covers (row_fingerprint cm) ∅ _ r Hin) as [He|Hy]; [|done].
    by apply elem_of_empty in He.
Qed.

(** X7: processing a sheet keeps its data: the result has the header and one
    row for each row that survives the deduplication, column [Name + 1] holds
    "Status" in the header and "New Issue" or "Existing" in every other row,
    the cells left of it are those of the deduplicated sheet and the cells
    right of it are those of the column one to the left. *)
Theorem status_column_keeps_data cm q3 hdr data :
  let k := cName cm + 1 in
  let kept := dedup_sheet cm (hdr :: data) in
  let out := (process_sheet cm q3 (hdr :: data)).1 in
  max_row out = max_row kept
  ∧ cell out 1 k = VStr "Status"
  ∧ (∀ i, 2 ≤ i ≤ max_row out →
          cell out i k = VStr "New Issue" ∨ cell out i k = VStr "Existing")
  ∧ (∀ i c, c < k → cell out i c = cell kept i c)
  ∧ (∀ i c, k < c → cell out i c = cell kept i (c - 1)).
Proof.
  intros k kept out. unfold out, kept.
  rewrite process_sheet_rows, dedup_sheet_survivors. cbn zeta. cbn [fst].
  fold k. replace k with (S (cName cm)) by (unfold k; lia). clear k kept out.
  set (k := cName cm). set (rows := survivors cm ∅ data).
  assert (∀ i c, c ≠ S k →
            cell (set_row_cell (insert_row_cell (S k) hdr) (S k) (VStr "Status")
                    :: (mark_row cm q3 (S k) <$> (insert_row_cell (S k) <$> rows)))
                 i c
            = row_cell (insert_row_cell (S k) (ws_row (hdr :: rows) i)) c) as Hother.
  { intros i c Hc. unfold cell. destruct i as [|[|i]].
    - cbn [ws_row]. by rewrite row_cell_nil, row_cell_insert_nil.
    - cbn [ws_row lookup list_lookup default from_option id].
      by rewrite row_cell_set, decide_False.
    - rewrite !ws_row_data, !list_lookup_fmap. destruct (rows !! i) as [r|];
        cbn [fmap option_fmap option_map default from_option id].
      + unfold mark_row. by rewrite row_cell_set, decide_False.
      + by rewrite row_cell_nil, row_cell_insert_nil. }
  split; [|split; [|split; [|split]]].
  - unfold max_row. cbn [length]. by rewrite !length_fmap.
  - unfold cell. cbn [ws_row lookup list_lookup default from_option id].
    by rewrite row_cell_set, decide_True.
  - intros i [Hi1 Hi2]. unfold max_row in Hi2. cbn [length] in Hi2.
    rewrite !length_fmap in Hi2. destruct i as [|[|i]]; [lia|lia|].
    unfold cell. rewrite ws_row_data, !list_lookup_fmap.
    destruct (rows !! i) as [r|] eqn:E.
    + cbn [fmap option_fmap option_map default from_option id].
      unfold mark_row. rewrite row_cell_set, decide_True by done.
      destruct (categorize _ _); [by left|by right].
    + apply lookup_ge_None in E. lia.
  - intros i c Hc. rewrite Hother by lia. unfold cell.
    rewrite row_cell_insert. by rewrite decide_True by lia.
  - intros i c Hc. rewrite Hother by lia. unfold cell.
    rewrite row_cell_insert. rewrite decide_False by lia.
    by rewrite decide_False by lia.
Qed.

(** X8: for each of the two categories, the risk counts of a sheet are the
    numbers of rows the status loop reads with that category and that
    standardized risk, the count TOTAL is the number of rows read with the
    category plus the number of those whose standardized risk is the text
    TOTAL, and the four risk counts together do not exceed the number of
    rows of the category. *)
Theorem counts_are_rows_read cm q3 hdr data c :
  let rows := rows_read cm (hdr :: data) in
  let sc := select c (process_sheet cm q3 (hdr :: data)).2 in
  CRITICAL sc = with_risk cm q3 c "CRITICAL" rows
  ∧ HIGH sc = with_risk cm q3 c "HIGH" rows
  ∧ MEDIUM sc = with_risk cm q3 c "MEDIUM" rows
  ∧ LOW sc = with_risk cm q3 c "LOW" rows
  ∧ TOTAL sc = in_category cm q3 c rows + with_risk cm q3 c "TOTAL" rows
  ∧ CRITICAL sc + HIGH sc + MEDIUM sc + LOW sc ≤ in_category cm q3 c rows.
Proof.
  intros rows sc. unfold sc. rewrite process_sheet_read. cbn [snd]. fold rows.
  destruct (count_rows_select cm q3 c rows (SheetCounts counts0 counts0))
    as (HT & HC & HH & HM & HL).
  cbn zeta in *. rewrite HT, HC, HH, HM, HL.
  pose proof (risks_within_category cm q3 c rows).
  destruct c; cbn; repeat split; lia.
Qed.

(** X9: the totals of a sheet agree with the labels written into it: the
    total of new issues is the number of rows labelled "New Issue" and the
    total of existing issues the number of rows labelled "Existing", each
    plus the number of rows of the category whose standardized risk is the
    text TOTAL; and the two labels together cover every data row. *)
Theorem totals_match_labels cm q3 hdr data :
  let k := cName cm + 1 in
  let rows := rows_read cm (hdr :: data) in
  let out := process_sheet cm q3 (hdr :: data) in
  TOTAL (of_new out.2)
  = labelled "New Issue" k out.1 + with_risk cm q3 new "TOTAL" rows
  ∧ TOTAL (of_existing out.2)
    = labelled "Existing" k out.1 + with_risk cm q3 existing "TOTAL" rows
  ∧ labelled "New Issue" k out.1 + labelled "Existing" k out.1 = max_row out.1 - 1.
Proof.
  intros k rows out. unfold out, k. rewrite process_sheet_read. cbn [fst snd].
  fold rows.
  rewrite (labelled_marked cm q3 new), (labelled_marked cm q3 existing).
  destruct (count_rows_select cm q3 new rows (SheetCounts counts0 counts0))
    as (HTn & _).
  destruct (count_rows_select cm q3 existing rows (SheetCounts counts0 counts0))
    as (HTe & _).
  cbn zeta in *. cbn [select] in *. rewrite HTn, HTe.
  split; [cbn; lia|]. split; [cbn; lia|].
  rewrite category_partition. unfold max_row. cbn [length].
  rewrite length_fmap. lia.
Qed.

End StatusProperties.

(** ** The prior-period set *)

Section PriorSetFacts.
Import Compare.










End PriorSetFacts.

Section PriorSetProperties.
Import Compare.


(** X11: a row that survives the deduplication of a sheet in which Plugin ID
    stands left of Name, and whose Plugin ID standardizes to the empty
    string, gets the label "New Issue", whatever the prior workbook
    holds. *)
Theorem blank_plugin_id_is_new q3_dict cm hdr data i r :
  cPluginID cm < cName cm →
  survivors cm ∅ data !! i = Some r →
  standardize (row_cell r (cPluginID cm)) = "" →
  cell (process_sheet cm (q3_existing_issues q3_dict) (hdr :: data)).1
       (2 + i) (cName cm + 1)
  = VStr "New Issue".
Proof.
  intros Hleft Hi Hb. rewrite (status_label _ _ _ _ _ _ Hi).
  unfold categorize. rewrite bool_decide_true; [done|].
  intros (s & _ & Hf & Hne)%elem_of_q3_existing_issues. apply Hne.
  unfold row_fingerprint. cbn [fst].
  replace (cName cm + 1) with (S (cName cm)) by lia.
  rewrite row_cell_insert, decide_True by lia. done.
Qed.

(** X11, an instance: the row with a blank in its Plugin ID cell, against a
    prior workbook that has a record with the same blank. *)
Lemma blank_plugin_id_witness :
  cell (process_sheet (ColMap 1 3 4 5 6 2)
          (q3_existing_issues
             [("Servers", [ {[ "Plugin ID" := VStr " "; "Host" := VStr "h1";
                               "Protocol" := VStr "tcp"; "Port" := VInt 80 ]} ])])
          sheet_blank_plugin).1 2 7
  = VStr "New Issue".
Proof.
  refine (blank_plugin_id_is_new
            [("Servers", [ {[ "Plugin ID" := VStr " "; "Host" := VStr "h1";
                              "Protocol" := VStr "tcp"; "Port" := VInt 80 ]} ])]
            (ColMap 1 3 4 5 6 2) (hd [] sheet_blank_plugin)
            (drop 1 sheet_blank_plugin) 0
            [VStr " "; VStr "High"; VStr "h1"; VStr "tcp"; VInt 80; VStr "x"]
            _ _ _).
  - cbn. lia.
  - vm_compute. reflexivity.
  - vm_compute. reflexivity.
Defined.

End PriorSetProperties.

(** ** The layout of the summary sheet *)

Section LayoutFacts.
Import Compare.
Variable P : nat → nat → Prop.

Lemma within_empty : cells_within P ∅.
Proof. intros r c [v Hv]. by rewrite lookup_empty in Hv. Qed.

Lemma within_safe_write ws r c v :
  P r c → cells_within P ws → cells_within P (safe_write ws r c v).
Proof.
  intros HP Hws r' c' Hs. rewrite lookup_safe_write in Hs.
  destruct (decide (r = r' ∧ c = c')) as [[<- <-]|_]; [done|]. by apply Hws.
Qed.

Lemma within_write_cells cells : ∀ ws row,
  Forall (λ cv, P row cv.1) cells →
  cells_within P ws → cells_within P (write_cells ws row cells).
Proof.
  unfold write_cells.
  induction cells as [|cv cells IH]; intros ws row Hc Hws; [done|].
  apply Forall_cons in Hc as [Hcv Hc]. cbn [foldl]. apply IH; [done|].
  by apply within_safe_write.
Qed.

Lemma within_write_rows {A} (cells : A → list (nat * scell)) l : ∀ ws p,
  (∀ i x, l !! i = Some x → Forall (λ cv, P (p + i) cv.1) (cells x)) →
  cells_within P ws → cells_within P (write_rows cells ws p l).1.
Proof.
  unfold write_rows.
  induction l as [|x l IH]; intros ws p Hc Hws; [done|].
  cbn [foldl fst snd]. apply IH.
  - intros i y Hi. replace (p + 1 + i) with (p + S i) by lia. by apply Hc.
  - apply within_write_cells; [|done].
    specialize (Hc 0 x eq_refl). by rewrite Nat.add_0_r in Hc.
Qed.

Lemma within_risk_header title ws p :
  P p 2 → (∀ c, 2 ≤ c ≤ 7 → P (p + 1) c) →
  cells_within P ws → cells_within P (write_risk_header title ws p).
Proof.
  intros H2 Hrow Hws. unfold write_risk_header. cbn.
  repeat (apply within_safe_write; [first [assumption | apply Hrow; lia]|]).
  done.
Qed.

Lemma within_risk_total totals total ws p :
  (∀ c, 2 ≤ c ≤ 7 → P p c) →
  cells_within P ws → cells_within P (write_risk_total totals total ws p).
Proof.
  intros Hrow Hws. unfold write_risk_total. cbn.
  repeat (apply within_safe_write; [apply Hrow; lia|]).
  done.
Qed.

End LayoutFacts.

Section LayoutProperties.
Import Compare.

(** X12: the summary sheet of [n] domains has values only in the cells of
    its three tables: rows 2 to n + 4 in columns 2 to 5, rows n + 8 to
    2n + 10 and rows 2n + 14 to 3n + 16 in columns 2 to 7; the three rows
    between two tables stay empty. *)
Theorem summary_cells_within_tables sd r c :
  is_Some (recurrence_summary sd !! (r, c)) → in_tables (length sd) r c.
Proof.
  revert r c. change (cells_within (in_tables (length sd)) (recurrence_summary sd)).
  set (n := length sd). unfold recurrence_summary.
  rewrite table1_fold.
  destruct (write_rows table1_cells _ _ sd) as [w1 p1] eqn:E1.
  assert (p1 = 4 + n) as ->.
  { change p1 with (w1, p1).2. rewrite <- E1. apply write_rows_ptr. }
  assert (w1 = (w1, 4 + n).1) as Hw1 by done. rewrite <- E1 in Hw1.
  cbv beta iota zeta.
  rewrite risk_fold.
  destruct (write_rows (risk_cells of_new) _ _ sd) as [w2 p2] eqn:E2.
  assert (p2 = 2 * n + 10) as ->.
  { change p2 with (w2, p2).2. rewrite <- E2, write_rows_ptr. fold n. lia. }
  assert (w2 = (w2, 2 * n + 10).1) as Hw2 by done. rewrite <- E2 in Hw2.
  rewrite risk_fold.
  destruct (write_rows (risk_cells of_existing) _ _ sd) as [w3 p3] eqn:E3.
  assert (p3 = 3 * n + 16) as ->.
  { change p3 with (w3, p3).2. rewrite <- E3, write_rows_ptr. fold n. lia. }
  assert (w3 = (w3, 3 * n + 16).1) as Hw3 by done. rewrite <- E3 in Hw3.
  clear E1 E2 E3.
  assert (Hlt : ∀ i item, sd !! i = Some item → i < n).
  { intros i item Hi. by apply lookup_lt_Some in Hi. }
  clearbody n.
  apply within_risk_total; [intros; unfold in_tables; lia|].
  rewrite Hw3. apply within_write_rows.
  { intros i x Hi. apply Hlt in Hi.
    repeat (apply Forall_cons; split; [cbn [fst]; unfold in_tables; lia|]).
    apply Forall_nil_2. }
  apply within_risk_header; [unfold in_tables; lia|intros; unfold in_tables; lia|].
  apply within_risk_total; [intros; unfold in_tables; lia|].
  rewrite Hw2. apply within_write_rows.
  { intros i x Hi. apply Hlt in Hi.
    repeat (apply Forall_cons; split; [cbn [fst]; unfold in_tables; lia|]).
    apply Forall_nil_2. }
  apply within_risk_header; [unfold in_tables; lia|intros; unfold in_tables; lia|].
  cbn [foldl fst snd].
  do 4 (apply within_safe_write; [unfold in_tables; lia|]).
  rewrite Hw1. apply within_write_rows.
  { intros i x Hi. apply Hlt in Hi.
    repeat (apply Forall_cons; split; [cbn [fst]; unfold in_tables; lia|]).
    apply Forall_nil_2. }
  do 5 (apply within_safe_write; [unfold in_tables; lia|]).
  apply within_empty.
Qed.

(** X12, an instance: the title cell of the summary without domains. *)
Lemma summary_cells_witness : in_tables 0 2 2.
Proof.
  apply (summary_cells_within_tables [] 2 2). vm_compute. by eexists.
Defined.

End LayoutProperties.

(** ** The rows of the summary tables *)

Section TableRowFacts.
Import Compare.

Lemma process_sheet_within_total cm q3 ws :
  let sc := (process_sheet cm q3 ws).2 in
  risks_within_total (of_new sc) ∧ risks_within_total (of_existing sc).
Proof.
  destruct ws as [|hdr data]; cbn zeta.
  { unfold risks_within_total. cbn. lia. }
  rewrite process_sheet_read. cbn [snd].
  set (rows := rows_read cm (hdr :: data)).
  destruct (count_rows_select cm q3 new rows (SheetCounts counts0 counts0))
    as (HT & HC & HH & HM & HL).
  destruct (count_rows_select cm q3 existing rows (SheetCounts counts0 counts0))
    as (HT' & HC' & HH' & HM' & HL').
  pose proof (risks_within_category cm q3 new rows).
  pose proof (risks_within_category cm q3 existing rows).
  cbn zeta in *. cbn [select] in *. unfold risks_within_total.
  rewrite HT, HC, HH, HM, HL, HT', HC', HH', HM', HL'. cbn. lia.
Qed.

Lemma dict_set_Forall (P : string * sheet_counts → Prop) d k v :
  (∀ k', P (k', v)) → Forall P d → Forall P (dict_set d k v).
Proof.
  intros Hv. induction 1 as [|[k' v'] d Hx Hd IH]; cbn [dict_set].
  { by repeat constructor. }
  destruct (String.eqb k' k); constructor; done.
Qed.

Lemma sheet_loop_within_total q3 (wb : workbook) : ∀ (out : workbook) (sd : summary_dict),
  Forall (λ e, risks_within_total (of_new e.2) ∧ risks_within_total (of_existing e.2)) sd →
  Forall (λ e, risks_within_total (of_new e.2) ∧ risks_within_total (of_existing e.2))
         (foldl (sheet_step q3) (out, sd) wb).2.
Proof.
  induction wb as [|e wb IH]; intros out sd Hsd; [done|].
  cbn [foldl].
  destruct (sheet_step q3 (out, sd) e) as [out' sd'] eqn:E. apply IH.
  unfold sheet_step in E. cbn [fst snd] in E.
  destruct (make_col_map (headers e.2)) as [cm|]; injection E as _ <-; [|done].
  apply dict_set_Forall; [|done]. intros k'. apply process_sheet_within_total.
Qed.

Lemma process_sheets_within_total q3 wb :
  Forall (λ e, risks_within_total (of_new e.2) ∧ risks_within_total (of_existing e.2))
         (process_sheets q3 wb).2.
Proof. apply sheet_loop_within_total. constructor. Qed.

Lemma sums_within_total (f : sheet_counts → counts) (l : list sheet_counts) :
  Forall (λ d, risks_within_total (f d)) l →
  sum_list_with (λ d, CRITICAL (f d)) l + sum_list_with (λ d, HIGH (f d)) l
  + sum_list_with (λ d, MEDIUM (f d)) l + sum_list_with (λ d, LOW (f d)) l
  ≤ sum_list_with (λ d, TOTAL (f d)) l.
Proof.
  induction 1 as [|d l Hd _ IH]; [done|]. cbn [sum_list_with].
  unfold risks_within_total in Hd. lia.
Qed.

(** The cells of a row of the second or third table, as numbers. *)
Lemma risk_row_numbers (sel : sheet_counts → counts) (W : summary_sheet) (p : nat)
    (item : string * sheet_counts) :
  (∀ c v, cell_of (risk_cells sel item) c = Some v → W !! (p, c) = Some v) →
  num (W !! (p, 3)) = CRITICAL (sel item.2)
  ∧ num (W !! (p, 4)) = HIGH (sel item.2)
  ∧ num (W !! (p, 5)) = MEDIUM (sel item.2)
  ∧ num (W !! (p, 6)) = LOW (sel item.2)
  ∧ num (W !! (p, 7)) = TOTAL (sel item.2).
Proof.
  intros HW.
  rewrite (HW 3 (or_dash (CRITICAL (sel item.2)))) by done.
  rewrite (HW 4 (or_dash (HIGH (sel item.2)))) by done.
  rewrite (HW 5 (or_dash (MEDIUM (sel item.2)))) by done.
  rewrite (HW 6 (or_dash (LOW (sel item.2)))) by done.
  rewrite (HW 7 (or_dash (TOTAL (sel item.2)))) by done.
  by rewrite !num_or_dash.
Qed.

End TableRowFacts.

Section TableRowProperties.
Import Compare.

(** X13: in every row of the first table of the summary sheet, the rows of
    the domains and the row of the grand total, the cell Total Issue stands
    for the sum of the cells New Issue and Existing Issue, a dash standing
    for zero. *)
Theorem first_table_rows_add_up sd i :
  i ≤ length sd →
  let W := recurrence_summary sd in
  num (W !! (4 + i, 5)) = num (W !! (4 + i, 3)) + num (W !! (4 + i, 4)).
Proof.
  intros Hi W.
  destruct (recurrence_summary_cells sd)
    as (HA & _ & _ & (HA3 & HA4 & HA5) & _).
  cbn zeta in *. fold W in HA, HA3, HA4, HA5.
  destruct (decide (i = length sd)) as [->|Hne].
  - by rewrite HA3, HA4, HA5, !num_or_dash.
  - destruct (lookup_lt_is_Some_2 sd i) as [item Hitem]; [lia|].
    rewrite (HA i item 3 (or_dash (TOTAL (of_new item.2)))) by done.
    rewrite (HA i item 4 (or_dash (TOTAL (of_existing item.2)))) by done.
    rewrite (HA i item 5 (or_dash (TOTAL (of_new item.2) + TOTAL (of_existing item.2))))
      by done.
    by rewrite !num_or_dash.
Qed.

(** X13, an instance: the row of the only domain of a summary. *)
Lemma first_table_rows_witness :
  let W := recurrence_summary [("a", SheetCounts (Counts 3 1 0 1 0) (Counts 2 0 1 0 0))] in
  num (W !! (4, 5)) = num (W !! (4, 3)) + num (W !! (4, 4)).
Proof.
  apply (first_table_rows_add_up
           [("a", SheetCounts (Counts 3 1 0 1 0) (Counts 2 0 1 0 0))] 0).
  cbn. lia.
Defined.

(** X14: in the summary sheet of a run, in every row of the second and of the
    third table, the rows of the domains and the row of the grand total, the
    four risk cells together do not exceed the cell Total. *)
Theorem risk_columns_within_total q3_dict wb i :
  let sd := (process_sheets (q3_existing_issues q3_dict) wb).2 in
  let n := length sd in
  let W := (process_new_issues_with_risk q3_dict wb).2 in
  i ≤ n →
  num (W !! (n + 10 + i, 3)) + num (W !! (n + 10 + i, 4))
  + num (W !! (n + 10 + i, 5)) + num (W !! (n + 10 + i, 6))
  ≤ num (W !! (n + 10 + i, 7))
  ∧ num (W !! (2 * n + 16 + i, 3)) + num (W !! (2 * n + 16 + i, 4))
    + num (W !! (2 * n + 16 + i, 5)) + num (W !! (2 * n + 16 + i, 6))
    ≤ num (W !! (2 * n + 16 + i, 7)).
Proof.
  intros sd n W Hi. unfold W, process_new_issues_with_risk. cbn [snd]. fold sd.
  pose proof (process_sheets_within_total (q3_existing_issues q3_dict) wb) as Hok.
  fold sd in Hok. clearbody sd. clear W.
  destruct (recurrence_summary_cells sd)
    as (_ & HB & HC & _ & (HB3 & HB4 & HB5 & HB6 & HB7)
        & (HC3 & HC4 & HC5 & HC6 & HC7)).
  cbn zeta in *. fold n in HB, HC, HB3, HB4, HB5, HB6, HB7, HC3, HC4, HC5, HC6, HC7.
  destruct (decide (i = n)) as [->|Hne].
  - replace (n + 10 + n) with (2 * n + 10) by lia.
    replace (2 * n + 16 + n) with (3 * n + 16) by lia.
    rewrite HB3, HB4, HB5, HB6, HB7, HC3, HC4, HC5, HC6, HC7, !num_or_dash.
    split.
    + apply (sums_within_total of_new). rewrite Forall_fmap.
      eapply Forall_impl; [exact Hok|]. by intros e [? _].
    + apply (sums_within_total of_existing). rewrite Forall_fmap.
      eapply Forall_impl; [exact Hok|]. by intros e [_ ?].
  - destruct (lookup_lt_is_Some_2 sd i) as [item Hitem]; [unfold n in *; lia|].
    pose proof (proj1 (list.Forall_forall _ _) Hok item
                  (list_elem_of_lookup_2 _ _ _ Hitem)) as [Hn He].
    destruct (risk_row_numbers of_new (recurrence_summary sd) (n + 10 + i) item)
      as (-> & -> & -> & -> & ->); [intros c v; by apply HB|].
    destruct (risk_row_numbers of_existing (recurrence_summary sd) (2 * n + 16 + i) item)
      as (-> & -> & -> & -> & ->); [intros c v; by apply HC|].
    done.
Qed.

(** X14, an instance: the first row of the tables for the workbook of two
    sheets. *)
Lemma risk_columns_witness :
  let W := (process_new_issues_with_risk q3_example workbook_example).2 in
  num (W !! (11, 3)) + num (W !! (11, 4)) + num (W !! (11, 5)) + num (W !! (11, 6))
  ≤ num (W !! (11, 7)).
Proof.
  refine (proj1 (risk_columns_within_total q3_example workbook_example 0 _)).
  apply (bool_decide_unpack _). by vm_compute.
Defined.

End TableRowProperties.

(** ** How a run of the summary script ends *)

Section EndingFacts.
Import Summary.

Lemma frames_nil files :
  frames files = [] ↔ Forall (λ e, ∀ df_part, e.2 ≠ Csv df_part) files.
Proof.
  unfold frames. induction files as [|[name st] files IH]; cbn [omap list_omap snd fst].
  { split; [constructor|done]. }
  destruct st as [| |df_part]; cbn [snd].
  - rewrite IH. split; [by constructor|by intros [_ ?]%Forall_cons].
  - rewrite IH. split; [by constructor|by intros [_ ?]%Forall_cons].
  - split; [done|]. intros [H _]%Forall_cons. by destruct (H df_part).
Qed.

Lemma frames_some_csv files :
  frames files ≠ [] → Exists (λ e, ∃ df_part, e.2 = Csv df_part) files.
Proof.
  unfold frames. induction files as [|[name st] files IH]; [done|].
  cbn [omap list_omap snd fst]. destruct st as [| |df_part]; cbn [snd].
  - intros H. apply Exists_cons_tl. by apply IH.
  - intros H. apply Exists_cons_tl. by apply IH.
  - intros _. apply Exists_cons_hd. by exists df_part.
Qed.

Lemma main_unreadable files :
  Exists (λ e, e.2 = Unreadable) files →
  ended (main files) = Handled ∧ output_file (main files) = None.
Proof.
  intros Hex. unfold main.
  pose proof (read_loop_unreadable files [] [] Hex) as Hr.
  by destruct (read_loop files [] []) as [[dfs|] log].
Qed.

Lemma main_readable_ending files :
  Forall (λ e, e.2 ≠ Unreadable) files →
  ended (main files) ≠ Handled
  ∧ (ended (main files) = SysExit 1 ↔ frames files = [])
  ∧ (is_Some (output_file (main files)) ↔ frames files ≠ []).
Proof.
  intros Hall. rewrite (main_readable _ Hall).
  destruct (frames files) as [|d ds].
  { cbn. split; [done|]. split; [done|]. split; [by intros [? ?]|done]. }
  destruct (filtered (d :: ds)); cbn.
  - split; [done|]. split; [done|]. split; [done|by eexists].
  - split; [done|]. split; [done|]. split; [done|by eexists].
Qed.

End EndingFacts.

Section EndingProperties.
Import Summary.

(** X15: a run leaves through [sys.exit(1)] exactly when every file of the
    list is not found (or the list is empty), and then it writes nothing and
    prints one warning for each file before the message that no file was
    read; it writes the output file only if no file is unreadable and at
    least one file is read; and when it leaves through [sys.exit(0)] it has
    written the table with the five columns and no rows. *)
Theorem run_ending_by_files files :
  (ended (main files) = SysExit 1 ↔ Forall (λ e, e.2 = NotFound) files)
  ∧ (Forall (λ e, e.2 = NotFound) files →
     main files
     = Outcome (SysExit 1) None
               (((λ e, WarningNotFound e.1) <$> files) ++ [ErrorNoInput]))
  ∧ (is_Some (output_file (main files)) →
     Forall (λ e, e.2 ≠ Unreadable) files
     ∧ Exists (λ e, ∃ df_part, e.2 = Csv df_part) files)
  ∧ (ended (main files) = SysExit 0 →
     output_file (main files)
     = Some (Table ["Name"; "Risk"; "Total_Count"; "Host"; "Per_Host_Count"] [])).
Proof.
  assert (Forall (λ e : string * file_state, e.2 = NotFound) files →
          Forall (λ e : string * file_state, e.2 ≠ Unreadable) files
          ∧ frames files = []
          ∧ warnings files = (λ e, WarningNotFound e.1) <$> files) as Hmissing.
  { intros Hall. split; [|split].
    - eapply Forall_impl; [exact Hall|]. intros e He. cbn beta in *. congruence.
    - apply frames_nil. eapply Forall_impl; [exact Hall|].
      intros e He df_part. cbn beta in *. congruence.
    - unfold warnings. by rewrite filter_Forall_id. }
  destruct (decide (Exists (λ e : string * file_state, e.2 = Unreadable) files))
    as [Hex|Hno].
  - destruct (main_unreadable files Hex) as [He Ho].
    assert (¬ Forall (λ e : string * file_state, e.2 = NotFound) files) as Hnot.
    { intros Hall. apply Exists_exists in Hex as (e & He1 & He2).
      pose proof (proj1 (list.Forall_forall _ _) Hall e He1) as He3.
      cbn beta in He3. congruence. }
    rewrite He, Ho. split; [split; [done|by intros ?]|].
    split; [by intros ?|]. split; [by intros [? ?]|done].
  - assert (Forall (λ e : string * file_state, e.2 ≠ Unreadable) files) as Hall.
    { apply list.Forall_forall. intros e He Hu. apply Hno.
      apply Exists_exists. by exists e. }
    destruct (main_readable_ending files Hall) as (Hh & H1 & Ho).
    split; [|split; [|split]].
    + rewrite H1, frames_nil. split; intros Hf; apply list.Forall_forall;
        intros e He.
      * pose proof (proj1 (list.Forall_forall _ _) Hf e He) as Hc.
        pose proof (proj1 (list.Forall_forall _ _) Hall e He) as Hu.
        cbn beta in *. destruct e.2 as [| |df_part]; [done|done|].
        by destruct (Hc df_part).
      * pose proof (proj1 (list.Forall_forall _ _) Hf e He) as Hn.
        cbn beta in *. intros df_part. by rewrite Hn.
    + intros Hmiss. destruct (Hmissing Hmiss) as (_ & Hf & Hw).
      rewrite (main_readable _ Hall), Hf, Hw. done.
    + intros Hsome. split; [done|]. by apply frames_some_csv, Ho.
    + rewrite (main_readable _ Hall).
      destruct (frames files) as [|d ds]; [done|].
      by destruct (filtered (d :: ds)).
Qed.

(** X15, an instance: a list of two files that are not found. *)
Lemma run_ending_witness :
  main [("a.csv", NotFound); ("b.csv", NotFound)]
  = Outcome (SysExit 1) None
            [WarningNotFound "a.csv"; WarningNotFound "b.csv"; ErrorNoInput].
Proof.
  refine (proj1 (proj2 (run_ending_by_files
                          [("a.csv", NotFound); ("b.csv", NotFound)])) _).
  by repeat constructor.
Defined.

End EndingProperties.

(** ** The groups of the report *)

Section GroupRowFacts.
Import Summary.

Lemma occurrences_group (k : key3) df :
  length (filter (λ k' : key3, k' = k) (omap name_risk_host df))
  = length (group_of k df).
Proof.
  unfold group_of. induction df as [|r df IH]; [done|].
  cbn [omap list_omap]. rewrite (filter_cons _ r).
  destruct (name_risk_host r) as [k'|] eqn:E.
  - rewrite filter_cons. destruct (decide (k' = k)) as [->|Hne].
    + rewrite decide_True by done. cbn [length]. by rewrite IH.
    + rewrite decide_False by congruence. done.
  - rewrite decide_False by done. done.
Qed.

(** The report is a rearrangement of one row per group, each with the
    counts of its group. *)
Lemma report_rows_perm df :
  report df
  ≡ₚ (λ k3 : key3, ReportRow k3.1.1 k3.1.2
         (Some (length (filter (λ k, k = k3.1) (omap name_risk df))))
         k3.2
         (length (filter (λ k, k = k3) (omap name_risk_host df))))
       <$> remove_dups (omap name_risk_host df).
Proof.
  unfold report, sort_values. rewrite stable_sort_perm, merge_left_report.
  by rewrite stable_sort_perm.
Qed.

Lemma report_keys_perm df :
  row_key <$> report df ≡ₚ remove_dups (omap name_risk_host df).
Proof.
  rewrite report_rows_perm, <- list_fmap_compose.
  match goal with |- ?f <$> ?l ≡ₚ _ => assert (f <$> l = l) as ->; [|done] end.
  generalize (remove_dups (omap name_risk_host df)). intros ks.
  induction ks as [|[[n k] h] ks IH]; [done|].
  cbn [fmap list_fmap]. by rewrite IH.
Qed.

Lemma sum_all_occurrences {K} `{EqDecision K} (l : list K) :
  sum_list_with (λ k : K, length (filter (λ k' : K, k' = k) l)) (remove_dups l)
  = length l.
Proof.
  pose proof (sum_occurrences (λ _ : K, True) (remove_dups l) l
                (NoDup_remove_dups l)) as Hs.
  rewrite !(filter_Forall_id (λ _ : K, True)) in Hs
    by (apply list.Forall_forall; done).
  apply Hs. intros x Hx. by apply elem_of_remove_dups.
Qed.

End GroupRowFacts.

Section GroupRowProperties.
Import Summary.

(** X16: the report has exactly one row for every combination of name, risk
    and host that occurs among the findings that have all three, and the
    per-host counts of all rows together count each of those findings
    once. *)
Theorem report_one_row_per_group df :
  NoDup (row_key <$> report df)
  ∧ (∀ k, k ∈ row_key <$> report df ↔ ∃ r, r ∈ df ∧ name_risk_host r = Some k)
  ∧ sum_list_with r_Per_Host_Count (report df) = length (omap name_risk_host df).
Proof.
  split; [|split].
  - rewrite report_keys_perm. apply NoDup_remove_dups.
  - intros k. rewrite report_keys_perm, elem_of_remove_dups, list_elem_of_omap.
    done.
  - rewrite report_rows_perm.
    rewrite <- (sum_all_occurrences (omap name_risk_host df)).
    generalize (remove_dups (omap name_risk_host df)). intros ks.
    induction ks as [|k ks IH]; [done|].
    cbn [fmap list_fmap sum_list_with r_Per_Host_Count]. by rewrite IH.
Qed.



End GroupRowProperties.

(** ** Repeated records and file names *)

Section KeepFirstMore.
Context {A K : Type} `{Countable K}.
Variable key : A → K.

Lemma keep_first_all_seen seen l :
  Forall (λ x, key x ∈ seen) l → keep_first key seen l = [].
Proof.
  induction 1 as [|x l Hx _ IH]; [done|]. cbn [keep_first].
  by rewrite decide_True.
Qed.

Lemma keep_first_app_covered l1 : ∀ seen l2,
  Forall (λ x, key x ∈ seen ∨ key x ∈ key <$> l1) l2 →
  keep_first key seen (l1 ++ l2) = keep_first key seen l1.
Proof.
  induction l1 as [|x l1 IH]; intros seen l2 Hcov.
  { cbn [app keep_first]. apply keep_first_all_seen.
    eapply Forall_impl; [exact Hcov|]. intros y [?|Hy]; [done|].
    by apply elem_of_nil in Hy. }
  cbn [app keep_first]. destruct (decide (key x ∈ seen)) as [Hin|Hout].
  - apply IH. eapply Forall_impl; [exact Hcov|].
    intros y [?|Hy]; [by left|]. cbn [fmap list_fmap] in Hy.
    apply elem_of_cons in Hy as [->|Hy]; [by left|by right].
  - f_equal. apply IH. eapply Forall_impl; [exact Hcov|].
    intros y [?|Hy].
    + left. by apply elem_of_union_r.
    + cbn [fmap list_fmap] in Hy. apply elem_of_cons in Hy as [->|Hy].
      * left. by apply elem_of_union_l, elem_of_singleton.
      * by right.
Qed.

Lemma keep_first_fmap (g : A → A) seen l :
  (∀ x, key (g x) = key x) →
  keep_first key seen (g <$> l) = g <$> keep_first key seen l.
Proof.
  intros Hg. revert seen. induction l as [|x l IH]; intros seen; [done|].
  cbn [fmap list_fmap keep_first]. rewrite Hg.
  destruct (decide (key x ∈ seen)); [apply IH|].
  cbn [fmap list_fmap]. f_equal. apply IH.
Qed.

End KeepFirstMore.

Section RepeatFacts.
Import Summary.

Lemma dedup_key_tag n r : dedup_key (tag n r) = dedup_key r.
Proof. done. Qed.

Lemma frames_app files1 files2 :
  frames (files1 ++ files2) = frames files1 ++ frames files2.
Proof. unfold frames. apply omap_app. Qed.

Lemma filtered_app_covered (fs : list (list finding)) (d : list finding) :
  Forall (λ r, dedup_key r ∈ dedup_key <$> concat fs) d →
  filtered (fs ++ [d]) = filtered fs.
Proof.
  intros Hcov. unfold filtered, drop_duplicates.
  rewrite concat_app. cbn [concat]. rewrite app_nil_r.
  rewrite keep_first_app_covered; [done|].
  eapply Forall_impl; [exact Hcov|]. intros r Hr. by right.
Qed.

Lemma filter_fmap_same {A} (P : A → Prop) `{∀ x, Decision (P x)}
    (g : A → A) (l : list A) :
  (∀ x, P (g x) ↔ P x) → filter P (g <$> l) = g <$> filter P l.
Proof.
  intros Hg. induction l as [|x l IH]; [done|].
  cbn [fmap list_fmap]. rewrite !filter_cons.
  destruct (decide (P x)) as [Hx|Hx].
  - rewrite decide_True by by apply Hg. cbn [fmap list_fmap]. by rewrite IH.
  - rewrite decide_False by by rewrite Hg. done.
Qed.

Lemma omap_fmap_same {A B} (f : A → option B) (g : A → A) (l : list A) :
  (∀ x, f (g x) = f x) → omap f (g <$> l) = omap f l.
Proof.
  intros Hg. induction l as [|x l IH]; [done|].
  cbn [fmap list_fmap omap list_omap]. by rewrite Hg, IH.
Qed.

Lemma report_fmap_same (g : finding → finding) df :
  (∀ r, name_risk_host (g r) = name_risk_host r) →
  (∀ r, name_risk (g r) = name_risk r) →
  report (g <$> df) = report df.
Proof.
  intros H3 H2. unfold report, groupby_size.
  by rewrite !(omap_fmap_same name_risk_host g), !(omap_fmap_same name_risk g).
Qed.

Lemma untag_tag n r : untag (tag n r) = untag r.
Proof. done. Qed.

Lemma untag_frames f files :
  untag <$> concat (frames (rename_files f files))
  = untag <$> concat (frames files).
Proof.
  unfold frames, rename_files.
  induction files as [|[name st] files IH]; [done|].
  cbn [fmap list_fmap omap list_omap fst snd].
  destruct st as [| |df_part]; cbn [snd]; [done|done|].
  cbn [concat]. rewrite !fmap_app. f_equal; [|exact IH].
  rewrite <- !list_fmap_compose. apply list_fmap_ext. by intros _ r _.
Qed.

Lemma untag_filtered fs :
  untag <$> filtered fs
  = filter (λ r, isin target_risks (Risk r)) (drop_duplicates (untag <$> concat fs)).
Proof.
  unfold filtered, drop_duplicates.
  rewrite (keep_first_fmap dedup_key untag) by done.
  by rewrite (filter_fmap_same _ untag).
Qed.

Lemma rename_unreadable f files :
  Exists (λ e, e.2 = Unreadable) files ↔
  Exists (λ e, e.2 = Unreadable) (rename_files f files).
Proof. unfold rename_files. by rewrite Exists_fmap. Qed.

Lemma frames_rename_nil f files :
  frames (rename_files f files) = [] ↔ frames files = [].
Proof.
  unfold frames, rename_files.
  induction files as [|[name st] files IH]; [done|].
  cbn [fmap list_fmap omap list_omap fst snd].
  by destruct st as [| |df_part]; cbn [snd].
Qed.

(** What a run writes and how it ends, when no file is unreadable. *)
Lemma main_readable_output files :
  Forall (λ e, e.2 ≠ Unreadable) files →
  output_file (main files)
  = match frames files with
    | [] => None
    | all_dfs => Some (Table output_columns
                         (match filtered all_dfs with
                          | [] => []
                          | filtered_df => report filtered_df
                          end))
    end
  ∧ ended (main files)
    = match frames files with
      | [] => SysExit 1
      | all_dfs => match filtered all_dfs with
                   | [] => SysExit 0
                   | _ => Finished
                   end
      end.
Proof.
  intros Hall. rewrite (main_readable _ Hall).
  destruct (frames files) as [|d ds]; [done|].
  by destruct (filtered (d :: ds)).
Qed.

Lemma not_Exists_unreadable (files : list (string * file_state)) :
  ¬ Exists (λ e, e.2 = Unreadable) files →
  Forall (λ e, e.2 ≠ Unreadable) files.
Proof.
  intros Hno. apply list.Forall_forall. intros e He Hu. apply Hno.
  apply Exists_exists. by exists e.
Qed.

Lemma group_ports_NoDup (k : key3) (l : list finding) :
  NoDup (dedup_key <$> l) →
  NoDup (Port <$> group_of k l).
Proof.
  intros Hnd.
  assert (NoDup (dedup_key <$> group_of k l)) as Hg.
  { apply (sublist_NoDup _ (dedup_key <$> l)); [exact Hnd|].
    apply fmap_sublist. unfold group_of. apply sublist_filter. }
  apply (NoDup_fmap_1 (λ p : value, (Some k.1.1, Some k.2, p))).
  replace ((λ p : value, (Some k.1.1, Some k.2, p)) <$> (Port <$> group_of k l))
    with (dedup_key <$> group_of k l); [done|].
  rewrite <- list_fmap_compose. apply list_fmap_ext.
  intros _ r Hr%list_elem_of_lookup_2. unfold group_of in Hr.
  apply list_elem_of_filter in Hr as [Hk _].
  destruct k as [[n rk] h]. apply name_risk_of_host in Hk as [Hnr Hh].
  apply name_risk_Some in Hnr as [Hn _].
  unfold dedup_key. cbn. by rewrite Hn, Hh.
Qed.

End RepeatFacts.

Section RepeatProperties.
Import Summary.

(** X18: a further file whose records all repeat the name, host and port of
    records of the files before it changes neither the table that is written
    nor the way the run ends, provided one of the files before it is read;
    in particular, listing all files a second time changes nothing. *)
Theorem repeated_records_ignored :
  (∀ files name df_part,
     Forall (λ e, e.2 ≠ Unreadable) files →
     Exists (λ e, ∃ d, e.2 = Csv d) files →
     Forall (λ r, dedup_key r ∈ dedup_key <$> concat (frames files)) df_part →
     output_file (main (files ++ [(name, Csv df_part)])) = output_file (main files)
     ∧ ended (main (files ++ [(name, Csv df_part)])) = ended (main files))
  ∧ (∀ files,
       output_file (main (files ++ files)) = output_file (main files)
       ∧ ended (main (files ++ files)) = ended (main files)).
Proof.
  split.
  - intros files name df_part Hall Hcsv Hcov.
    assert (Forall (λ e : string * file_state, e.2 ≠ Unreadable)
                   (files ++ [(name, Csv df_part)])) as Hall'.
    { apply Forall_app. split; [done|]. by repeat constructor. }
    destruct (main_readable_output _ Hall) as [-> ->].
    destruct (main_readable_output _ Hall') as [-> ->].
    rewrite frames_app. cbn [frames omap list_omap snd fst].
    pose proof (frames_nonempty files Hcsv) as Hne.
    assert (filtered (frames files ++ [tag name <$> df_part])
            = filtered (frames files)) as Hf.
    { apply filtered_app_covered. rewrite Forall_fmap.
      eapply Forall_impl; [exact Hcov|]. by intros r Hr. }
    destruct (frames files) as [|d ds] eqn:E; [done|].
    cbn [app]. cbn [app] in Hf. by rewrite Hf.
  - intros files.
    destruct (decide (Exists (λ e : string * file_state, e.2 = Unreadable) files))
      as [Hex|Hno].
    + destruct (main_unreadable files Hex) as [-> ->].
      destruct (main_unreadable (files ++ files)) as [-> ->]; [|done].
      apply Exists_app. by left.
    + apply not_Exists_unreadable in Hno.
      assert (Forall (λ e : string * file_state, e.2 ≠ Unreadable)
                     (files ++ files)) as Hall'
        by by apply Forall_app.
      destruct (main_readable_output _ Hno) as [-> ->].
      destruct (main_readable_output _ Hall') as [-> ->].
      rewrite frames_app.
      assert (filtered (frames files ++ frames files) = filtered (frames files))
        as Hf.
      { unfold filtered, drop_duplicates. rewrite concat_app.
        rewrite keep_first_app_covered; [done|].
        apply list.Forall_forall. intros r Hr. right.
        apply list_elem_of_fmap. by exists r. }
      destruct (frames files) as [|d ds] eqn:E; [done|].
      cbn [app]. cbn [app] in Hf. by rewrite Hf.
Qed.

(** X18, an instance: a second file that repeats the record of the first. *)
Lemma repeated_records_witness :
  output_file (main [("a.csv", Csv [Finding (Some "x") (Some "High") (Some "h1") (VInt 80) ""]);
                     ("b.csv", Csv [Finding (Some "x") (Some "Low") (Some "h1") (VInt 80) ""])])
  = output_file (main [("a.csv", Csv [Finding (Some "x") (Some "High") (Some "h1") (VInt 80) ""])]).
Proof.
  refine (proj1 (proj1 repeated_records_ignored
    [("a.csv", Csv [Finding (Some "x") (Some "High") (Some "h1") (VInt 80) ""])]
    "b.csv" [Finding (Some "x") (Some "Low") (Some "h1") (VInt 80) ""] _ _ _)).
  - repeat constructor; discriminate.
  - apply Exists_cons_hd. by eexists.
  - repeat constructor.
Defined.

(** X19: the names of the input files, which the script records in the
    column SourceFile, have no influence on the table that is written nor on
    the way the run ends. *)
Theorem source_file_not_used (f : string → string) files :
  output_file (main (rename_files f files)) = output_file (main files)
  ∧ ended (main (rename_files f files)) = ended (main files).
Proof.
  destruct (decide (Exists (λ e : string * file_state, e.2 = Unreadable) files))
    as [Hex|Hno].
  { destruct (main_unreadable files Hex) as [-> ->].
    by destruct (main_unreadable (rename_files f files)) as [-> ->];
      [apply rename_unreadable|]. }
  assert (¬ Exists (λ e : string * file_state, e.2 = Unreadable)
            (rename_files f files)) as Hno'
    by by rewrite <- rename_unreadable.
  apply not_Exists_unreadable in Hno, Hno'.
  destruct (main_readable_output _ Hno) as [-> ->].
  destruct (main_readable_output _ Hno') as [-> ->].
  pose proof (frames_rename_nil f files) as Hnil.
  assert (untag <$> filtered (frames (rename_files f files))
          = untag <$> filtered (frames files)) as Hu.
  { by rewrite !untag_filtered, untag_frames. }
  assert (report (filtered (frames (rename_files f files)))
          = report (filtered (frames files))) as Hr.
  { rewrite <- (report_fmap_same untag (filtered (frames files))) by done.
    rewrite <- Hu. by rewrite report_fmap_same. }
  destruct (frames (rename_files f files)) as [|d' ds'];
    destruct (frames files) as [|d ds].
  - done.
  - discriminate (proj1 Hnil eq_refl).
  - discriminate (proj2 Hnil eq_refl).
  - destruct (filtered (d' :: ds')) as [|x' l'];
      destruct (filtered (d :: ds)) as [|x l];
      cbn [fmap list_fmap] in Hu; try discriminate Hu; [done|].
    by rewrite Hr.
Qed.

(** X20: the per-host count of a row of the report made from the
    deduplicated and filtered findings is the number of ports on which the
    finding of the row was recorded for the host: the findings of the group
    have pairwise different ports. *)
Theorem per_host_count_counts_ports all_dfs row :
  row ∈ report (filtered all_dfs) →
  NoDup (Port <$> group_of (row_key row) (filtered all_dfs))
  ∧ r_Per_Host_Count row
    = length (Port <$> group_of (row_key row) (filtered all_dfs)).
Proof.
  intros Hrow. split.
  - apply group_ports_NoDup. unfold filtered.
    apply (sublist_NoDup _ (dedup_key <$> drop_duplicates (concat all_dfs)));
      [apply keep_first_NoDup|].
    apply fmap_sublist, sublist_filter.
  - apply elem_of_report in Hrow as (_ & _ & ->).
    by rewrite length_fmap, <- occurrences_group.
Qed.

(** X20, an instance: one finding on two ports of a host. *)
Lemma per_host_count_witness :
  r_Per_Host_Count (ReportRow "A" "High" (Some 2) "h1" 2)
  = length (Port <$> group_of ("A", "High", "h1")
              (filtered [[Finding (Some "A") (Some "High") (Some "h1") (VInt 80) "a.csv";
                          Finding (Some "A") (Some "High") (Some "h1") (VInt 443) "a.csv";
                          Finding (Some "A") (Some "High") (Some "h1") (VInt 80) "a.csv"]])).
Proof.
  refine (proj2 (per_host_count_counts_ports
    [[Finding (Some "A") (Some "High") (Some "h1") (VInt 80) "a.csv";
      Finding (Some "A") (Some "High") (Some "h1") (VInt 443) "a.csv";
      Finding (Some "A") (Some "High") (Some "h1") (VInt 80) "a.csv"]]
    (ReportRow "A" "High" (Some 2) "h1" 2) _)).
  vm_compute. apply list_elem_of_here.
Defined.

End RepeatProperties.

(** ** The order of the hosts *)

Section LexFacts.
Context {A B : Type} (cmpA : A → A → comparison) (cmpB : B → B → comparison).
Hypothesis eqA : ∀ a b, cmpA a b = Eq ↔ a = b.
Hypothesis oppA : ∀ a b, cmpA b a = CompOpp (cmpA a b).
Hypothesis transA : ∀ a b c,
  not_gt (cmpA a b) = true → not_gt (cmpA b c) = true → not_gt (cmpA a c) = true.
Hypothesis eqB : ∀ a b, cmpB a b = Eq ↔ a = b.
Hypothesis oppB : ∀ a b, cmpB b a = CompOpp (cmpB a b).
Hypothesis transB : ∀ a b c,
  not_gt (cmpB a b) = true → not_gt (cmpB b c) = true → not_gt (cmpB a c) = true.

Lemma lex_pair_eq (a b : A * B) :
  lex (cmpA a.1 b.1) (cmpB a.2 b.2) = Eq ↔ a = b.
Proof.
  destruct a as [a1 a2], b as [b1 b2]. cbn [fst snd]. split.
  - destruct (cmpA a1 b1) eqn:E; cbn [lex]; try done.
    intros H2. apply eqA in E. apply eqB in H2. by subst.
  - intros [= -> ->]. rewrite (proj2 (eqA b1 b1) eq_refl). cbn. by apply eqB.
Qed.

Lemma lex_pair_opp (a b : A * B) :
  lex (cmpA b.1 a.1) (cmpB b.2 a.2) = CompOpp (lex (cmpA a.1 b.1) (cmpB a.2 b.2)).
Proof. by rewrite oppA, oppB, lex_opp. Qed.

Lemma lex_pair_trans (a b c : A * B) :
  not_gt (lex (cmpA a.1 b.1) (cmpB a.2 b.2)) = true →
  not_gt (lex (cmpA b.1 c.1) (cmpB b.2 c.2)) = true →
  not_gt (lex (cmpA a.1 c.1) (cmpB a.2 c.2)) = true.
Proof.
  destruct a as [a1 a2], b as [b1 b2], c as [c1 c2]. cbn [fst snd].
  destruct (cmpA a1 b1) eqn:Eab; cbn [lex]; [| |done].
  - apply eqA in Eab as ->. destruct (cmpA b1 c1) eqn:Ebc; cbn [lex]; try done.
    apply transB.
  - intros _. destruct (cmpA b1 c1) eqn:Ebc; cbn [lex]; [| |done].
    + apply eqA in Ebc as <-. by rewrite Eab.
    + intros _. destruct (cmpA a1 c1) eqn:Eac; cbn [lex]; [|done|].
      * apply eqA in Eac as ->. rewrite oppA, Ebc in Eab. done.
      * pose proof (transA a1 b1 c1) as Ht. rewrite Eab, Ebc, Eac in Ht.
        by specialize (Ht eq_refl eq_refl).
Qed.

End LexFacts.

Section StableFacts.
Context {A : Type} (leb : A → A → bool) (P : A → Prop) (R : A → A → Prop).
Hypothesis leb_total : ∀ a b, leb a b = true ∨ leb b a = true.
Hypothesis leb_trans : ∀ a b c, P a → P b → P c →
  leb a b = true → leb b c = true → leb a c = true.

(** Of two elements the sort cannot tell apart, the one that came first
    stays first. *)
Lemma sort_insert_stable x l :
  P x → Forall P l → Forall (R x) l →
  StronglySorted (λ a b, leb a b = true ∧ (leb b a = true → R a b)) l →
  StronglySorted (λ a b, leb a b = true ∧ (leb b a = true → R a b))
                 (sort_insert leb x l).
Proof.
  intros Hx HP HR HS. induction HS as [|y l Hl IH Hy]; cbn [sort_insert].
  { repeat constructor. }
  apply Forall_cons in HP as [Py HP]. apply Forall_cons in HR as [Rxy HR].
  destruct (leb x y) eqn:E.
  - constructor; [by constructor|]. constructor; [done|].
    apply list.Forall_forall. intros z Hz.
    pose proof (proj1 (list.Forall_forall _ _) Hy z Hz) as [Hyz _].
    pose proof (proj1 (list.Forall_forall _ _) HP z Hz) as Pz.
    pose proof (proj1 (list.Forall_forall _ _) HR z Hz) as Rxz.
    split; [by apply (leb_trans x y z)|done].
  - constructor; [by apply IH|].
    rewrite (sort_insert_perm leb x l). constructor; [|done].
    split; [|by rewrite E]. by destruct (leb_total x y); [congruence|].
Qed.

Lemma stable_sort_stable l :
  Forall P l → StronglySorted R l →
  StronglySorted (λ a b, leb a b = true ∧ (leb b a = true → R a b))
                 (stable_sort leb l).
Proof.
  intros HP HS. induction HS as [|x l Hl IH Hx]; cbn [stable_sort foldr].
  { constructor. }
  apply Forall_cons in HP as [Px HP]. fold (stable_sort leb l).
  apply sort_insert_stable; [done| | |by apply IH].
  - by rewrite (stable_sort_perm leb l).
  - by rewrite (stable_sort_perm leb l).
Qed.

End StableFacts.

Lemma StronglySorted_impl_Forall {A} (P : A → Prop) (R R' : A → A → Prop) l :
  (∀ a b, P a → P b → R a b → R' a b) →
  Forall P l → StronglySorted R l → StronglySorted R' l.
Proof.
  intros Himp HP HS. induction HS as [|x l Hl IH Hx]; [constructor|].
  apply Forall_cons in HP as [Px HP]. constructor; [by apply IH|].
  apply list.Forall_forall. intros y Hy.
  apply Himp; [done| |].
  - by apply (proj1 (list.Forall_forall _ _) HP).
  - by apply (proj1 (list.Forall_forall _ _) Hx).
Qed.

Lemma StronglySorted_strict {A} (R : A → A → Prop) l :
  StronglySorted R l → NoDup l → StronglySorted (λ a b, R a b ∧ a ≠ b) l.
Proof.
  induction 1 as [|x l Hl IH Hx]; intros Hnd; [constructor|].
  apply NoDup_cons in Hnd as [Hnot Hnd]. constructor; [by apply IH|].
  apply list.Forall_forall. intros y Hy. split.
  - by apply (proj1 (list.Forall_forall _ _) Hx).
  - by intros ->.
Qed.

Section HostOrderFacts.
Import Summary.

Lemma string_compare_opp s t : String.compare t s = CompOpp (String.compare s t).
Proof. apply String.compare_antisym. Qed.

Lemma string_compare_trans s t u :
  not_gt (String.compare s t) = true → not_gt (String.compare t u) = true →
  not_gt (String.compare s u) = true.
Proof. rewrite !string_compare_not_gt. apply string_leb_trans. Qed.

Lemma key2_compare_Eq (a b : key2) : key2_compare a b = Eq ↔ a = b.
Proof. apply (lex_pair_eq String.compare String.compare); apply string_compare_Eq. Qed.

Lemma key2_compare_opp (a b : key2) : key2_compare b a = CompOpp (key2_compare a b).
Proof. apply (lex_pair_opp String.compare String.compare); apply string_compare_opp. Qed.

Lemma key2_compare_trans (a b c : key2) :
  not_gt (key2_compare a b) = true → not_gt (key2_compare b c) = true →
  not_gt (key2_compare a c) = true.
Proof.
  apply (lex_pair_trans String.compare String.compare);
    first [apply string_compare_Eq | apply string_compare_opp
          | apply string_compare_trans].
Qed.

Lemma key3_compare_opp (a b : key3) : key3_compare b a = CompOpp (key3_compare a b).
Proof.
  apply (lex_pair_opp key2_compare String.compare);
    [apply key2_compare_opp|apply string_compare_opp].
Qed.

Lemma key3_compare_trans (a b c : key3) :
  not_gt (key3_compare a b) = true → not_gt (key3_compare b c) = true →
  not_gt (key3_compare a c) = true.
Proof.
  apply (lex_pair_trans key2_compare String.compare);
    first [apply key2_compare_Eq | apply key2_compare_opp
          | apply key2_compare_trans | apply string_compare_Eq
          | apply string_compare_opp | apply string_compare_trans].
Qed.

Lemma key3_leb_total (a b : key3) :
  not_gt (key3_compare a b) = true ∨ not_gt (key3_compare b a) = true.
Proof.
  rewrite (key3_compare_opp a b). destruct (key3_compare a b); cbn; auto.
Qed.

(** The group keys after [groupby]: in strictly ascending order. *)
Lemma group_keys_sorted (keys : list key3) :
  StronglySorted (λ a b, not_gt (key3_compare a b) = true ∧ a ≠ b)
    (stable_sort (λ a b, not_gt (key3_compare a b)) (remove_dups keys)).
Proof.
  apply StronglySorted_strict; [|apply NoDup_stable_sort].
  apply Sorted_StronglySorted.
  { intros a b c. apply key3_compare_trans. }
  apply (stable_sort_sorted (λ a b : key3, not_gt (key3_compare a b))).
  apply key3_leb_total.
Qed.

Lemma merged_rows_hosts_ascend df :
  StronglySorted hosts_ascend
    (merge_left (groupby_size key3_compare name_risk_host df)
                (groupby_size key2_compare name_risk df)).
Proof.
  rewrite merge_left_report.
  pose proof (group_keys_sorted (omap name_risk_host df)) as HS.
  induction HS as [|k ks Hks IH Hk]; cbn [fmap list_fmap]; [constructor|].
  constructor; [done|]. rewrite Forall_fmap.
  eapply Forall_impl; [exact Hk|]. intros k' [Hle Hne] Hn Hr.
  cbn [r_Name r_Risk r_Host] in *.
  destruct k as [[n r] h], k' as [[n' r'] h']. cbn [fst snd] in *. subst n' r'.
  unfold key3_compare in Hle. cbn [fst snd] in Hle.
  rewrite (proj2 (key2_compare_Eq (n, r) (n, r)) eq_refl) in Hle. cbn [lex] in Hle.
  destruct (String.compare h h') eqn:E; [|done|done].
  apply string_compare_Eq in E. by subst.
Qed.

Lemma report_hosts_ascend df :
  Forall (λ r, isin target_risks (Risk r)) df →
  StronglySorted hosts_ascend (report df).
Proof.
  intros Hdf.
  pose proof (report_rows_wf df Hdf) as Hwf.
  set (wf := λ row, is_Some (r_Total_Count row) ∧ r_Risk row ∈ risk_order) in *.
  set (same := λ row : report_row,
         r_Total_Count row
         = Some (length (filter (λ k, k = (r_Name row, r_Risk row))
                                (omap name_risk df)))).
  assert (Forall same (report df)) as Hsame.
  { apply list.Forall_forall. intros row Hrow.
    by apply elem_of_report in Hrow as (_ & Ht & _). }
  assert (StronglySorted
            (λ a b, report_leb a b = true ∧ (report_leb b a = true → hosts_ascend a b))
            (report df)) as HS.
  { unfold report, sort_values.
    apply (stable_sort_stable report_leb wf hosts_ascend).
    - apply report_leb_total.
    - intros a b c [? ?] [? ?] [? ?] Hab Hbc.
      apply report_leb_before; [done..|].
      apply (report_before_trans a b c); by apply report_leb_before.
    - unfold report, sort_values in Hwf.
      by rewrite (stable_sort_perm report_leb) in Hwf.
    - apply merged_rows_hosts_ascend. }
  apply (StronglySorted_impl_Forall (λ row, same row)
           (λ a b, report_leb a b = true ∧ (report_leb b a = true → hosts_ascend a b)));
    [|done|done].
  intros a b Ha Hb [_ Hstable] Hn Hr. apply Hstable; [|done|done].
  unfold report_leb, report_compare. unfold same in Ha, Hb.
  rewrite Ha, Hb, Hn, Hr.
  destruct (risk_code (r_Risk b)); cbn [compare_na_last lex];
    rewrite ?Nat.compare_refl; cbn [lex]; by rewrite string_compare_refl.
Qed.

End HostOrderFacts.

Section HostOrderProperties.
Import Summary.

(** X21: in every table the script writes, the rows of one name and risk
    stand in strictly ascending order of host: the sort by risk, total and
    name keeps the order in which grouping left them. *)
Theorem hosts_in_ascending_order files t :
  output_file (main files) = Some t →
  StronglySorted hosts_ascend (rows t).
Proof.
  intros Hout. unfold main in Hout.
  destruct (read_loop files [] []) as [[[|d ds]|] log]; [done| |done].
  destruct (filter _ _) as [|f fs] eqn:Ef; cbn [output_file] in Hout;
    injection Hout as <-.
  { constructor. }
  cbn [rows]. apply report_hosts_ascend. rewrite <- Ef.
  apply list.Forall_forall. by intros r [? _]%list_elem_of_filter.
Qed.

(** X21, an instance: one finding on two hosts, read in descending order of
    host. *)
Lemma hosts_in_order_witness :
  let files :=
    [("a.csv", Csv [Finding (Some "A") (Some "High") (Some "h2") (VInt 80) "";
                    Finding (Some "A") (Some "High") (Some "h1") (VInt 80) ""])] in
  let t := Table output_columns
             [ReportRow "A" "High" (Some 2) "h1" 1;
              ReportRow "A" "High" (Some 2) "h2" 1] in
  output_file (main files) = Some t ∧ StronglySorted hosts_ascend (rows t).
Proof.
  cbv zeta.
  assert (H : output_file (main
    [("a.csv", Csv [Finding (Some "A") (Some "High") (Some "h2") (VInt 80) "";
                    Finding (Some "A") (Some "High") (Some "h1") (VInt 80) ""])])
    = Some (Table output_columns
             [ReportRow "A" "High" (Some 2) "h1" 1;
              ReportRow "A" "High" (Some 2) "h2" 1]))
    by (vm_compute; reflexivity).
  split; [exact H|].
  exact (hosts_in_ascending_order _ _ H).
Defined.

End HostOrderProperties.

(** ** Instances on the example workbooks *)

Section ExampleInstances.
Import Compare.

(** X4, an instance: the sheet without the columns is left as it was. *)
Lemma sheets_processed_witness :
  (process_sheets ∅ workbook_example).1 !! 1
  = Some ("Notes", [[VStr "Plugin ID"; VStr "Host"]; [VInt 1; VStr "h"]]).
Proof.
  refine (proj2 (proj2 (sheets_processed_one_by_one ∅ workbook_example))
                1 ("Notes", [[VStr "Plugin ID"; VStr "Host"]; [VInt 1; VStr "h"]])
                eq_refl _).
  vm_compute. reflexivity.
Defined.

(** X6, an instance: the second row of the sheet in export order repeats the
    fingerprint of the first and is represented by it. *)
Lemma dedup_sheet_fingerprints_witness :
  ∃ r', r' ∈ drop 1 (dedup_sheet (ColMap 1 3 4 5 6 2) sheet_export_order)
        ∧ row_fingerprint (ColMap 1 3 4 5 6 2) r'
          = row_fingerprint (ColMap 1 3 4 5 6 2)
              [VStr "10"; VStr "High"; VStr "SERVER1"; VStr "TCP"; VStr "80 "; VStr "x"].
Proof.
  refine (proj2 (dedup_sheet_fingerprints_distinct (ColMap 1 3 4 5 6 2)
                   sheet_export_order)
                [VStr "10"; VStr "High"; VStr "SERVER1"; VStr "TCP"; VStr "80 "; VStr "x"]
                _ _).
  - cbn [drop sheet_export_order]. apply list_elem_of_further, list_elem_of_here.
  - discriminate.
Defined.

(** X7, an instance: the first data row of the sheet in export order gets
    one of the two labels in column 7. *)
Lemma status_column_witness :
  let out := (process_sheet (ColMap 1 3 4 5 6 2) (q3_existing_issues q3_example)
                            sheet_export_order).1 in
  cell out 2 7 = VStr "New Issue" ∨ cell out 2 7 = VStr "Existing".
Proof.
  refine (proj1 (proj2 (proj2 (status_column_keeps_data (ColMap 1 3 4 5 6 2)
            (q3_existing_issues q3_example)
            (hd [] sheet_export_order) (drop 1 sheet_export_order)))) 2 _).
  split; [lia|]. apply (bool_decide_unpack _). by vm_compute.
Defined.

End ExampleInstances.

(** ** Writing into merged ranges *)

Section MergedFacts.
Import Merged.









End MergedFacts.

Section MergedProperties.
Import Merged.



End MergedProperties.
